(** * SGDET-Annotate: the annotation session of [main.py]

    A shallow embedding of the [AnnotationTool] class: the attributes of
    [self] that make up the annotation session become one record [state],
    every event handler becomes a function from the state (and the inputs
    the handler obtains from Tk: pointer coordinates, list selections,
    dialog answers, file contents) to the new state and the list of
    effects the handler shows to the user.

    Bounding boxes are Python dicts that are shared between
    [confirmed_bboxes], [selected_bbox], [source_bbox], [change_bbox] and
    the tuples of [relationships], and they are mutated in place. They
    live in an object store ([heap]); everything else holds references.

    Not modelled: the appearance of canvas items (outline, dash, position)
    and the selection highlight inside list boxes, the two flashing
    timers, and [save_data], which only reads the session. *)

From stdpp Require Import gmap strings list pretty sorting.
From Stdlib Require Import ZArith Lia.

Open Scope Z_scope.

(** ** Python values *)

(** A reference to a bbox dict: its position in the object store. *)
Abbreviation ref := nat.

(** The dict of a confirmed bounding box, built in
    [confirm_label_assignment]. The key ['text_bg_id'] is only present
    while the box is selected. *)
Record bbox := Build_bbox {
  rect_id : Z;
  coords : Z * Z * Z * Z;
  label : Z;
  id : Z;
  label_str : string;
  text_id : Z;
  selected : bool;
  attributes : list string;
  text_bg_id : option Z
}.

#[global] Instance bbox_eq_dec : EqDecision bbox.
Proof. solve_decision. Defined.

#[global] Instance bbox_inhabited : Inhabited bbox :=
  populate (Build_bbox 0 (0, 0, 0, 0) 0 0 "" 0 false [] None).

Definition set_label (v : Z) (b : bbox) : bbox :=
  Build_bbox (rect_id b) (coords b) v (id b) (label_str b) (text_id b)
    (selected b) (attributes b) (text_bg_id b).
Definition set_id (v : Z) (b : bbox) : bbox :=
  Build_bbox (rect_id b) (coords b) (label b) v (label_str b) (text_id b)
    (selected b) (attributes b) (text_bg_id b).
Definition set_label_str (v : string) (b : bbox) : bbox :=
  Build_bbox (rect_id b) (coords b) (label b) (id b) v (text_id b)
    (selected b) (attributes b) (text_bg_id b).
Definition set_selected (v : bool) (b : bbox) : bbox :=
  Build_bbox (rect_id b) (coords b) (label b) (id b) (label_str b) (text_id b)
    v (attributes b) (text_bg_id b).
Definition set_attributes (v : list string) (b : bbox) : bbox :=
  Build_bbox (rect_id b) (coords b) (label b) (id b) (label_str b) (text_id b)
    (selected b) v (text_bg_id b).
Definition set_text_bg_id (v : option Z) (b : bbox) : bbox :=
  Build_bbox (rect_id b) (coords b) (label b) (id b) (label_str b) (text_id b)
    (selected b) (attributes b) v.

(** The dict of the pending (drawn, not yet labelled) box of [on_mouse_up];
    ['handles'] maps the eight handle keys to their canvas items, in the
    order [create_handles] inserts them. *)
Module Pending.

Record t := Build {
  rect_id : Z;
  coords : Z * Z * Z * Z;
  handles : option (list (string * Z))
}.

Definition set_coords (v : Z * Z * Z * Z) (p : t) : t :=
  Build (rect_id p) v (handles p).

Definition set_handles (v : option (list (string * Z))) (p : t) : t :=
  Build (rect_id p) (coords p) v.

End Pending.

(** A Python dict from names to numbers whose insertion order is observed
    ([_auto_load_imported_files] iterates over it): an association list
    with one entry per key. *)
Fixpoint dict_get (m : list (string * Z)) (k : string) (d : Z) : Z :=
  match m with
  | [] => d
  | (k', v) :: m' => if String.eqb k' k then v else dict_get m' k d
  end.

Fixpoint dict_set (k : string) (v : Z) (m : list (string * Z))
  : list (string * Z) :=
  match m with
  | [] => [(k, v)]
  | (k', v') :: m' =>
      if String.eqb k' k then (k', v) :: m' else (k', v') :: dict_set k v m'
  end.

(** [{name: int(i + 1) for i, name in enumerate(names)}] *)
Fixpoint mapping_from (i : Z) (names : list string) (m : list (string * Z))
  : list (string * Z) :=
  match names with
  | [] => m
  | n :: names' => mapping_from (i + 1) names' (dict_set n (i + 1) m)
  end.

Definition mapping_of (names : list string) : list (string * Z) :=
  mapping_from 0 names [].

(** [list.remove(x)]: drops the first occurrence; [None] is [ValueError]. *)
Fixpoint list_remove (x : string) (l : list string) : option (list string) :=
  match l with
  | [] => None
  | y :: l' =>
      if String.eqb y x then Some l'
      else match list_remove x l' with
           | Some r => Some (y :: r)
           | None => None
           end
  end.

Definition newline : string := String (Ascii.ascii_of_nat 10) "".

(** [f"{label_str}:{id}"] *)
Definition tag (label_str : string) (id : Z) : string :=
  label_str +:+ ":" +:+ pretty id.

(** ** What a handler shows

    The message boxes a handler opens, the tag [f"{label}:{id}"] it
    writes on the canvas ([canvas.create_text(..., text=...)] for a new
    box, [canvas.itemconfig(text_id, text=...)] for a relabelled one), and
    the exception Tk reports when a callback raises. *)
Inductive effect :=
| showwarning (title message : string)
| showerror (title message : string)
| showinfo (title message : string)
| askokcancel (title message : string)
| askyesnocancel (title message : string)
| askyesno (title message : string)
| canvas_create_text (item : Z) (label_str : string) (id : Z)
| canvas_itemconfig_text (item : Z) (label_str : string) (id : Z)
| raised (exception : string).

(** ** The session: the attributes of [self] *)

Record state := Build_state {
  heap : list bbox;
  canvas_next : Z;
  canvas_text : gmap Z string;
  loaded_image : option (Z * Z);
  image_area : option (Z * Z * Z * Z);
  image_path : option string;
  create_bbox_active : bool;
  handling_new_bbox : bool;
  start_x : option Z;
  start_y : option Z;
  temp_rect : option Z;
  pending_bbox : option Pending.t;
  confirmed_bboxes : list ref;
  label_counts : gmap string Z;
  selected_bbox : option ref;
  change_label_mode : bool;
  change_bbox : option ref;
  change_old_label : option string;
  attribute_add_mode : bool;
  relationship_mode : bool;
  source_bbox : option ref;
  pending_relationship : string;
  relationships : list (ref * string * ref);
  predicates : option (list Z);
  dragging_handle : option (Z * Z * Z);
  labels_mapping : list (string * Z);
  attributes_mapping : list (string * Z);
  relationships_mapping : list (string * Z);
  label_listbox : list string;
  attr_listbox : list string;
  rel_listbox : list string;
  labeled_listbox : list string;
  labeled_listbox_state : bool;
  labeled_listbox_bound : bool;
  attribute_view_listbox : list string;
  relationship_view_listbox : list string
}.

(** Field by field:
    - [heap]: the bbox dicts allocated so far; [canvas_next]: the id the
      next canvas item gets (Tk numbers items 1, 2, ... and never reuses
      an id); [canvas_text]: the text items on the canvas;
    - [loaded_image]: the size of the PIL image;
    - [predicates]: [None] while [self] has no attribute [predicates];
    - [dragging_handle]: the attributes [dragging_handle],
      [last_handle_x], [last_handle_y], which exist together or not at
      all;
    - the three mappings are empty while the attribute does not exist
      (the matching list box is empty then, and no handler gets as far
      as reading the mapping);
    - [labeled_listbox_state]: [true] for "normal", [false] for
      "disabled"; [labeled_listbox_bound]: whether [<<ListboxSelect>>] is
      bound. *)

Definition state_eta (s : state) : state :=
  Build_state (heap s) (canvas_next s) (canvas_text s) (loaded_image s)
    (image_area s) (image_path s) (create_bbox_active s)
    (handling_new_bbox s) (start_x s) (start_y s) (temp_rect s)
    (pending_bbox s) (confirmed_bboxes s) (label_counts s) (selected_bbox s)
    (change_label_mode s) (change_bbox s) (change_old_label s)
    (attribute_add_mode s) (relationship_mode s) (source_bbox s)
    (pending_relationship s) (relationships s) (predicates s)
    (dragging_handle s) (labels_mapping s) (attributes_mapping s)
    (relationships_mapping s) (label_listbox s) (attr_listbox s)
    (rel_listbox s) (labeled_listbox s) (labeled_listbox_state s)
    (labeled_listbox_bound s) (attribute_view_listbox s)
    (relationship_view_listbox s).

(** [self.field = v]: the state with one field replaced. *)
Ltac assign field :=
  let eta := eval cbv delta [state_eta] in state_eta in
  match eval pattern field in eta with
  | ?F _ =>
      let t := eval cbv beta in (fun v (s : state) => F (fun _ => v) s) in
      exact t
  end.

Definition set_heap : list bbox -> state -> state := ltac:(assign heap).
Definition set_canvas_next : Z -> state -> state := ltac:(assign canvas_next).
Definition set_canvas_text : gmap Z string -> state -> state :=
  ltac:(assign canvas_text).
Definition set_loaded_image : option (Z * Z) -> state -> state :=
  ltac:(assign loaded_image).
Definition set_image_area : option (Z * Z * Z * Z) -> state -> state :=
  ltac:(assign image_area).
Definition set_image_path : option string -> state -> state :=
  ltac:(assign image_path).
Definition set_create_bbox_active : bool -> state -> state :=
  ltac:(assign create_bbox_active).
Definition set_handling_new_bbox : bool -> state -> state :=
  ltac:(assign handling_new_bbox).
Definition set_start_x : option Z -> state -> state := ltac:(assign start_x).
Definition set_start_y : option Z -> state -> state := ltac:(assign start_y).
Definition set_temp_rect : option Z -> state -> state :=
  ltac:(assign temp_rect).
Definition set_pending_bbox : option Pending.t -> state -> state :=
  ltac:(assign pending_bbox).
Definition set_confirmed_bboxes : list ref -> state -> state :=
  ltac:(assign confirmed_bboxes).
Definition set_label_counts : gmap string Z -> state -> state :=
  ltac:(assign label_counts).
Definition set_selected_bbox : option ref -> state -> state :=
  ltac:(assign selected_bbox).
Definition set_change_label_mode : bool -> state -> state :=
  ltac:(assign change_label_mode).
Definition set_change_bbox : option ref -> state -> state :=
  ltac:(assign change_bbox).
Definition set_change_old_label : option string -> state -> state :=
  ltac:(assign change_old_label).
Definition set_attribute_add_mode : bool -> state -> state :=
  ltac:(assign attribute_add_mode).
Definition set_relationship_mode : bool -> state -> state :=
  ltac:(assign relationship_mode).
Definition set_source_bbox : option ref -> state -> state :=
  ltac:(assign source_bbox).
Definition set_pending_relationship : string -> state -> state :=
  ltac:(assign pending_relationship).
Definition set_relationships : list (ref * string * ref) -> state -> state :=
  ltac:(assign relationships).
Definition set_predicates : option (list Z) -> state -> state :=
  ltac:(assign predicates).
Definition set_dragging_handle : option (Z * Z * Z) -> state -> state :=
  ltac:(assign dragging_handle).
Definition set_labels_mapping : list (string * Z) -> state -> state :=
  ltac:(assign labels_mapping).
Definition set_attributes_mapping : list (string * Z) -> state -> state :=
  ltac:(assign attributes_mapping).
Definition set_relationships_mapping : list (string * Z) -> state -> state :=
  ltac:(assign relationships_mapping).
Definition set_label_listbox : list string -> state -> state :=
  ltac:(assign label_listbox).
Definition set_attr_listbox : list string -> state -> state :=
  ltac:(assign attr_listbox).
Definition set_rel_listbox : list string -> state -> state :=
  ltac:(assign rel_listbox).
Definition set_labeled_listbox : list string -> state -> state :=
  ltac:(assign labeled_listbox).
Definition set_labeled_listbox_state : bool -> state -> state :=
  ltac:(assign labeled_listbox_state).
Definition set_labeled_listbox_bound : bool -> state -> state :=
  ltac:(assign labeled_listbox_bound).
Definition set_attribute_view_listbox : list string -> state -> state :=
  ltac:(assign attribute_view_listbox).
Definition set_relationship_view_listbox : list string -> state -> state :=
  ltac:(assign relationship_view_listbox).

(** ** Helpers on the store and the canvas *)

(** [bbox[...]] through a reference. *)
Definition deref (s : state) (r : ref) : bbox := heap s !!! r.

(** [bbox[key] = v], in place: every holder of the reference sees it. *)
Definition update (r : ref) (f : bbox -> bbox) (s : state) : state :=
  set_heap (<[r := f (deref s r)]> (heap s)) s.

(** A new dict. *)
Definition alloc (b : bbox) (s : state) : ref * state :=
  (length (heap s), set_heap (heap s ++ [b]) s).

(** [a == b] on values that are a bbox dict or [None]: dicts compare by
    their contents. *)
Definition py_eq (s : state) (a b : option ref) : bool :=
  match a, b with
  | None, None => true
  | Some a, Some b => bool_decide (deref s a = deref s b)
  | _, _ => false
  end.

(** [canvas.create_...]: the new item gets the next id. *)
Definition canvas_create (s : state) : Z * state :=
  (canvas_next s, set_canvas_next (canvas_next s + 1) s).

(** [x1 <= x <= x2 and y1 <= y <= y2] *)
Definition inside (c : Z * Z * Z * Z) (x y : Z) : bool :=
  let '(x1, y1, x2, y2) := c in
  (x1 <=? x) && (x <=? x2) && (y1 <=? y) && (y <=? y2).

(** [sorted(l, key=...)]: stable; [lt a b] compares the keys. *)
Fixpoint insert_sorted {A} (lt : A -> A -> bool) (x : A) (l : list A)
  : list A :=
  match l with
  | [] => [x]
  | y :: l' => if lt x y then x :: l else y :: insert_sorted lt x l'
  end.

Definition sorted {A} (lt : A -> A -> bool) (l : list A) : list A :=
  fold_left (fun acc x => insert_sorted lt x acc) l [].

(** ** Views: components 11, 12 and 13 *)

Definition bbox_tag (s : state) (r : ref) : string :=
  tag (label_str (deref s r)) (id (deref s r)).

Definition update_labeled_view (s : state) : state :=
  let key_lt a b :=
    (label (deref s a) <? label (deref s b))
    || (label (deref s a) =? label (deref s b))
       && (id (deref s a) <? id (deref s b)) in
  let sorted_bboxes := sorted key_lt (confirmed_bboxes s) in
  set_labeled_listbox (map (bbox_tag s) sorted_bboxes) s.

Definition update_attribute_view (s : state) : state :=
  set_attribute_view_listbox
    (match selected_bbox s with
     | Some sel => attributes (deref s sel)
     | None => []
     end) s.

(** The relationships the view skips: a box is selected and the source
    differs from it. *)
Definition displayed (s : state) (rel : ref * string * ref) : bool :=
  let '(source_bbox, _, _) := rel in
  match selected_bbox s with
  | Some sel => py_eq s (Some source_bbox) (Some sel)
  | None => true
  end.

Definition relationship_entry (s : state) (rel : ref * string * ref)
  : string :=
  let '(source_bbox, rel_str, target_bbox) := rel in
  bbox_tag s source_bbox +:+ " --- " +:+ rel_str +:+ " --- "
    +:+ bbox_tag s target_bbox.

Definition update_relationship_view (s : state) : state :=
  set_relationship_view_listbox
    (map (relationship_entry s) (List.filter (displayed s) (relationships s)))
    s.

(** ** Selection *)

(** The loop shared by [_get_confirmed_bbox_at] and
    [_get_confirmed_second_bbox_relationship]: the first box of strictly
    smallest area among those that contain the point. The accumulator is
    the pair [(selected_bbox, smallest_area)] of the loop. *)
Definition area (c : Z * Z * Z * Z) : Z :=
  let '(x1, y1, x2, y2) := c in (x2 - x1) * (y2 - y1).

Definition smallest_step (s : state) (x y : Z)
  (acc : option ref * option Z) (bb : ref) : option ref * option Z :=
  if inside (coords (deref s bb)) x y then
    match snd acc with
    | None => (Some bb, Some (area (coords (deref s bb))))
    | Some smallest_area =>
        if area (coords (deref s bb)) <? smallest_area
        then (Some bb, Some (area (coords (deref s bb))))
        else acc
    end
  else acc.

Definition _get_confirmed_second_bbox_relationship (s : state) (x y : Z)
  : option ref :=
  fst (fold_left (smallest_step s x y) (confirmed_bboxes s) (None, None)).

Definition _get_confirmed_bbox_at (s : state) (x y : Z) : option ref :=
  match selected_bbox s with
  | Some sel =>
      if inside (coords (deref s sel)) x y then Some sel else None
  | None =>
      fst (fold_left (smallest_step s x y) (confirmed_bboxes s) (None, None))
  end.

Definition _deselect_bbox (bbox : ref) (s : state) : state :=
  let s := update bbox (set_selected false) s in
  let s := match text_bg_id (deref s bbox) with
           | Some _ => update bbox (set_text_bg_id None) s
           | None => s
           end in
  let s := if py_eq s (selected_bbox s) (Some bbox)
           then set_selected_bbox None s else s in
  update_attribute_view (update_relationship_view s).

Definition _select_bbox (bbox : ref) (s : state) : state :=
  if create_bbox_active s || attribute_add_mode s || relationship_mode s
  then s
  else
    let s := match selected_bbox s with
             | Some sel =>
                 if bool_decide (sel = bbox) then s else _deselect_bbox sel s
             | None => s
             end in
    let s := update bbox (set_selected true) s in
    let s := set_selected_bbox (Some bbox) s in
    let s := match canvas_text s !! text_id (deref s bbox) with
             | Some _ =>
                 let '(bg_rect, s) := canvas_create s in
                 update bbox (set_text_bg_id (Some bg_rect)) s
             | None => s
             end in
    update_attribute_view (update_relationship_view s).

(** ** Mouse and canvas event handlers *)

Definition _inside_image_area (s : state) (x y : Z) : bool :=
  match image_area s with
  | None => false
  | Some (area_x, area_y, area_w, area_h) =>
      (area_x <=? x) && (x <=? area_x + area_w)
      && (area_y <=? y) && (y <=? area_y + area_h)
  end.

(** The clamping of [on_mouse_drag] and [on_mouse_up]. *)
Definition clamp (s : state) (x y : Z) : Z * Z :=
  match image_area s with
  | Some (area_x, area_y, area_w, area_h) =>
      (Z.min (Z.max x area_x) (area_x + area_w),
       Z.min (Z.max y area_y) (area_y + area_h))
  | None => (x, y)
  end.

(** The end of the relationship gesture: lines 355-358 and 378-383. *)
Definition leave_relationship_mode (s : state) : state :=
  let s := set_relationship_mode false s in
  let s := set_source_bbox None s in
  let s := set_pending_relationship "" s in
  set_labeled_listbox_state true s.

Definition is_duplicate (s : state) (target_bbox : ref)
  (rel : ref * string * ref) : bool :=
  let '(rel0, rel1, rel2) := rel in
  py_eq s (Some rel0) (source_bbox s)
  && String.eqb rel1 (pending_relationship s)
  && py_eq s (Some rel2) (Some target_bbox).

(** [on_canvas_click]; [confirm] is the answer to "Confirm Relationship",
    read only when that dialog is shown. *)
Definition on_canvas_click (x y : Z) (confirm : bool) (s : state)
  : state * list effect :=
  if create_bbox_active s then
    if bool_decide (is_Some (image_area s)) && _inside_image_area s x y
       && negb (handling_new_bbox s)
    then
      let s := set_start_x (Some x) s in
      let s := set_start_y (Some y) s in
      let '(item, s) := canvas_create s in
      let s := set_temp_rect (Some item) s in
      (set_handling_new_bbox true s, [])
    else (s, [])
  else
    let clicked_bbox := _get_confirmed_bbox_at s x y in
    if (attribute_add_mode s || relationship_mode s || change_label_mode s)
       && py_eq s clicked_bbox (selected_bbox s)
    then (s, [])
    else
      let s :=
        match clicked_bbox with
        | Some clicked =>
            match selected_bbox s with
            | None => _select_bbox clicked s
            | Some _ =>
                if py_eq s (selected_bbox s) clicked_bbox
                then _deselect_bbox clicked s else s
            end
        | None => s
        end in
      if relationship_mode s then
        if String.eqb (pending_relationship s) "" then (s, [])
        else
          match _get_confirmed_second_bbox_relationship s x y with
          | None =>
              (s, [showwarning "Add Relationship"
                     "Please click on a valid target bounding box."])
          | Some target_bbox =>
              if py_eq s (Some target_bbox) (source_bbox s) then
                (s, [showwarning "Add Relationship"
                       "Target bbox must be different from the source."])
              else if existsb (is_duplicate s target_bbox) (relationships s)
              then
                (leave_relationship_mode s,
                 [showwarning "Add Relationship"
                    "This relationship has already been created."])
              else
                match source_bbox s with
                | None => (s, [raised "TypeError"])
                | Some source =>
                    let source_str := bbox_tag s source in
                    let target_str := bbox_tag s target_bbox in
                    let predicate :=
                      dict_get (relationships_mapping s)
                        (pending_relationship s) 0 in
                    let ask :=
                      askokcancel "Confirm Relationship"
                        ("Create relationship: " +:+ source_str +:+ " --- "
                         +:+ pending_relationship s +:+ " --- "
                         +:+ target_str +:+ "?") in
                    let s :=
                      if confirm then
                        let s :=
                          set_relationships
                            (relationships s
                             ++ [(source, pending_relationship s, target_bbox)])
                            s in
                        let s :=
                          set_predicates
                            (Some (default [] (predicates s) ++ [predicate]))
                            s in
                        update_relationship_view s
                      else s in
                    (leave_relationship_mode s, [ask])
                end
          end
      else (s, []).

(** [on_mouse_drag] only moves the temporary rectangle on the canvas. *)
Definition on_mouse_drag (x y : Z) (s : state) : state * list effect :=
  (s, []).

(** [create_handles]: eight ovals, created corners first. *)
Definition create_handles (pending : Pending.t) (s : state)
  : Pending.t * state :=
  let '(tl, s) := canvas_create s in
  let '(tr, s) := canvas_create s in
  let '(bl, s) := canvas_create s in
  let '(br, s) := canvas_create s in
  let '(tm, s) := canvas_create s in
  let '(bm, s) := canvas_create s in
  let '(ml, s) := canvas_create s in
  let '(mr, s) := canvas_create s in
  (Pending.set_handles
     (Some [("tl", tl); ("tr", tr); ("bl", bl); ("br", br);
            ("tm", tm); ("bm", bm); ("ml", ml); ("mr", mr)]) pending, s).

Definition on_mouse_up (x y : Z) (s : state) : state * list effect :=
  match temp_rect s with
  | None => (s, [])
  | Some temp =>
      if negb (create_bbox_active s) then (s, [])
      else
        let '(clamped_x, clamped_y) := clamp s x y in
        match start_x s, start_y s with
        | Some x1, Some y1 =>
            let x2 := clamped_x in
            let y2 := clamped_y in
            if (Z.abs (x2 - x1) <? 10) || (Z.abs (y2 - y1) <? 10) then
              let s := set_temp_rect None s in
              (set_handling_new_bbox false s, [])
            else
              let pending :=
                Pending.Build temp
                  (Z.min x1 x2, Z.min y1 y2, Z.max x1 x2, Z.max y1 y2)
                  None in
              let '(pending, s) := create_handles pending s in
              let s := set_pending_bbox (Some pending) s in
              (set_temp_rect None s, [])
        | _, _ => (s, [raised "TypeError"])
        end
  end.

(** ** Image loading *)

(** What the [try] block of [open_image] meets. The displayed size
    [new_w], [new_h] is computed in floating point
    ([int(img_w * min(canvas_w / img_w, canvas_h / img_h))]) and is taken
    as given. *)
Inductive open_outcome :=
| decode_raises (e : string)
| resize_raises (size : Z * Z) (e : string)
| opened (size : Z * Z) (canvas_w canvas_h new_w new_h : Z).

(** [open_image]; [file_path] is what the file dialog returns, empty when
    the dialog is cancelled. *)
Definition open_image (file_path : string) (outcome : open_outcome)
  (s : state) : state * list effect :=
  if String.eqb file_path "" then (s, [])
  else
    (* Clear previous image's temporary and persistent data *)
    let s := set_canvas_text ∅ s in
    let s := set_confirmed_bboxes [] s in
    let s := set_pending_bbox None s in
    let s := set_relationships [] s in
    let s := set_predicates (match predicates s with
                             | Some _ => Some []
                             | None => None
                             end) s in
    let s := set_label_counts ∅ s in
    let s := set_selected_bbox None s in
    (* Also reset state flags and temporary variables *)
    let s := set_create_bbox_active false s in
    let s := set_start_x None s in
    let s := set_start_y None s in
    let s := set_temp_rect None s in
    let s := set_handling_new_bbox false s in
    let s := set_change_label_mode false s in
    let s := set_change_bbox None s in
    let s := set_change_old_label None s in
    let s := set_attribute_add_mode false s in
    let s := set_relationship_mode false s in
    let s := set_loaded_image None s in
    let s := update_attribute_view s in
    let s := update_labeled_view s in
    let s := update_relationship_view s in
    let s := set_image_path (Some file_path) s in
    match outcome with
    | decode_raises e => (s, [showerror "Open Image Error" e])
    | resize_raises size e =>
        let s := set_loaded_image (Some size) s in
        (s, [showerror "Open Image Error" e])
    | opened size canvas_w canvas_h new_w new_h =>
        let s := set_loaded_image (Some size) s in
        let x_offset := (canvas_w - new_w) `div` 2 in
        let y_offset := (canvas_h - new_h) `div` 2 in
        let s := set_canvas_text ∅ s in
        let s := set_image_area (Some (x_offset, y_offset, new_w, new_h)) s in
        let '(_, s) := canvas_create s in
        let s := set_confirmed_bboxes [] s in
        let s := update_labeled_view s in
        (set_selected_bbox None s, [])
    end.

Definition toggle_create_bbox (s : state) : state * list effect :=
  match selected_bbox s with
  | Some _ => (s, [])
  | None =>
      match label_listbox s with
      | [] =>
          (s, [showwarning "Import Label List"
                 "Please import label list before creating new bbox."])
      | _ =>
          let s := set_create_bbox_active (negb (create_bbox_active s)) s in
          if create_bbox_active s
          then (set_labeled_listbox_bound false s, [])
          else (set_labeled_listbox_bound true s, [])
      end
  end.

(** ** Label assignment and confirmation *)

(** [self.label_counts.get(label, 0)] *)
Definition count (s : state) (label : string) : Z :=
  default 0 (label_counts s !! label).

(** [confirm_label_assignment]; the caller has checked that there is a
    pending box. *)
Definition confirm_label_assignment (label : string) (answer : bool)
  (pending : Pending.t) (s : state) : state * list effect :=
  let ask :=
    askokcancel "Confirm Label"
      ("Confirm label assignment is '" +:+ label +:+ "'?") in
  if answer then
    let s := set_pending_bbox None s in
    let current_instance_id := count s label + 1 in
    let s :=
      set_label_counts (<[label := current_instance_id]> (label_counts s)) s in
    let rect_id := Pending.rect_id pending in
    let numeric_label := dict_get (labels_mapping s) label 0 in
    let '(text_id, s) := canvas_create s in
    let s :=
      set_canvas_text
        (<[text_id := tag label current_instance_id]> (canvas_text s)) s in
    let confirmed :=
      Build_bbox rect_id (Pending.coords pending) numeric_label
        current_instance_id label text_id false [] None in
    let '(confirmed, s) := alloc confirmed s in
    let s := set_confirmed_bboxes (confirmed_bboxes s ++ [confirmed]) s in
    let s := update_labeled_view s in
    (set_handling_new_bbox false s,
     [ask; canvas_create_text text_id label current_instance_id])
  else (s, [ask]).

(** The loop of [on_label_select] over the relationships. *)
Definition rebind (s : state) (change_bbox : ref) (rel : ref * string * ref)
  : ref * string * ref :=
  let '(source_bbox, rel_str, target_bbox) := rel in
  let rel :=
    if py_eq s (Some source_bbox) (Some change_bbox)
    then (change_bbox, rel_str, target_bbox) else rel in
  if py_eq s (Some target_bbox) (Some change_bbox)
  then (source_bbox, rel_str, change_bbox) else rel.

(** [on_label_select]; [selection] is [curselection()] of the label list,
    [confirm] the answer to the dialog the handler shows. *)
Definition on_label_select (selection : option nat) (confirm : bool)
  (s : state) : state * list effect :=
  match selection ≫= (label_listbox s !!.) with
  | None => (s, [])
  | Some label =>
      if change_label_mode s then
        if bool_decide (Some label = change_old_label s) then
          (s, [showwarning "Change Label"
                 "The new label must be different from the old label."])
        else
          let ask :=
            askokcancel "Confirm Change"
              ("Change label from " +:+ default "None" (change_old_label s)
               +:+ " to " +:+ label +:+ "?") in
          if negb confirm then (s, [ask])
          else
            let new_instance_id := count s label + 1 in
            let s :=
              set_label_counts (<[label := new_instance_id]> (label_counts s))
                s in
            match change_bbox s with
            | None => (s, [ask; raised "TypeError"])
            | Some change =>
                let s :=
                  update change
                    (set_label (dict_get (labels_mapping s) label 0)) s in
                let s := update change (set_id new_instance_id) s in
                let s := update change (set_label_str label) s in
                let text_id := text_id (deref s change) in
                let s :=
                  match canvas_text s !! text_id with
                  | Some _ =>
                      set_canvas_text
                        (<[text_id := tag label new_instance_id]>
                           (canvas_text s)) s
                  | None => s
                  end in
                let s :=
                  set_relationships (map (rebind s change) (relationships s))
                    s in
                let s := update_relationship_view s in
                let s := set_change_label_mode false s in
                let s := set_change_bbox None s in
                let s := set_change_old_label None s in
                let s := set_labeled_listbox_state true s in
                let s := update_labeled_view s in
                (s, [ask; canvas_itemconfig_text text_id label
                            new_instance_id])
            end
      else
        match pending_bbox s with
        | Some pending => confirm_label_assignment label confirm pending s
        | None => (s, [])
        end
  end.

(** ** Resize handles of the pending box *)

Definition on_handle_press (handle_id x y : Z) (s : state)
  : state * list effect :=
  (set_dragging_handle (Some (handle_id, x, y)) s, []).

(** [gettags(item)[1]]: the key under which [create_handles] tagged the
    item, if the item is a handle that still exists. *)
Definition handle_key_of (s : state) (item : Z) : option string :=
  pending ← pending_bbox s;
  handles ← Pending.handles pending;
  fst <$> List.find (fun kv => snd kv =? item) handles.

(** The arithmetic of [on_handle_drag]: move the sides the handle owns,
    keep the box at least [min_size] wide and high, clamp it to the image
    area. *)
Definition resized (handle_key : string) (dx dy : Z)
  (image_area : option (Z * Z * Z * Z)) (coords : Z * Z * Z * Z)
  : Z * Z * Z * Z :=
  let '(x1, y1, x2, y2) := coords in
  let key k := String.eqb handle_key k in
  let x1 := if key "tl" || key "bl" || key "ml" then x1 + dx else x1 in
  let y1 := if key "tl" || key "tr" || key "tm" then y1 + dy else y1 in
  let x2 := if key "tr" || key "br" || key "mr" then x2 + dx else x2 in
  let y2 := if key "bl" || key "br" || key "bm" then y2 + dy else y2 in
  (* Enforce a minimum size. *)
  let min_size := 10 in
  let '(x1, x2) :=
    if x2 - x1 <? min_size then
      if key "tl" || key "ml" || key "bl"
      then (x2 - min_size, x2) else (x1, x1 + min_size)
    else (x1, x2) in
  let '(y1, y2) :=
    if y2 - y1 <? min_size then
      if key "tl" || key "tm" || key "tr"
      then (y2 - min_size, y2) else (y1, y1 + min_size)
    else (y1, y2) in
  (* Clamp the new coordinates to remain within the image area. *)
  match image_area with
  | Some (img_x, img_y, img_w, img_h) =>
      (Z.max x1 img_x, Z.max y1 img_y,
       Z.min x2 (img_x + img_w), Z.min y2 (img_y + img_h))
  | None => (x1, y1, x2, y2)
  end.

Definition on_handle_drag (x y : Z) (s : state) : state * list effect :=
  match dragging_handle s with
  | None => (s, [])
  | Some (handle, last_handle_x, last_handle_y) =>
      let dx := x - last_handle_x in
      let dy := y - last_handle_y in
      let s := set_dragging_handle (Some (handle, x, y)) s in
      match handle_key_of s handle, pending_bbox s with
      | Some handle_key, Some pending =>
          let coords :=
            resized handle_key dx dy (image_area s) (Pending.coords pending) in
          (set_pending_bbox (Some (Pending.set_coords coords pending)) s, [])
      | _, _ => (s, [])
      end
  end.

Definition on_handle_release (s : state) : state * list effect :=
  (set_dragging_handle None s, []).

(** ** Interactions with confirmed boxes *)

Definition add_attribute (s : state) : state * list effect :=
  match attr_listbox s with
  | [] =>
      (s, [showwarning "Import Attribute List"
             "Please import attribute list before adding an attribute."])
  | _ =>
      match selected_bbox s with
      | None =>
          (s, [showwarning "Add Attribute"
                 "Please select a bounding box first."])
      | Some _ =>
          let s := set_labeled_listbox_state false s in
          (set_attribute_add_mode true s,
           [showinfo "Add Attribute"
              "Please double-click an attribute in the attribute list (Component 5) to add."])
      end
  end.

Definition leave_attribute_mode (s : state) : state :=
  set_labeled_listbox_state true (set_attribute_add_mode false s).

(** [on_attr_double_click]; [result] is the answer to the
    yes / no / cancel dialog, [add_more] the answer to "add another?". *)
Definition on_attr_double_click (selection : option nat)
  (result : option bool) (add_more : bool) (s : state)
  : state * list effect :=
  if negb (attribute_add_mode s) then (s, [])
  else
    match selection ≫= (attr_listbox s !!.) with
    | None => (s, [])
    | Some attribute =>
        match selected_bbox s with
        | None => (s, [raised "TypeError"])
        | Some sel =>
            if bool_decide (attribute ∈ attributes (deref s sel)) then
              (s, [showwarning "Add Attribute"
                     ("The attribute '" +:+ attribute
                      +:+ "' is already assigned to this bbox.")])
            else if bool_decide (10 ≤ length (attributes (deref s sel)))%nat
            then
              (leave_attribute_mode s,
               [showwarning "Add Attribute"
                  "You have already reached the limit of 10 attributes for this bbox."])
            else
              let ask :=
                askyesnocancel "Confirm Attribute"
                  ("Confirm add attribute '" +:+ attribute
                   +:+ "' to the selected bbox?") in
              match result with
              | None => (leave_attribute_mode s, [ask])
              | Some true =>
                  let s :=
                    update sel
                      (set_attributes
                         (attributes (deref s sel) ++ [attribute])) s in
                  let s := update_attribute_view s in
                  let ask_more :=
                    askyesno "Add Attribute"
                      "Do you want to add another attribute?" in
                  if add_more then (s, [ask; ask_more])
                  else (leave_attribute_mode s, [ask; ask_more])
              | Some false =>
                  (s, [ask; showinfo "Add Attribute"
                              "Please choose another attribute."])
              end
        end
    end.

Definition add_relationship (s : state) : state * list effect :=
  match rel_listbox s with
  | [] =>
      (s, [showwarning "Import Relationship List"
             "Please import relationship list before adding a relationship."])
  | _ =>
      match selected_bbox s with
      | None =>
          (s, [showwarning "Add Relationship"
                 "No bounding box is selected as source."])
      | Some sel =>
          let s := set_labeled_listbox_state false s in
          let s := set_relationship_mode true s in
          (set_source_bbox (Some sel) s,
           [showinfo "Add Relationship"
              "Please double-click a relationship in imported relationship list, then click on the target bounding box (different from the source)."])
      end
  end.

Definition on_relationship_selected (selection : option nat) (s : state)
  : state * list effect :=
  if negb (relationship_mode s) then (s, [])
  else
    match selection ≫= (rel_listbox s !!.) with
    | None => (s, [])
    | Some rel =>
        (set_pending_relationship rel s,
         [showinfo "Add Relationship"
            ("Selected relationship: " +:+ rel
             +:+ ". Now click on the target bounding box (different from source).")])
    end.

(** [on_labeled_select]; [selection] is [curselection()] of the labeled
    view. *)
Definition on_labeled_select (selection : option nat) (s : state)
  : state * list effect :=
  if create_bbox_active s || attribute_add_mode s || relationship_mode s
  then (s, [])
  else
    match selection ≫= (labeled_listbox s !!.) with
    | None => (s, [])
    | Some entry =>
        match
          List.find (fun bb => String.eqb (bbox_tag s bb) entry)
            (confirmed_bboxes s)
        with
        | None => (s, [])
        | Some found_bbox =>
            if py_eq s (selected_bbox s) (Some found_bbox) then
              (_deselect_bbox found_bbox s, [])
            else
              let s := match selected_bbox s with
                       | Some sel => _deselect_bbox sel s
                       | None => s
                       end in
              (_select_bbox found_bbox s, [])
        end
    end.

(** [change_label]; [confirm] answers "Are you sure ...?". *)
Definition change_label (confirm : bool) (s : state) : state * list effect :=
  match selected_bbox s with
  | None => (s, [showwarning "Change Label" "No bounding box is selected."])
  | Some sel =>
      if create_bbox_active s || attribute_add_mode s || relationship_mode s
      then
        (s, [showwarning "Change Label"
               "Cannot change label during other operations."])
      else
        let ask :=
          askokcancel "Change Label"
            ("Are you sure you want to change the label of the selected bounding box?"
             +:+ newline
             +:+ "All related relationships will be updated accordingly.") in
        if negb confirm then (s, [ask])
        else
          let s := set_change_label_mode true s in
          let s := set_change_bbox (Some sel) s in
          let s := set_change_old_label (Some (label_str (deref s sel))) s in
          let s := set_labeled_listbox_state false s in
          (s, [ask; showinfo "Change Label"
                      "Please double-click a new label in the imported label list to choose the new label."])
  end.

(** [list.remove(x)] on [confirmed_bboxes]: drops the first element equal
    to [x]; [None] is [ValueError]. *)
Fixpoint remove_bbox_from (s : state) (x : ref) (l : list ref)
  : option (list ref) :=
  match l with
  | [] => None
  | y :: l' =>
      if py_eq s (Some y) (Some x) then Some l'
      else match remove_bbox_from s x l' with
           | Some r => Some (y :: r)
           | None => None
           end
  end.

(** [rel[0] == self.selected_bbox or rel[2] == self.selected_bbox] *)
Definition involves (s : state) (sel : ref) (rel : ref * string * ref)
  : bool :=
  let '(rel0, _, rel2) := rel in
  py_eq s (Some rel0) (Some sel) || py_eq s (Some rel2) (Some sel).

(** [[self.predicates[idx] for idx, rel in enumerate(relationships)]];
    [None] is [IndexError]. *)
Definition new_predicates (predicates : list Z) (n : nat) : option (list Z) :=
  mapM (fun idx => predicates !! idx) (seq 0 n).

(** [remove_bbox]; [confirm] answers "Remove Bounding Box". *)
Definition remove_bbox (confirm : bool) (s : state) : state * list effect :=
  match selected_bbox s with
  | None => (s, [])
  | Some sel =>
      let related_relationships :=
        List.filter (involves s sel) (relationships s) in
      let msg :=
        match related_relationships with
        | _ :: _ =>
            "Removing this bounding box will also remove all related relationships ("
            +:+ pretty (Z.of_nat (length related_relationships))
            +:+ " found) and its attributes. Confirm removal?"
        | [] =>
            "Removing this bounding box will also remove its attributes. Confirm removal?"
        end in
      let ask := askokcancel "Remove Bounding Box" msg in
      if negb confirm then (s, [ask])
      else
        (* Remove relationships involving this bbox. *)
        let s :=
          set_relationships
            (List.filter (fun rel => negb (involves s sel rel))
               (relationships s)) s in
        match
          match predicates s with
          | Some predicates =>
              Some <$> new_predicates predicates (length (relationships s))
          | None => Some None
          end
        with
        | None => (s, [ask; raised "IndexError"])
        | Some predicates' =>
            let s := set_predicates predicates' s in
            (* Delete the rectangle and associated text from the canvas. *)
            let s :=
              set_canvas_text
                (delete (text_id (deref s sel)) (canvas_text s)) s in
            let s := match text_bg_id (deref s sel) with
                     | Some _ => update sel (set_text_bg_id None) s
                     | None => s
                     end in
            match remove_bbox_from s sel (confirmed_bboxes s) with
            | None => (s, [ask; raised "ValueError"])
            | Some confirmed =>
                let s := set_confirmed_bboxes confirmed s in
                let s := set_selected_bbox None s in
                let s := update_labeled_view s in
                let s := update_relationship_view s in
                (update_attribute_view s, [ask])
            end
        end
  end.

(** [remove_attribute]; [selection] is [curselection()] of the attribute
    view. *)
Definition remove_attribute (selection : option nat) (confirm : bool)
  (s : state) : state * list effect :=
  match selection ≫= (attribute_view_listbox s !!.) with
  | None => (s, [])
  | Some attribute =>
      let ask :=
        askokcancel "Remove Attribute"
          ("Are you sure you want to remove attribute '" +:+ attribute
           +:+ "'?") in
      if negb confirm then (s, [ask])
      else
        let s :=
          match selected_bbox s with
          | Some sel =>
              match list_remove attribute (attributes (deref s sel)) with
              | Some attributes' => update sel (set_attributes attributes') s
              | None => s
              end
          | None => s
          end in
        (update_attribute_view s, [ask])
  end.

(** The indices of the relationships shown in the view. *)
Definition displayed_indices (s : state) : list nat :=
  fst <$> List.filter (fun irel => displayed s (snd irel))
            (imap (fun i rel => (i, rel)) (relationships s)).

(** [remove_relationship]; [selection] is [curselection()] of the
    relationship view. *)
Definition remove_relationship (selection : option nat) (confirm : bool)
  (s : state) : state * list effect :=
  match selection with
  | None => (s, [])
  | Some index =>
      let ask :=
        askokcancel "Remove Relationship"
          "Are you sure you want to remove this relationship?" in
      if negb confirm then (s, [ask])
      else
        match displayed_indices s !! index with
        | None => (s, [ask])
        | Some actual_index =>
            let s :=
              set_relationships (delete actual_index (relationships s)) s in
            match predicates s with
            | Some (p :: predicates') =>
                if bool_decide (actual_index < length (p :: predicates'))%nat
                then
                  let s :=
                    set_predicates
                      (Some (delete actual_index (p :: predicates'))) s in
                  (update_relationship_view s, [ask])
                else (s, [ask; raised "IndexError"])
            | _ => (update_relationship_view s, [ask])
            end
        end
  end.

(** ** Import of the three vocabularies *)

(** What an import meets after the file dialog: reading the text file or
    writing the JSON file may raise. *)
Inductive import_outcome :=
| read_raises (e : string)
| write_raises (names : list string) (e : string)
| imported (names : list string).

(** The common shape of [import_label_list], [import_attribute_list] and
    [import_relationship_list]. [json_exists] is
    [os.path.exists(json_file)], [proceed] the answer to "File Exists". *)
Definition import_list (kind title : string)
  (set_listbox : list string -> state -> state)
  (set_mapping : list (string * Z) -> state -> state)
  (file_path : string) (json_exists proceed : bool)
  (outcome : import_outcome) (s : state) : state * list effect :=
  if String.eqb file_path "" then (s, [])
  else
    let ask :=
      if json_exists then
        [askokcancel "File Exists"
           ("A file list of " +:+ kind
            +:+ " is already exists in the output folder. Importing will replace it. Do you want to proceed?")]
      else [] in
    if json_exists && negb proceed then (s, ask)
    else
      match outcome with
      | read_raises e => (s, ask ++ [showerror title e])
      | write_raises names e =>
          (set_mapping (mapping_of names) (set_listbox names s),
           ask ++ [showerror title e])
      | imported names =>
          (set_mapping (mapping_of names) (set_listbox names s), ask)
      end.

Definition import_label_list :=
  import_list "labels" "Import Label List Error"
    set_label_listbox set_labels_mapping.

Definition import_attribute_list :=
  import_list "attributes" "Import Attribute List Error"
    set_attr_listbox set_attributes_mapping.

Definition import_relationship_list :=
  import_list "relationships" "Import Relationship List Error"
    set_rel_listbox set_relationships_mapping.

(** ** Context menus *)

Inductive menu_command :=
| AddAttribute
| AddRelationship
| ChangeLabel (confirm : bool)
| RemoveBbox (confirm : bool).

(** [show_context_menu] and the command picked from the menu it posts. *)
Definition show_context_menu (command : menu_command) (s : state)
  : state * list effect :=
  match selected_bbox s with
  | None => (s, [])
  | Some _ =>
      if attribute_add_mode s || relationship_mode s || change_label_mode s
      then (s, [])
      else
        match command with
        | AddAttribute => add_attribute s
        | AddRelationship => add_relationship s
        | ChangeLabel confirm => change_label confirm s
        | RemoveBbox confirm => remove_bbox confirm s
        end
  end.

Definition show_attribute_context_menu (selection : option nat)
  (confirm : bool) (s : state) : state * list effect :=
  if attribute_add_mode s || relationship_mode s || change_label_mode s
     || create_bbox_active s
  then (s, [])
  else remove_attribute selection confirm s.

Definition show_relationship_context_menu (selection : option nat)
  (confirm : bool) (s : state) : state * list effect :=
  if attribute_add_mode s || relationship_mode s || change_label_mode s
     || create_bbox_active s
  then (s, [])
  else remove_relationship selection confirm s.

(** ** The session as a transition system *)

(** One constructor per binding of [__init__]; the arguments are what the
    handler reads from Tk during the call. *)
Inductive event :=
| CanvasButton1 (x y : Z) (confirm : bool)
| CanvasB1Motion (x y : Z)
| CanvasButtonRelease1 (x y : Z)
| CanvasButton3 (command : menu_command)
| HandleButton1 (handle_id x y : Z)
| HandleB1Motion (x y : Z)
| HandleButtonRelease1
| LabelDoubleButton1 (selection : option nat) (confirm : bool)
| AttrDoubleButton1 (selection : option nat) (result : option bool)
    (add_more : bool)
| RelDoubleButton1 (selection : option nat)
| LabeledListboxSelect (selection : option nat)
| AttributeViewButton3 (selection : option nat) (confirm : bool)
| RelationshipViewButton3 (selection : option nat) (confirm : bool)
| OpenButton (file_path : string) (outcome : open_outcome)
| CreateBboxButton
| ImportLabelButton (file_path : string) (json_exists proceed : bool)
    (outcome : import_outcome)
| ImportAttrButton (file_path : string) (json_exists proceed : bool)
    (outcome : import_outcome)
| ImportRelButton (file_path : string) (json_exists proceed : bool)
    (outcome : import_outcome).

Definition handle (e : event) (s : state) : state * list effect :=
  match e with
  | CanvasButton1 x y confirm => on_canvas_click x y confirm s
  | CanvasB1Motion x y => on_mouse_drag x y s
  | CanvasButtonRelease1 x y => on_mouse_up x y s
  | CanvasButton3 command => show_context_menu command s
  | HandleButton1 handle_id x y => on_handle_press handle_id x y s
  | HandleB1Motion x y => on_handle_drag x y s
  | HandleButtonRelease1 => on_handle_release s
  | LabelDoubleButton1 selection confirm =>
      on_label_select selection confirm s
  | AttrDoubleButton1 selection result add_more =>
      on_attr_double_click selection result add_more s
  | RelDoubleButton1 selection => on_relationship_selected selection s
  | LabeledListboxSelect selection => on_labeled_select selection s
  | AttributeViewButton3 selection confirm =>
      show_attribute_context_menu selection confirm s
  | RelationshipViewButton3 selection confirm =>
      show_relationship_context_menu selection confirm s
  | OpenButton file_path outcome => open_image file_path outcome s
  | CreateBboxButton => toggle_create_bbox s
  | ImportLabelButton file_path json_exists proceed outcome =>
      import_label_list file_path json_exists proceed outcome s
  | ImportAttrButton file_path json_exists proceed outcome =>
      import_attribute_list file_path json_exists proceed outcome s
  | ImportRelButton file_path json_exists proceed outcome =>
      import_relationship_list file_path json_exists proceed outcome s
  end.

Definition step (s : state) (e : event) : state := fst (handle e s).

(** The state after a sequence of events, and everything shown on the
    way. *)
Definition run (s : state) (events : list event) : state :=
  fold_left step events s.

Fixpoint shown (s : state) (events : list event) : list effect :=
  match events with
  | [] => []
  | e :: events' => snd (handle e s) ++ shown (step s e) events'
  end.

(** [__init__] followed by [_auto_load_imported_files]: each argument is
    the dict read from the JSON file of an earlier import, empty when the
    file does not exist. *)
Definition names_by_id (m : list (string * Z)) : list string :=
  fst <$> sorted (fun a b => snd a <? snd b) m.

Definition init (labels attrs rels : list (string * Z)) : state :=
  {| heap := [];
     canvas_next := 1;
     canvas_text := ∅;
     loaded_image := None;
     image_area := None;
     image_path := None;
     create_bbox_active := false;
     handling_new_bbox := false;
     start_x := None;
     start_y := None;
     temp_rect := None;
     pending_bbox := None;
     confirmed_bboxes := [];
     label_counts := ∅;
     selected_bbox := None;
     change_label_mode := false;
     change_bbox := None;
     change_old_label := None;
     attribute_add_mode := false;
     relationship_mode := false;
     source_bbox := None;
     pending_relationship := "";
     relationships := [];
     predicates := None;
     dragging_handle := None;
     labels_mapping := labels;
     attributes_mapping := attrs;
     relationships_mapping := rels;
     label_listbox := names_by_id labels;
     attr_listbox := names_by_id attrs;
     rel_listbox := names_by_id rels;
     labeled_listbox := [];
     labeled_listbox_state := true;
     labeled_listbox_bound := true;
     attribute_view_listbox := [];
     relationship_view_listbox := [] |}.

Inductive reachable : state -> Prop :=
| reachable_init labels attrs rels : reachable (init labels attrs rels)
| reachable_step s e : reachable s -> reachable (step s e).

(** ** Saving

    [save_data] converts the boxes in floating point; those two arrays
    are not modelled. The other arrays it writes are built by the loops
    below. *)

(** [[self.attributes_mapping.get(a, 0) for a in bbox.get('attributes', [])]],
    then [attr_ids.append(0)] while the list is shorter than 10. *)
Definition attr_ids (s : state) (bbox : ref) : list Z :=
  let attr_ids :=
    (λ a, dict_get (attributes_mapping s) a 0) <$> attributes (deref s bbox) in
  attr_ids ++ replicate (10 - length attr_ids) 0.

(** One row for each confirmed box. *)
Definition attributes_list (s : state) : list (list Z) :=
  attr_ids s <$> confirmed_bboxes s.

(** [labels_list.append(bbox['label'])] *)
Definition labels_list (s : state) : list Z :=
  (λ bbox, label (deref s bbox)) <$> confirmed_bboxes s.

(** [list.index(x)]: the position of the first element equal to [x];
    [None] is [ValueError]. *)
Fixpoint list_index (s : state) (x : ref) (l : list ref) : option nat :=
  match l with
  | [] => None
  | y :: l' =>
      if py_eq s (Some y) (Some x) then Some 0%nat
      else S <$> list_index s x l'
  end.

(** A relationship one of whose boxes is not found is skipped. *)
Definition relationships_list (s : state) : list (nat * nat) :=
  omap (λ '(source_bbox, _, target_bbox),
          src_index ← list_index s source_bbox (confirmed_bboxes s);
          tgt_index ← list_index s target_bbox (confirmed_bboxes s);
          Some (src_index, tgt_index))
    (relationships s).

(** [self.predicates] when the attribute exists and is not empty. *)
Definition predicates_array (s : state) : list Z :=
  default [] (predicates s).

(** * The vocabulary of the specification *)

(** ** Invariants of the session *)

(** [relationships] and [predicates] have the same length; a missing
    [predicates] attribute counts as the empty list, as in [save_data]. *)
Definition aligned (s : state) : Prop :=
  length (relationships s) = length (default [] (predicates s)).

(** At most ten attributes, no name twice. *)
Definition attributes_ok (b : bbox) : Prop :=
  NoDup (attributes b) ∧ (length (attributes b) ≤ 10)%nat.

Definition store_ok (s : state) : Prop := Forall attributes_ok (heap s).

(** In relationship mode the source is the selected box; in create mode
    nothing is selected. *)
Record modes_ok (s : state) : Prop := {
  relationship_source :
    relationship_mode s = true →
    ∃ r, selected_bbox s = Some r ∧ source_bbox s = Some r;
  create_unselected :
    create_bbox_active s = true → selected_bbox s = None
}.

(** The references held by the session point into the store, and in
    change-label mode [change_old_label] is the label of [change_bbox]. *)
Record refs_ok (s : state) : Prop := {
  confirmed_valid :
    Forall (λ r, (r < length (heap s))%nat) (confirmed_bboxes s);
  selected_valid :
    ∀ r, selected_bbox s = Some r → (r < length (heap s))%nat;
  change_valid :
    change_label_mode s = true →
    ∃ r, change_bbox s = Some r ∧ (r < length (heap s))%nat
         ∧ change_old_label s = Some (label_str (deref s r))
}.

Record consistent (s : state) : Prop := {
  consistent_modes : modes_ok s;
  consistent_refs : refs_ok s;
  consistent_aligned : aligned s;
  consistent_store : store_ok s
}.

(** ** What a handler leaves alone *)

(** The fields that selecting and deselecting a box do not write. *)
Definition selection_free {A} (g : bbox → A) : Prop :=
  ∀ b, (∀ v, g (set_selected v b) = g b) ∧ (∀ v, g (set_text_bg_id v b) = g b).

(** A handler call that touches neither the boxes, the graph, the counters,
    the selection nor the modes the invariants speak of. *)
Record quiet (s s' : state) : Prop := {
  quiet_heap : heap s' = heap s;
  quiet_confirmed_bboxes : confirmed_bboxes s' = confirmed_bboxes s;
  quiet_label_counts : label_counts s' = label_counts s;
  quiet_selected_bbox : selected_bbox s' = selected_bbox s;
  quiet_create_bbox_active : create_bbox_active s' = create_bbox_active s;
  quiet_change_label_mode : change_label_mode s' = change_label_mode s;
  quiet_change_bbox : change_bbox s' = change_bbox s;
  quiet_change_old_label : change_old_label s' = change_old_label s;
  quiet_relationship_mode : relationship_mode s' = relationship_mode s;
  quiet_source_bbox : source_bbox s' = source_bbox s;
  quiet_relationships : relationships s' = relationships s;
  quiet_predicates : predicates s' = predicates s
}.

(** The events whose handler is quiet in every state. *)
Definition is_quiet (e : event) : bool :=
  match e with
  | CanvasB1Motion _ _ | CanvasButtonRelease1 _ _ | HandleButton1 _ _ _
  | HandleB1Motion _ _ | HandleButtonRelease1 | RelDoubleButton1 _
  | ImportLabelButton _ _ _ _ | ImportAttrButton _ _ _ _
  | ImportRelButton _ _ _ _ => true
  | _ => false
  end.

(** What a handler may do to the graph and keep it aligned. *)
Inductive graph_step (s s' : state) : Prop :=
| graph_same :
    relationships s' = relationships s → predicates s' = predicates s →
    graph_step s s'
| graph_same_length :
    length (relationships s') = length (relationships s) →
    predicates s' = predicates s → graph_step s s'
| graph_append rel predicate :
    relationships s' = relationships s ++ [rel] →
    predicates s' = Some (default [] (predicates s) ++ [predicate]) →
    graph_step s s'
| graph_cleared :
    relationships s' = [] → default [] (predicates s') = [] →
    graph_step s s'.

(** A handler call that neither allocates nor relabels a box. *)
Record mild (s s' : state) : Prop := {
  mild_length : length (heap s') = length (heap s);
  mild_label_str : ∀ r, label_str (deref s' r) = label_str (deref s r);
  mild_confirmed : confirmed_bboxes s' ⊆ confirmed_bboxes s;
  mild_selected :
    ∀ r, selected_bbox s' = Some r →
         selected_bbox s = Some r ∨ r ∈ confirmed_bboxes s;
  mild_change :
    change_label_mode s' = true →
    change_label_mode s = true ∧ change_bbox s' = change_bbox s
    ∧ change_old_label s' = change_old_label s
}.

(** ** The hit test *)

Definition contains (s : state) (x y : Z) (bb : ref) : Prop :=
  inside (coords (deref s bb)) x y = true.

Definition box_area (s : state) (bb : ref) : Z := area (coords (deref s bb)).

(** The invariant of the loop: [acc] is the pair of the loop variables
    after the boxes [seen]. *)
Definition smallest_so_far (s : state) (x y : Z) (seen : list ref)
  (acc : option ref * option Z) : Prop :=
  match acc with
  | (None, None) => ∀ bb, bb ∈ seen → ¬ contains s x y bb
  | (Some best, Some smallest) =>
      best ∈ seen ∧ contains s x y best ∧ smallest = box_area s best
      ∧ ∀ bb, bb ∈ seen → contains s x y bb → smallest ≤ box_area s bb
  | _ => False
  end.

(** ** Instance ids, as the user sees them given out *)

(** The instance id in a tag written for label [l]. *)
Definition tag_written (l : string) (e : effect) : option Z :=
  match e with
  | canvas_create_text _ label_str id
  | canvas_itemconfig_text _ label_str id =>
      if String.eqb label_str l then Some id else None
  | _ => None
  end.

(** The instance id in the tag of a newly confirmed box of label [l]. *)
Definition tag_created (l : string) (e : effect) : option Z :=
  match e with
  | canvas_create_text _ label_str id =>
      if String.eqb label_str l then Some id else None
  | _ => None
  end.

(** The ids given out under label [l], in order: to new boxes and to
    relabelled ones ([assigned_ids]), and to new boxes alone
    ([confirmed_ids]). *)
Definition assigned_ids (l : string) (shown : list effect) : list Z :=
  omap (tag_written l) shown.

Definition confirmed_ids (l : string) (shown : list effect) : list Z :=
  omap (tag_created l) shown.

(** The events that do not open an image: every event but a press of
    "Open" with a file chosen. *)
Definition keeps_image (e : event) : bool :=
  match e with
  | OpenButton file_path _ => String.eqb file_path ""
  | _ => true
  end.

Definition is_label_double_click (e : event) : bool :=
  match e with
  | LabelDoubleButton1 _ _ => true
  | _ => false
  end.

(** ** Sessions used in the examples

    Labels car and truck, relationships on and near, one attribute; the
    image street.png, 2000 x 1000, shown 1200 x 600 in a canvas of
    1200 x 700. *)

Definition vocabulary : state :=
  init [("car", 1); ("truck", 2)] [("red", 1)] [("on", 1); ("near", 2)].

Definition street : state :=
  run vocabulary
    [OpenButton "street.png" (opened (2000, 1000) 1200 700 1200 600)].

(** Drag a box from one corner to the other and give it the label at
    position [label] of the label list. *)
Definition draw (x1 y1 x2 y2 : Z) (label : nat) : list event :=
  [CanvasButton1 x1 y1 false; CanvasButtonRelease1 x2 y2;
   LabelDoubleButton1 (Some label) true].

(** car:1 at (100,100)-(200,200), truck:1 at (300,300)-(400,400), car:2
    at (500,500)-(600,600) and truck:2 at (700,500)-(800,600). *)
Definition four_boxes : list event :=
  [CreateBboxButton]
  ++ draw 100 100 200 200 0 ++ draw 300 300 400 400 1
  ++ draw 500 500 600 600 0 ++ draw 700 500 800 600 1
  ++ [CreateBboxButton].

(** car:1 --- on --- truck:1, then car:2 --- near --- truck:2; car:1 is
    selected at the end. *)
Definition two_edges : list event :=
  four_boxes
  ++ [CanvasButton1 150 150 false; CanvasButton3 AddRelationship;
      RelDoubleButton1 (Some 0%nat); CanvasButton1 350 350 true;
      CanvasButton1 150 150 false;
      CanvasButton1 550 550 false; CanvasButton3 AddRelationship;
      RelDoubleButton1 (Some 1%nat); CanvasButton1 750 550 true;
      CanvasButton1 550 550 false; CanvasButton1 150 150 false].

(** car:1 is selected as the source and "on" is chosen. *)
Definition awaiting_target : list event :=
  four_boxes
  ++ [CanvasButton1 150 150 false; CanvasButton3 AddRelationship;
      RelDoubleButton1 (Some 0%nat)].

(** car:1 is selected and gets the attribute red. *)
Definition red_car : list event :=
  four_boxes
  ++ [CanvasButton1 150 150 false; CanvasButton3 AddAttribute;
      AttrDoubleButton1 (Some 0%nat) (Some true) false].

(** One car, one truck, the truck relabelled car, then a second car
    drawn. *)
Definition relabel_between : list event :=
  [CreateBboxButton]
  ++ draw 100 100 200 200 0 ++ draw 300 300 400 400 1
  ++ [CreateBboxButton; CanvasButton1 350 350 false;
      CanvasButton3 (ChangeLabel true); LabelDoubleButton1 (Some 0%nat) true;
      CanvasButton1 350 350 false; CreateBboxButton]
  ++ draw 500 500 600 600 0.

(** Two cars, an edge car:1 --- on --- car:2, and car:1 about to be
    relabelled. *)
Definition changing_car : list event :=
  [CreateBboxButton]
  ++ draw 100 100 200 200 0 ++ draw 300 300 400 400 0
  ++ [CreateBboxButton; CanvasButton1 150 150 false;
      CanvasButton3 AddRelationship; RelDoubleButton1 (Some 0%nat);
      CanvasButton1 350 350 true; CanvasButton3 (ChangeLabel true)].

(** * What the handlers do, case by case *)

(** What [on_canvas_click] does to the selection before it looks at the
    relationship mode. *)
Inductive toggled (x y : Z) (s : state) : state → Prop :=
| toggled_nothing : toggled x y s s
| toggled_select clicked :
    selected_bbox s = None →
    _get_confirmed_bbox_at s x y = Some clicked →
    toggled x y s (_select_bbox clicked s)
| toggled_deselect clicked :
    selected_bbox s = Some clicked →
    attribute_add_mode s || relationship_mode s || change_label_mode s
    = false →
    toggled x y s (_deselect_bbox clicked s).

(** The states [on_canvas_click] can end in. *)
Inductive click_outcome (x y : Z) (s : state) : state → Prop :=
| click_nothing : click_outcome x y s s
| click_draw :
    create_bbox_active s = true → handling_new_bbox s = false →
    _inside_image_area s x y = true →
    click_outcome x y s
      (set_handling_new_bbox true
         (set_temp_rect (Some (canvas_next s))
            (set_canvas_next (canvas_next s + 1)
               (set_start_y (Some y) (set_start_x (Some x) s)))))
| click_toggle s1 :
    create_bbox_active s = false → toggled x y s s1 →
    click_outcome x y s s1
| click_abort s1 :
    create_bbox_active s = false → toggled x y s s1 →
    relationship_mode s1 = true →
    click_outcome x y s (leave_relationship_mode s1)
| click_edge s1 source target :
    create_bbox_active s = false → toggled x y s s1 →
    relationship_mode s1 = true →
    source_bbox s1 = Some source →
    _get_confirmed_second_bbox_relationship s1 x y = Some target →
    py_eq s1 (Some target) (Some source) = false →
    existsb (is_duplicate s1 target) (relationships s1) = false →
    click_outcome x y s
      (leave_relationship_mode
         (update_relationship_view
            (set_predicates
               (Some (default [] (predicates s1)
                      ++ [dict_get (relationships_mapping s1)
                            (pending_relationship s1) 0]))
               (set_relationships
                  (relationships s1
                   ++ [(source, pending_relationship s1, target)]) s1)))).

(** The states [on_labeled_select] can end in. *)
Inductive labeled_outcome (s : state) : state → Prop :=
| labeled_nothing : labeled_outcome s s
| labeled_deselect found :
    create_bbox_active s || attribute_add_mode s || relationship_mode s
    = false →
    found ∈ confirmed_bboxes s →
    py_eq s (selected_bbox s) (Some found) = true →
    labeled_outcome s (_deselect_bbox found s)
| labeled_select found :
    create_bbox_active s || attribute_add_mode s || relationship_mode s
    = false →
    found ∈ confirmed_bboxes s →
    py_eq s (selected_bbox s) (Some found) = false →
    labeled_outcome s
      (_select_bbox found
         match selected_bbox s with
         | Some sel => _deselect_bbox sel s
         | None => s
         end).

(** The relabelling branch of [on_label_select], once the user has
    confirmed. *)
Definition relabelled (label : string) (change : ref) (s : state) : state :=
  let new_instance_id := count s label + 1 in
  let s :=
    set_label_counts (<[label := new_instance_id]> (label_counts s)) s in
  let s := update change (set_label (dict_get (labels_mapping s) label 0)) s in
  let s := update change (set_id new_instance_id) s in
  let s := update change (set_label_str label) s in
  let text_id := text_id (deref s change) in
  let s :=
    match canvas_text s !! text_id with
    | Some _ =>
        set_canvas_text
          (<[text_id := tag label new_instance_id]> (canvas_text s)) s
    | None => s
    end in
  let s := set_relationships (map (rebind s change) (relationships s)) s in
  let s := update_relationship_view s in
  let s := set_change_label_mode false s in
  let s := set_change_bbox None s in
  let s := set_change_old_label None s in
  let s := set_labeled_listbox_state true s in
  update_labeled_view s.

(** The dict [confirm_label_assignment] builds. *)
Definition confirmed_dict (label : string) (pending : Pending.t) (s : state)
  : bbox :=
  Build_bbox (Pending.rect_id pending) (Pending.coords pending)
    (dict_get (labels_mapping s) label 0) (count s label + 1) label
    (canvas_next s) false [] None.

(** The states [on_label_select] can end in. *)
Inductive label_outcome (s : state) : state → Prop :=
| label_nothing : label_outcome s s
| label_confirmed label pending :
    change_label_mode s = false → pending_bbox s = Some pending →
    label ∈ label_listbox s →
    label_outcome s (fst (confirm_label_assignment label true pending s))
| label_changed label change :
    change_label_mode s = true → change_bbox s = Some change →
    change_old_label s ≠ Some label → label ∈ label_listbox s →
    label_outcome s (relabelled label change s)
| label_failed label :
    change_label_mode s = true → change_bbox s = None →
    label_outcome s
      (set_label_counts (<[label := count s label + 1]> (label_counts s)) s).

(** The session after [remove_bbox] has dropped the relationships of the
    box, the predicates and the canvas items, before it takes the box out
    of [confirmed_bboxes]. *)
Definition unlinked (sel : ref) (s : state) : state :=
  let s :=
    set_relationships
      (List.filter (fun rel => negb (involves s sel rel)) (relationships s))
      s in
  let s :=
    set_predicates (take (length (relationships s)) <$> predicates s) s in
  let s :=
    set_canvas_text (delete (text_id (deref s sel)) (canvas_text s)) s in
  match text_bg_id (deref s sel) with
  | Some _ => update sel (set_text_bg_id None) s
  | None => s
  end.

(** The session after a confirmed [remove_bbox] that leaves [confirmed]
    in [confirmed_bboxes]. *)
Definition removed (sel : ref) (confirmed : list ref) (s : state) : state :=
  let s := set_confirmed_bboxes confirmed (unlinked sel s) in
  let s := set_selected_bbox None s in
  let s := update_labeled_view s in
  let s := update_relationship_view s in
  update_attribute_view s.

(** The events that can make a pending box, start a temporary rectangle or
    resize the pending box. *)
Definition is_mouse_up (e : event) : bool :=
  match e with CanvasButtonRelease1 _ _ => true | _ => false end.

Definition is_canvas_click (e : event) : bool :=
  match e with CanvasButton1 _ _ _ => true | _ => false end.

Definition is_handle_drag (e : event) : bool :=
  match e with HandleB1Motion _ _ => true | _ => false end.

(** * What every reachable session satisfies *)

(** The fields of a box that only labelling and relabelling write. *)
Definition core (b : bbox) : Z * (Z * Z * Z * Z) * Z * Z * string * Z :=
  (rect_id b, coords b, label b, id b, label_str b, text_id b).

(** The rectangle of every box dict, of the pending box and of the box
    being drawn was created by the canvas, and no two of them share
    one. *)
Record rects_ok (s : state) : Prop := {
  rects_below :
    ∀ r, (r < length (heap s))%nat → rect_id (deref s r) < canvas_next s;
  rects_distinct :
    ∀ a b, (a < length (heap s))%nat → (b < length (heap s))%nat →
           rect_id (deref s a) = rect_id (deref s b) → a = b;
  pending_below :
    ∀ p, pending_bbox s = Some p → Pending.rect_id p < canvas_next s;
  pending_fresh :
    ∀ p r, pending_bbox s = Some p → (r < length (heap s))%nat →
           rect_id (deref s r) ≠ Pending.rect_id p;
  temp_below : ∀ t, temp_rect s = Some t → t < canvas_next s;
  temp_fresh :
    ∀ t r, temp_rect s = Some t → (r < length (heap s))%nat →
           rect_id (deref s r) ≠ t;
  temp_pending :
    ∀ t p, temp_rect s = Some t → pending_bbox s = Some p →
           Pending.rect_id p ≠ t
}.

(** No box is confirmed twice; the selected box and the box being
    relabelled are confirmed; the selected box is the one confirmed box
    marked [selected]; a relationship joins two different confirmed boxes
    and is stored once. *)
Record selection_ok (s : state) : Prop := {
  confirmed_nodup : NoDup (confirmed_bboxes s);
  selected_confirmed :
    ∀ r, selected_bbox s = Some r → r ∈ confirmed_bboxes s;
  change_confirmed :
    change_label_mode s = true →
    ∀ r, change_bbox s = Some r → r ∈ confirmed_bboxes s;
  selected_marked :
    ∀ r, r ∈ confirmed_bboxes s →
         selected (deref s r) = true ↔ selected_bbox s = Some r;
  edges_confirmed :
    ∀ a l b, (a, l, b) ∈ relationships s →
             a ∈ confirmed_bboxes s ∧ b ∈ confirmed_bboxes s ∧ a ≠ b;
  edges_nodup : NoDup (relationships s)
}.

(** The id of a confirmed box lies between 1 and the counter of its
    label, and no two confirmed boxes have the same label and id. *)
Record tags_ok (s : state) : Prop := {
  counts_nonneg : ∀ l, 0 ≤ count s l;
  tags_counted :
    ∀ r, r ∈ confirmed_bboxes s →
         1 ≤ id (deref s r) ≤ count s (label_str (deref s r));
  tags_distinct :
    ∀ a b, a ∈ confirmed_bboxes s → b ∈ confirmed_bboxes s →
           label_str (deref s a) = label_str (deref s b) →
           id (deref s a) = id (deref s b) → a = b
}.

(** The character that separates the label from the id in a tag. *)
Definition colon : Ascii.ascii := Eval cbv in Ascii.ascii_of_nat 58.

Fixpoint colon_free (s : string) : Prop :=
  match s with
  | EmptyString => True
  | String c s' => c ≠ colon ∧ colon_free s'
  end.

(** The invariants on the store, the selection and the tags together. *)
Record sound (s : state) : Prop := {
  sound_consistent : consistent s;
  sound_rects : rects_ok s;
  sound_selection : selection_ok s;
  sound_tags : tags_ok s
}.

(** At most one of the three modes that the context menu starts is on;
    while an attribute or a relationship is being added a box is
    selected; while any of the three is on the labeled list is
    disabled. *)
Record gestures_ok (s : state) : Prop := {
  attribute_or_relationship :
    attribute_add_mode s && relationship_mode s = false;
  attribute_or_change :
    attribute_add_mode s && change_label_mode s = false;
  relationship_or_change :
    relationship_mode s && change_label_mode s = false;
  gesture_selected :
    attribute_add_mode s || relationship_mode s = true →
    is_Some (selected_bbox s);
  gesture_disabled :
    attribute_add_mode s || relationship_mode s || change_label_mode s
    = true →
    labeled_listbox_state s = false
}.

(** What a view holds is what its update function would put there. *)
Definition labeled_shown (s : state) : Prop :=
  labeled_listbox s = labeled_listbox (update_labeled_view s).

Definition attributes_shown (s : state) : Prop :=
  attribute_view_listbox s
  = attribute_view_listbox (update_attribute_view s).

Definition relationships_shown (s : state) : Prop :=
  relationship_view_listbox s
  = relationship_view_listbox (update_relationship_view s).

Record views_ok (s : state) : Prop := {
  labeled_view_ok : labeled_shown s;
  attribute_view_ok : attributes_shown s;
  relationship_view_ok : relationships_shown s
}.

(** [coords] lies in the image area [(x, y, w, h)] and is at least 10
    wide and 10 high. *)
Definition within (area coords : Z * Z * Z * Z) : Prop :=
  let '(area_x, area_y, area_w, area_h) := area in
  let '(x1, y1, x2, y2) := coords in
  area_x ≤ x1 ∧ x1 + 10 ≤ x2 ∧ x2 ≤ area_x + area_w
  ∧ area_y ≤ y1 ∧ y1 + 10 ≤ y2 ∧ y2 ≤ area_y + area_h.

(** Confirmed boxes and the pending box lie in the image; while a box is
    being drawn its start point is known and lies in the image. *)
Record geometry_ok (s : state) : Prop := {
  confirmed_within :
    ∀ r, r ∈ confirmed_bboxes s →
         ∃ area, image_area s = Some area ∧ within area (coords (deref s r));
  pending_within :
    ∀ p, pending_bbox s = Some p →
         ∃ area, image_area s = Some area ∧ within area (Pending.coords p);
  start_within :
    ∀ t, temp_rect s = Some t →
         ∃ x y, start_x s = Some x ∧ start_y s = Some y
                ∧ _inside_image_area s x y = true
}.

(** The pending box carries the eight handles [create_handles] made for
    it, which are canvas items with consecutive ids. *)
Definition handles_ok (s : state) : Prop :=
  ∀ pending, pending_bbox s = Some pending →
    ∃ n, Pending.handles pending
         = Some [("tl", n); ("tr", n + 1); ("bl", n + 2); ("br", n + 3);
                 ("tm", n + 4); ("bm", n + 5); ("ml", n + 6); ("mr", n + 7)].

(** Everything above together. *)
Record settled (s : state) : Prop := {
  settled_sound : sound s;
  settled_gestures : gestures_ok s;
  settled_views : views_ok s;
  settled_geometry : geometry_ok s
}.

(** * Proofs *)

(** * Reading a field after a sequence of assignments *)

Ltac proj_simpl :=
  cbn [fst snd
       heap canvas_next canvas_text loaded_image image_area image_path
       create_bbox_active handling_new_bbox start_x start_y temp_rect
       pending_bbox confirmed_bboxes label_counts selected_bbox
       change_label_mode change_bbox change_old_label attribute_add_mode
       relationship_mode source_bbox pending_relationship relationships
       predicates dragging_handle labels_mapping attributes_mapping
       relationships_mapping label_listbox attr_listbox rel_listbox
       labeled_listbox labeled_listbox_state labeled_listbox_bound
       attribute_view_listbox relationship_view_listbox
       set_heap set_canvas_next set_canvas_text set_loaded_image
       set_image_area set_image_path set_create_bbox_active
       set_handling_new_bbox set_start_x set_start_y set_temp_rect
       set_pending_bbox set_confirmed_bboxes set_label_counts
       set_selected_bbox set_change_label_mode set_change_bbox
       set_change_old_label set_attribute_add_mode set_relationship_mode
       set_source_bbox set_pending_relationship set_relationships
       set_predicates set_dragging_handle set_labels_mapping
       set_attributes_mapping set_relationships_mapping set_label_listbox
       set_attr_listbox set_rel_listbox set_labeled_listbox
       set_labeled_listbox_state set_labeled_listbox_bound
       set_attribute_view_listbox set_relationship_view_listbox
       update alloc canvas_create update_labeled_view update_attribute_view
       update_relationship_view leave_relationship_mode leave_attribute_mode
       create_handles].

Create Rewrite HintDb frame.

Ltac frame_select :=
  intros; unfold _select_bbox, _deselect_bbox;
  repeat (case_match; proj_simpl); reflexivity.

Lemma deselect_relationships bbox s :
  relationships (_deselect_bbox bbox s) = relationships s.
Proof. frame_select. Qed.
Lemma deselect_predicates bbox s :
  predicates (_deselect_bbox bbox s) = predicates s.
Proof. frame_select. Qed.
Lemma deselect_relationship_mode bbox s :
  relationship_mode (_deselect_bbox bbox s) = relationship_mode s.
Proof. frame_select. Qed.
Lemma deselect_source_bbox bbox s :
  source_bbox (_deselect_bbox bbox s) = source_bbox s.
Proof. frame_select. Qed.
Lemma deselect_pending_relationship bbox s :
  pending_relationship (_deselect_bbox bbox s) = pending_relationship s.
Proof. frame_select. Qed.
Lemma deselect_create_bbox_active bbox s :
  create_bbox_active (_deselect_bbox bbox s) = create_bbox_active s.
Proof. frame_select. Qed.
Lemma deselect_attribute_add_mode bbox s :
  attribute_add_mode (_deselect_bbox bbox s) = attribute_add_mode s.
Proof. frame_select. Qed.
Lemma deselect_change_label_mode bbox s :
  change_label_mode (_deselect_bbox bbox s) = change_label_mode s.
Proof. frame_select. Qed.
Lemma deselect_change_bbox bbox s :
  change_bbox (_deselect_bbox bbox s) = change_bbox s.
Proof. frame_select. Qed.
Lemma deselect_change_old_label bbox s :
  change_old_label (_deselect_bbox bbox s) = change_old_label s.
Proof. frame_select. Qed.
Lemma deselect_label_counts bbox s :
  label_counts (_deselect_bbox bbox s) = label_counts s.
Proof. frame_select. Qed.
Lemma deselect_confirmed_bboxes bbox s :
  confirmed_bboxes (_deselect_bbox bbox s) = confirmed_bboxes s.
Proof. frame_select. Qed.
Lemma deselect_relationships_mapping bbox s :
  relationships_mapping (_deselect_bbox bbox s) = relationships_mapping s.
Proof. frame_select. Qed.

#[local] Hint Rewrite deselect_relationships deselect_predicates
  deselect_relationship_mode deselect_source_bbox
  deselect_pending_relationship deselect_create_bbox_active
  deselect_attribute_add_mode deselect_change_label_mode deselect_change_bbox
  deselect_change_old_label deselect_label_counts deselect_confirmed_bboxes
  deselect_relationships_mapping : frame.

Ltac frame_select' :=
  intros; unfold _select_bbox;
  repeat (case_match; proj_simpl; autorewrite with frame); reflexivity.

Lemma select_relationships bbox s :
  relationships (_select_bbox bbox s) = relationships s.
Proof. frame_select'. Qed.
Lemma select_predicates bbox s : predicates (_select_bbox bbox s) = predicates s.
Proof. frame_select'. Qed.
Lemma select_relationship_mode bbox s :
  relationship_mode (_select_bbox bbox s) = relationship_mode s.
Proof. frame_select'. Qed.
Lemma select_source_bbox bbox s :
  source_bbox (_select_bbox bbox s) = source_bbox s.
Proof. frame_select'. Qed.
Lemma select_pending_relationship bbox s :
  pending_relationship (_select_bbox bbox s) = pending_relationship s.
Proof. frame_select'. Qed.
Lemma select_create_bbox_active bbox s :
  create_bbox_active (_select_bbox bbox s) = create_bbox_active s.
Proof. frame_select'. Qed.
Lemma select_attribute_add_mode bbox s :
  attribute_add_mode (_select_bbox bbox s) = attribute_add_mode s.
Proof. frame_select'. Qed.
Lemma select_change_label_mode bbox s :
  change_label_mode (_select_bbox bbox s) = change_label_mode s.
Proof. frame_select'. Qed.
Lemma select_change_bbox bbox s :
  change_bbox (_select_bbox bbox s) = change_bbox s.
Proof. frame_select'. Qed.
Lemma select_change_old_label bbox s :
  change_old_label (_select_bbox bbox s) = change_old_label s.
Proof. frame_select'. Qed.
Lemma select_label_counts bbox s :
  label_counts (_select_bbox bbox s) = label_counts s.
Proof. frame_select'. Qed.
Lemma select_confirmed_bboxes bbox s :
  confirmed_bboxes (_select_bbox bbox s) = confirmed_bboxes s.
Proof. frame_select'. Qed.
Lemma select_relationships_mapping bbox s :
  relationships_mapping (_select_bbox bbox s) = relationships_mapping s.
Proof. frame_select'. Qed.

#[local] Hint Rewrite select_relationships select_predicates
  select_relationship_mode select_source_bbox
  select_pending_relationship select_create_bbox_active
  select_attribute_add_mode select_change_label_mode select_change_bbox
  select_change_old_label select_label_counts select_confirmed_bboxes
  select_relationships_mapping : frame.

(** * Equality of boxes *)

Lemma py_eq_refl s a : py_eq s a a = true.
Proof. destruct a; simpl; [by apply bool_decide_eq_true|done]. Qed.

Lemma py_eq_sym s a b : py_eq s a b = py_eq s b a.
Proof.
  destruct a, b; simpl; try done. apply bool_decide_ext. naive_solver.
Qed.

Lemma deselect_selected_cases bbox s :
  selected_bbox (_deselect_bbox bbox s) = None
  ∨ selected_bbox (_deselect_bbox bbox s) = selected_bbox s.
Proof.
  unfold _deselect_bbox. repeat (case_match; proj_simpl); auto.
Qed.

Lemma select_selected bbox s :
  create_bbox_active s || attribute_add_mode s || relationship_mode s = false →
  selected_bbox (_select_bbox bbox s) = Some bbox.
Proof.
  intros H. unfold _select_bbox. rewrite H.
  repeat (case_match; proj_simpl); reflexivity.
Qed.

Lemma select_blocked bbox s :
  create_bbox_active s || attribute_add_mode s || relationship_mode s = true →
  _select_bbox bbox s = s.
Proof. intros H. unfold _select_bbox. by rewrite H. Qed.

(** * The object store *)

Lemma length_heap_update r f s :
  length (heap (update r f s)) = length (heap s).
Proof. unfold update. proj_simpl. apply length_insert. Qed.

Lemma deref_update_eq r f s :
  (r < length (heap s))%nat → deref (update r f s) r = f (deref s r).
Proof.
  intros Hr. unfold deref, update. proj_simpl.
  by apply list_lookup_total_insert_eq.
Qed.

Lemma deref_update_ne r r' f s : r ≠ r' → deref (update r f s) r' = deref s r'.
Proof.
  intros Hr. unfold deref, update. proj_simpl.
  by apply list_lookup_total_insert_ne.
Qed.

(** A write that leaves the field [g] alone is not seen through [g],
    whichever reference is read. *)
Lemma field_update {A} (g : bbox → A) r f s r' :
  (∀ b, g (f b) = g b) → g (deref (update r f s) r') = g (deref s r').
Proof.
  intros Hg. destruct (decide (r = r')) as [<-|Hne].
  - destruct (decide (r < length (heap s))%nat) as [Hlt|Hge].
    + by rewrite deref_update_eq.
    + unfold deref, update. proj_simpl. rewrite list_insert_ge; [done|lia].
  - by rewrite deref_update_ne.
Qed.

Lemma deselect_length bbox s :
  length (heap (_deselect_bbox bbox s)) = length (heap s).
Proof.
  unfold _deselect_bbox.
  repeat (case_match; proj_simpl); by rewrite ?length_insert.
Qed.

Lemma select_length bbox s :
  length (heap (_select_bbox bbox s)) = length (heap s).
Proof.
  unfold _select_bbox.
  repeat (case_match; proj_simpl); by rewrite ?length_insert, ?deselect_length.
Qed.

Lemma deselect_field {A} (g : bbox → A) bbox s r :
  selection_free g →
  g (deref (_deselect_bbox bbox s) r) = g (deref s r).
Proof.
  intros Hg. unfold _deselect_bbox.
  set (s1 := update bbox (set_selected false) s).
  assert (g (deref s1 r) = g (deref s r)) as <-
    by (apply field_update; intros; apply Hg).
  set (s2 := match text_bg_id (deref s1 bbox) with
             | Some _ => _ | None => s1 end).
  assert (g (deref s2 r) = g (deref s1 r)) as <-.
  { subst s2. case_match; [|done]. apply field_update; intros; apply Hg. }
  by case_match.
Qed.

Lemma select_field {A} (g : bbox → A) bbox s r :
  selection_free g →
  g (deref (_select_bbox bbox s) r) = g (deref s r).
Proof.
  intros Hg. unfold _select_bbox. case_match; [done|].
  set (s1 := match selected_bbox s with Some _ => _ | None => s end).
  assert (g (deref s1 r) = g (deref s r)) as <-.
  { subst s1. repeat case_match; try done. by apply deselect_field. }
  set (s2 := set_selected_bbox _ (update bbox (set_selected true) s1)).
  assert (g (deref s2 r) = g (deref s1 r)) as <-
    by (apply (field_update g); intros; apply Hg).
  case_match; [|done]. cbn [canvas_create].
  change (g (deref (update bbox (set_text_bg_id (Some (canvas_next s2)))
                      (set_canvas_next (canvas_next s2 + 1) s2)) r)
          = g (deref (set_canvas_next (canvas_next s2 + 1) s2) r)).
  apply field_update; intros; apply Hg.
Qed.

Lemma selection_free_attributes : selection_free attributes.
Proof. by intros b. Qed.
Lemma selection_free_label_str : selection_free label_str.
Proof. by intros b. Qed.
Lemma selection_free_id : selection_free id.
Proof. by intros b. Qed.
Lemma selection_free_coords : selection_free coords.
Proof. by intros b. Qed.

Lemma deselect_self bbox s :
  selected_bbox s = Some bbox → selected_bbox (_deselect_bbox bbox s) = None.
Proof.
  intros Hsel. unfold _deselect_bbox.
  set (s2 := match text_bg_id _ with Some _ => _ | None => _ end).
  assert (selected_bbox s2 = Some bbox) as ->
    by (subst s2; by case_match).
  by rewrite py_eq_refl.
Qed.

(** * Handlers that leave the annotation alone *)

Ltac quiet_cases := repeat (case_match; proj_simpl); by split.

Lemma quiet_refl s : quiet s s.
Proof. by split. Qed.

Lemma on_mouse_up_quiet x y s : quiet s (fst (on_mouse_up x y s)).
Proof. unfold on_mouse_up. quiet_cases. Qed.

Lemma on_handle_drag_quiet x y s : quiet s (fst (on_handle_drag x y s)).
Proof. unfold on_handle_drag. quiet_cases. Qed.

Lemma on_relationship_selected_quiet selection s :
  quiet s (fst (on_relationship_selected selection s)).
Proof. unfold on_relationship_selected. quiet_cases. Qed.

Lemma import_list_quiet kind title set_listbox set_mapping
    file_path json_exists proceed outcome s :
  (∀ v s, quiet s (set_listbox v s)) →
  (∀ v s, quiet s (set_mapping v s)) →
  quiet s (fst (import_list kind title set_listbox set_mapping
                  file_path json_exists proceed outcome s)).
Proof.
  intros Hl Hm. unfold import_list.
  repeat (case_match; proj_simpl); try apply quiet_refl.
  all: destruct (Hl names s), (Hm (mapping_of names) (set_listbox names s));
    split; congruence.
Qed.

Lemma is_quiet_step e s : is_quiet e = true → quiet s (step s e).
Proof.
  unfold step. destruct e; try discriminate; intros _; simpl handle.
  - apply quiet_refl.
  - apply on_mouse_up_quiet.
  - by split.
  - apply on_handle_drag_quiet.
  - by split.
  - apply on_relationship_selected_quiet.
  - by apply import_list_quiet.
  - by apply import_list_quiet.
  - by apply import_list_quiet.
Qed.

(** * The two lists of the relationship graph have the same length *)

Lemma graph_step_aligned s s' : graph_step s s' → aligned s → aligned s'.
Proof.
  unfold aligned. intros [Hr Hp|Hr Hp|rel p Hr Hp|Hr Hp] Hs.
  - by rewrite Hr, Hp.
  - by rewrite Hr, Hp.
  - rewrite Hr, Hp. simpl. rewrite !length_app. simpl. lia.
  - by rewrite Hr, Hp.
Qed.

Ltac graph_cases :=
  repeat first
    [ progress proj_simpl
    | progress autorewrite with frame
    | case_match ];
  first [ by apply graph_same; proj_simpl; autorewrite with frame
        | by eapply graph_append; proj_simpl; autorewrite with frame
        | by apply graph_cleared; proj_simpl; autorewrite with frame ].

Lemma on_canvas_click_graph x y confirm s :
  graph_step s (fst (on_canvas_click x y confirm s)).
Proof. unfold on_canvas_click. graph_cases. Qed.

Lemma on_label_select_graph selection confirm s :
  graph_step s (fst (on_label_select selection confirm s)).
Proof.
  unfold on_label_select, confirm_label_assignment.
  repeat first [ progress proj_simpl | case_match ];
    first [ by apply graph_same; proj_simpl
          | apply graph_same_length; proj_simpl; [by rewrite length_map|done] ].
Qed.

Lemma on_attr_double_click_graph selection result add_more s :
  graph_step s (fst (on_attr_double_click selection result add_more s)).
Proof. unfold on_attr_double_click. graph_cases. Qed.

Lemma on_labeled_select_graph selection s :
  graph_step s (fst (on_labeled_select selection s)).
Proof. unfold on_labeled_select. graph_cases. Qed.

Lemma remove_attribute_graph selection confirm s :
  graph_step s (fst (show_attribute_context_menu selection confirm s)).
Proof. unfold show_attribute_context_menu, remove_attribute. graph_cases. Qed.

Lemma open_image_graph file_path outcome s :
  graph_step s (fst (open_image file_path outcome s)).
Proof. unfold open_image. graph_cases. Qed.

Lemma toggle_create_bbox_graph s :
  graph_step s (fst (toggle_create_bbox s)).
Proof. unfold toggle_create_bbox. graph_cases. Qed.

Lemma new_predicates_take predicates n :
  (n ≤ length predicates)%nat →
  new_predicates predicates n = Some (take n predicates).
Proof.
  intros Hn. unfold new_predicates. apply mapM_Some.
  apply Forall2_same_length_lookup_2.
  { rewrite length_seq, length_take. lia. }
  intros i idx p [-> Hi]%lookup_seq Hp.
  rewrite lookup_take_lt in Hp by done. done.
Qed.

Lemma remove_bbox_aligned confirm s :
  aligned s → aligned (fst (remove_bbox confirm s)).
Proof.
  unfold aligned, remove_bbox. intros Hs.
  destruct (selected_bbox s) as [sel|]; [|done].
  destruct confirm; [|done]. cbn [negb].
  proj_simpl.
  destruct (predicates s) as [predicates|] eqn:Hp; simpl in *.
  - rewrite new_predicates_take
      by (rewrite <- Hs; apply List.filter_length_le).
    simpl. repeat first [ progress proj_simpl | case_match ]; simpl.
    all: rewrite ?Hp; simpl; rewrite ?length_take; try lia.
    all: pose proof (List.filter_length_le
                       (λ rel, negb (involves s sel rel)) (relationships s));
      lia.
  - apply nil_length_inv in Hs.
    repeat first [ progress proj_simpl | case_match ]; simpl;
      by rewrite ?Hp, Hs.
Qed.

(** The predicates [remove_bbox] keeps are the leading ones, as many as
    edges remain, wherever the removed edges were. *)
Lemma remove_bbox_keeps_prefix s sel old :
  selected_bbox s = Some sel → predicates s = Some old → aligned s →
  relationships (fst (remove_bbox true s))
  = List.filter (λ rel, negb (involves s sel rel)) (relationships s)
  ∧ predicates (fst (remove_bbox true s))
    = Some (take (length (List.filter (λ rel, negb (involves s sel rel))
                            (relationships s))) old).
Proof.
  unfold aligned, remove_bbox. intros Hsel Hp Hs. rewrite Hsel.
  cbn [negb]. proj_simpl. rewrite Hp in *. simpl in Hs.
  rewrite new_predicates_take
    by (rewrite <- Hs; apply List.filter_length_le).
  simpl. by repeat (case_match; proj_simpl).
Qed.

Lemma displayed_indices_lt s index i :
  displayed_indices s !! index = Some i →
  (i < length (relationships s))%nat.
Proof.
  unfold displayed_indices. intros H%list_elem_of_lookup_2.
  apply list_elem_of_fmap in H as ([i' rel] & -> & H).
  apply list_elem_of_In, filter_In in H as [H _].
  apply list_elem_of_In, list_elem_of_lookup in H as [j H].
  rewrite list_lookup_imap in H.
  destruct (relationships s !! j) eqn:Hj; simplify_eq/=.
  by eapply lookup_lt_Some.
Qed.

Lemma remove_relationship_aligned selection confirm s :
  aligned s → aligned (fst (remove_relationship selection confirm s)).
Proof.
  unfold aligned, remove_relationship. intros Hs.
  destruct selection as [index|]; [|done].
  destruct confirm; [|done]. cbn [negb].
  destruct (displayed_indices s !! index) as [i|] eqn:Hi; [|done].
  apply displayed_indices_lt in Hi.
  proj_simpl.
  destruct (predicates s) as [[|p predicates]|] eqn:Hp; simpl in *; try lia.
  rewrite bool_decide_eq_true_2 by (simpl; lia).
  proj_simpl. simpl.
  rewrite (length_delete (relationships s) i)
    by (apply lookup_lt_is_Some; lia).
  rewrite (length_delete (p :: predicates) i)
    by (apply lookup_lt_is_Some; simpl; lia).
  simpl. lia.
Qed.

Lemma aligned_step s e : aligned s → aligned (step s e).
Proof.
  intros Hs. destruct (is_quiet e) eqn:He.
  { destruct (is_quiet_step e s He). unfold aligned in *. congruence. }
  unfold step. destruct e; try discriminate; simpl handle.
  - eapply graph_step_aligned; [apply on_canvas_click_graph|done].
  - unfold show_context_menu, add_attribute, add_relationship, change_label.
    repeat first [ progress proj_simpl | case_match ]; try done.
    by apply remove_bbox_aligned.
  - eapply graph_step_aligned; [apply on_label_select_graph|done].
  - eapply graph_step_aligned; [apply on_attr_double_click_graph|done].
  - eapply graph_step_aligned; [apply on_labeled_select_graph|done].
  - eapply graph_step_aligned; [apply remove_attribute_graph|done].
  - unfold show_relationship_context_menu. case_match; [done|].
    by apply remove_relationship_aligned.
  - eapply graph_step_aligned; [apply open_image_graph|done].
  - eapply graph_step_aligned; [apply toggle_create_bbox_graph|done].
Qed.

(** * The modes of the session *)

Lemma modes_ok_init labels attrs rels : modes_ok (init labels attrs rels).
Proof. by split. Qed.

(** A handler that keeps the selection and the create mode, and either
    leaves the relationship mode or keeps its source. *)
Lemma modes_ok_kept s s' :
  modes_ok s →
  selected_bbox s' = selected_bbox s →
  create_bbox_active s' = create_bbox_active s →
  (relationship_mode s' = true →
   relationship_mode s = true ∧ source_bbox s' = source_bbox s) →
  modes_ok s'.
Proof.
  intros [H1 H2] Hsel Hcreate Hrel. split.
  - intros [? ->]%Hrel. rewrite Hsel. auto.
  - rewrite Hsel, Hcreate. auto.
Qed.

Ltac modes_kept s :=
  apply (modes_ok_kept s); [assumption|..];
  proj_simpl; autorewrite with frame; (done || auto).

Lemma toggle_selection_modes s clicked_bbox :
  create_bbox_active s = false →
  (attribute_add_mode s || relationship_mode s || change_label_mode s)
  && py_eq s clicked_bbox (selected_bbox s) = false →
  modes_ok s →
  modes_ok
    match clicked_bbox with
    | Some clicked =>
        match selected_bbox s with
        | None => _select_bbox clicked s
        | Some _ =>
            if py_eq s (selected_bbox s) clicked_bbox
            then _deselect_bbox clicked s else s
        end
    | None => s
    end.
Proof.
  intros Hcreate Hguard Hs. destruct clicked_bbox as [clicked|]; [|done].
  destruct (selected_bbox s) as [sel|] eqn:Hsel.
  - destruct (py_eq s (Some sel) (Some clicked)) eqn:Heq; [|done].
    rewrite py_eq_sym, Heq, andb_true_r in Hguard.
    apply orb_false_elim in Hguard as [[_ Hrel]%orb_false_elim _].
    split; autorewrite with frame; rewrite ?Hcreate, ?Hrel; done.
  - destruct (create_bbox_active s || attribute_add_mode s
              || relationship_mode s) eqn:Hmodes.
    + by rewrite select_blocked.
    + apply orb_false_elim in Hmodes as [_ Hrel].
      split; autorewrite with frame; rewrite ?Hcreate, ?Hrel; done.
Qed.

Lemma on_canvas_click_modes x y confirm s :
  modes_ok s → modes_ok (fst (on_canvas_click x y confirm s)).
Proof.
  intros Hs. unfold on_canvas_click.
  destruct (create_bbox_active s) eqn:Hcreate.
  { case_match; [|done]. modes_kept s. }
  case_match eqn:Hguard; [done|].
  pose proof (toggle_selection_modes s _ Hcreate Hguard Hs) as Hs1.
  set (s1 := match _get_confirmed_bbox_at s x y with
             | Some clicked => _ | None => s end) in *.
  clearbody s1.
  repeat case_match; proj_simpl; try done; modes_kept s1.
Qed.

Lemma show_context_menu_modes command s :
  modes_ok s → modes_ok (fst (show_context_menu command s)).
Proof.
  intros Hs. unfold show_context_menu.
  destruct (selected_bbox s) as [sel|] eqn:Hsel; [|done].
  case_match eqn:Hguard; [done|].
  apply orb_false_elim in Hguard as [[_ Hrel]%orb_false_elim _].
  destruct command.
  - unfold add_attribute. repeat case_match; proj_simpl; try done.
    all: modes_kept s.
  - unfold add_relationship. rewrite Hsel.
    case_match; proj_simpl; [done|]. destruct Hs as [H1 H2].
    split; proj_simpl; [by eauto|].
    intros Hc. by rewrite (H2 Hc) in Hsel.
  - unfold change_label. rewrite Hsel.
    repeat case_match; proj_simpl; try done. modes_kept s.
  - unfold remove_bbox. rewrite Hsel. destruct Hs as [H1 H2].
    repeat (case_match; proj_simpl); try done.
    all: split; proj_simpl; rewrite ?Hrel, ?Hsel; try done.
    all: intros Hc; by rewrite (H2 Hc) in Hsel.
Qed.

Lemma on_label_select_modes selection confirm s :
  modes_ok s → modes_ok (fst (on_label_select selection confirm s)).
Proof.
  intros Hs. unfold on_label_select, confirm_label_assignment.
  repeat (case_match; proj_simpl); try done; modes_kept s.
Qed.

Lemma on_attr_double_click_modes selection result add_more s :
  modes_ok s →
  modes_ok (fst (on_attr_double_click selection result add_more s)).
Proof.
  intros Hs. unfold on_attr_double_click.
  repeat (case_match; proj_simpl); try done; modes_kept s.
Qed.

Lemma on_labeled_select_modes selection s :
  modes_ok s → modes_ok (fst (on_labeled_select selection s)).
Proof.
  intros Hs. unfold on_labeled_select.
  destruct (create_bbox_active s || attribute_add_mode s
            || relationship_mode s) eqn:Hmodes; [done|].
  apply orb_false_elim in Hmodes as [[Hcreate Hattr]%orb_false_elim Hrel].
  repeat (case_match; proj_simpl); try done.
  all: split; autorewrite with frame; rewrite ?Hcreate, ?Hrel; done.
Qed.

Lemma show_attribute_context_menu_modes selection confirm s :
  modes_ok s →
  modes_ok (fst (show_attribute_context_menu selection confirm s)).
Proof.
  intros Hs. unfold show_attribute_context_menu, remove_attribute.
  repeat (case_match; proj_simpl); try done; modes_kept s.
Qed.

Lemma show_relationship_context_menu_modes selection confirm s :
  modes_ok s →
  modes_ok (fst (show_relationship_context_menu selection confirm s)).
Proof.
  intros Hs. unfold show_relationship_context_menu, remove_relationship.
  repeat (case_match; proj_simpl); try done; modes_kept s.
Qed.

Lemma open_image_modes file_path outcome s :
  modes_ok s → modes_ok (fst (open_image file_path outcome s)).
Proof.
  intros Hs. unfold open_image.
  repeat (case_match; proj_simpl); try done; by split.
Qed.

Lemma toggle_create_bbox_modes s :
  modes_ok s → modes_ok (fst (toggle_create_bbox s)).
Proof.
  intros Hs. unfold toggle_create_bbox.
  destruct (selected_bbox s) eqn:Hsel; [done|].
  destruct Hs as [H1 H2].
  repeat (case_match; proj_simpl); try done.
  all: split; proj_simpl; rewrite ?Hsel; try done.
  all: intros (? & ? & _)%H1; congruence.
Qed.

Lemma modes_ok_step s e : modes_ok s → modes_ok (step s e).
Proof.
  intros Hs. destruct (is_quiet e) eqn:He.
  { destruct (is_quiet_step e s He). apply (modes_ok_kept s); auto.
    intros <-. auto. }
  unfold step. destruct e; try discriminate; simpl handle.
  - by apply on_canvas_click_modes.
  - by apply show_context_menu_modes.
  - by apply on_label_select_modes.
  - by apply on_attr_double_click_modes.
  - by apply on_labeled_select_modes.
  - by apply show_attribute_context_menu_modes.
  - by apply show_relationship_context_menu_modes.
  - by apply open_image_modes.
  - by apply toggle_create_bbox_modes.
Qed.

(** * Attributes: at most ten per box, no name twice *)

Lemma store_ok_deref s r : store_ok s → attributes_ok (deref s r).
Proof.
  unfold store_ok, deref. intros Hs.
  destruct (heap s !! r) as [b|] eqn:Hb.
  - rewrite (list_lookup_total_correct _ _ _ Hb). by eapply Forall_lookup_1.
  - rewrite list_lookup_total_alt, Hb. split; [constructor|simpl; lia].
Qed.

Lemma store_ok_heap s s' : heap s' = heap s → store_ok s → store_ok s'.
Proof. unfold store_ok. by intros ->. Qed.

Lemma attributes_ok_write f s r :
  (∀ b, attributes (f b) = attributes b) → store_ok s →
  attributes_ok (f (deref s r)).
Proof.
  intros Hf Hs. unfold attributes_ok. rewrite Hf. by apply store_ok_deref.
Qed.

Lemma update_store_ok r f s :
  (∀ b, attributes (f b) = attributes b) → store_ok s →
  store_ok (update r f s).
Proof.
  intros Hf Hs. unfold store_ok, update. proj_simpl.
  apply Forall_insert; [done|].
  unfold attributes_ok. rewrite Hf. by apply store_ok_deref.
Qed.

Lemma deselect_store_ok bbox s :
  store_ok s → store_ok (_deselect_bbox bbox s).
Proof.
  intros Hs. unfold _deselect_bbox.
  set (s1 := update bbox (set_selected false) s).
  assert (store_ok s1) as Hs1 by by apply update_store_ok.
  set (s2 := match text_bg_id (deref s1 bbox) with
             | Some _ => _ | None => s1 end).
  assert (store_ok s2) as Hs2.
  { subst s2. case_match; [|done]. by apply update_store_ok. }
  apply (store_ok_heap s2); [|done]. by case_match.
Qed.

Lemma select_store_ok bbox s : store_ok s → store_ok (_select_bbox bbox s).
Proof.
  intros Hs. unfold _select_bbox. case_match; [done|].
  set (s1 := match selected_bbox s with Some _ => _ | None => s end).
  assert (store_ok s1) as Hs1.
  { subst s1. repeat case_match; try done. by apply deselect_store_ok. }
  set (s2 := set_selected_bbox _ (update bbox (set_selected true) s1)).
  assert (store_ok s2) as Hs2.
  { apply (store_ok_heap (update bbox (set_selected true) s1)); [done|].
    by apply update_store_ok. }
  case_match; [|by apply (store_ok_heap s2)].
  apply (store_ok_heap
           (update bbox (set_text_bg_id (Some (canvas_next s2)))
              (set_canvas_next (canvas_next s2 + 1) s2))); [done|].
  apply update_store_ok; [done|]. by apply (store_ok_heap s2).
Qed.

Ltac store_cases s :=
  repeat (case_match; proj_simpl); try done;
  try (apply (store_ok_heap s); [reflexivity|assumption]).

Lemma on_canvas_click_store_ok x y confirm s :
  store_ok s → store_ok (fst (on_canvas_click x y confirm s)).
Proof.
  intros Hs. unfold on_canvas_click.
  destruct (create_bbox_active s).
  { store_cases s. }
  case_match; [done|].
  set (s1 := match _get_confirmed_bbox_at s x y with
             | Some clicked => _ | None => s end).
  assert (store_ok s1) as Hs1.
  { subst s1. repeat case_match; try done;
      by (apply select_store_ok || apply deselect_store_ok). }
  clearbody s1. store_cases s1.
Qed.

Lemma show_context_menu_store_ok command s :
  store_ok s → store_ok (fst (show_context_menu command s)).
Proof.
  intros Hs. unfold show_context_menu.
  destruct (selected_bbox s) as [sel|]; [|done].
  case_match; [done|]. destruct command.
  - unfold add_attribute. store_cases s.
  - unfold add_relationship. store_cases s.
  - unfold change_label. store_cases s.
  - unfold remove_bbox. repeat (case_match; proj_simpl); try done.
    all: try (apply (store_ok_heap s); [reflexivity|assumption]).
    all: unfold store_ok; proj_simpl; apply Forall_insert; [done|].
    all: apply attributes_ok_write; [done|by apply (store_ok_heap s)].
Qed.

Lemma on_label_select_store_ok selection confirm s :
  store_ok s → store_ok (fst (on_label_select selection confirm s)).
Proof.
  intros Hs. unfold on_label_select, confirm_label_assignment.
  repeat (case_match; proj_simpl); try done.
  all: try (apply (store_ok_heap s); [reflexivity|assumption]).
  - match goal with
    | |- store_ok ?s3 =>
        match s3 with
        | context [update ?c (set_label_str ?l) ?s2] =>
            apply (store_ok_heap (update c (set_label_str l) s2));
              [reflexivity|]
        end
    end.
    do 3 (apply update_store_ok; [done|]).
    by apply (store_ok_heap s).
  - match goal with
    | |- store_ok ?s3 =>
        match s3 with
        | context [update ?c (set_label_str ?l) ?s2] =>
            apply (store_ok_heap (update c (set_label_str l) s2));
              [reflexivity|]
        end
    end.
    do 3 (apply update_store_ok; [done|]).
    by apply (store_ok_heap s).
  - unfold store_ok. proj_simpl. apply Forall_app. split; [done|].
    apply Forall_singleton. split; [constructor|simpl; lia].
Qed.

Lemma on_labeled_select_store_ok selection s :
  store_ok s → store_ok (fst (on_labeled_select selection s)).
Proof.
  intros Hs. unfold on_labeled_select.
  repeat (case_match; proj_simpl); try done;
    repeat first [apply select_store_ok | apply deselect_store_ok]; done.
Qed.

Lemma list_remove_sublist x l l' :
  list_remove x l = Some l' → l' `sublist_of` l.
Proof.
  revert l'. induction l as [|y l IH]; intros l'; simpl; [done|].
  case_match.
  - intros [= <-]. by apply sublist_cons.
  - destruct (list_remove x l); [|done]. intros [= <-].
    by apply sublist_skip, IH.
Qed.

Lemma remove_attribute_store_ok selection confirm s :
  store_ok s → store_ok (fst (remove_attribute selection confirm s)).
Proof.
  intros Hs. unfold remove_attribute.
  repeat (case_match; proj_simpl); try done.
  unfold store_ok. proj_simpl. apply Forall_insert; [done|].
  match goal with H : list_remove _ _ = Some _ |- _ =>
    apply list_remove_sublist in H; rename H into Hsub end.
  match goal with |- attributes_ok (set_attributes _ (deref s ?r)) =>
    destruct (store_ok_deref s r Hs) as [Hnd Hlen] end.
  split; simpl.
  - by eapply sublist_NoDup.
  - apply sublist_length in Hsub. lia.
Qed.

(** What one double click in the attribute list does to any box: nothing,
    or one new name at the end of a list that had fewer than ten. *)
Lemma on_attr_double_click_attributes selection result add_more s r :
  let s' := fst (on_attr_double_click selection result add_more s) in
  attributes (deref s' r) = attributes (deref s r)
  ∨ ∃ attribute,
      attributes (deref s' r) = attributes (deref s r) ++ [attribute]
      ∧ (attribute ∉ attributes (deref s r))
      ∧ (length (attributes (deref s r)) < 10)%nat.
Proof.
  unfold on_attr_double_click.
  repeat (case_match; proj_simpl); auto.
  all: match goal with
       | H : selected_bbox _ = Some ?sel |- _ =>
           destruct (decide (sel = r)) as [->|Hne];
           [destruct (decide (r < length (heap s))%nat) as [Hlt|Hge]|]
       end.
  all: unfold deref in *; proj_simpl.
  all: rewrite ?list_lookup_total_insert_ne by done; auto.
  all: rewrite ?list_insert_ge by lia; auto.
  all: rewrite list_lookup_total_insert_eq by done.
  all: right; eexists; split; [reflexivity|].
  all: repeat match goal with
         | H : bool_decide _ = false |- _ =>
             apply bool_decide_eq_false in H
         end.
  all: split; [done|lia].
Qed.

Lemma on_attr_double_click_store_ok selection result add_more s :
  store_ok s →
  store_ok (fst (on_attr_double_click selection result add_more s)).
Proof.
  intros Hs. unfold on_attr_double_click.
  repeat (case_match; proj_simpl); try done.
  all: unfold store_ok; proj_simpl; apply Forall_insert; [done|].
  all: match goal with |- attributes_ok (set_attributes _ (deref ?s0 ?r)) =>
         destruct (store_ok_deref s0 r Hs) as [Hnd Hlen] end.
  all: repeat match goal with
         | H : bool_decide _ = false |- _ =>
             apply bool_decide_eq_false in H
         end.
  all: split; simpl; [|rewrite length_app; simpl; lia].
  all: apply NoDup_app; split_and!; [done| |apply NoDup_singleton].
  all: by intros x Hx ->%list_elem_of_singleton.
Qed.

Lemma store_ok_step s e : store_ok s → store_ok (step s e).
Proof.
  intros Hs. destruct (is_quiet e) eqn:He.
  { destruct (is_quiet_step e s He). by apply (store_ok_heap s). }
  unfold step. destruct e; try discriminate; simpl handle.
  - by apply on_canvas_click_store_ok.
  - by apply show_context_menu_store_ok.
  - by apply on_label_select_store_ok.
  - by apply on_attr_double_click_store_ok.
  - by apply on_labeled_select_store_ok.
  - unfold show_attribute_context_menu. case_match; [done|].
    by apply remove_attribute_store_ok.
  - unfold show_relationship_context_menu, remove_relationship.
    store_cases s.
  - unfold open_image. store_cases s.
  - unfold toggle_create_bbox. store_cases s.
Qed.

(** * References stay valid, and the label being changed is remembered *)

Lemma refs_ok_init labels attrs rels : refs_ok (init labels attrs rels).
Proof. split; simpl; by try constructor. Qed.

Lemma mild_refs_ok s s' : mild s s' → refs_ok s → refs_ok s'.
Proof.
  intros [Hlen Hlabel Hconf Hsel Hchange] [H1 H2 H3]. split.
  - rewrite Hlen. rewrite Forall_forall in H1 |- *. auto.
  - rewrite Hlen. intros r [?|?]%Hsel; [auto|].
    rewrite Forall_forall in H1. auto.
  - intros (Hmode & -> & ->)%Hchange. rewrite Hlen.
    destruct (H3 Hmode) as (r & ? & ? & ?). exists r. by rewrite Hlabel.
Qed.

Lemma mild_refl s : mild s s.
Proof. split; auto. Qed.

Lemma mild_trans s1 s2 s3 : mild s1 s2 → mild s2 s3 → mild s1 s3.
Proof.
  intros [Hlen Hlabel Hconf Hsel Hchange] [Hlen' Hlabel' Hconf' Hsel' Hchange'].
  split.
  - congruence.
  - intros r. by rewrite Hlabel'.
  - by etrans.
  - intros r [?|?]%Hsel'; [auto|]. right. by apply Hconf.
  - intros (Hmode & -> & ->)%Hchange'. auto.
Qed.

(** Same store, same confirmed boxes, same change mode; the selection is
    kept or dropped. *)
Lemma mild_same s s' :
  heap s' = heap s →
  confirmed_bboxes s' = confirmed_bboxes s →
  (selected_bbox s' = selected_bbox s ∨ selected_bbox s' = None) →
  change_label_mode s' = change_label_mode s →
  change_bbox s' = change_bbox s →
  change_old_label s' = change_old_label s →
  mild s s'.
Proof.
  intros Hheap Hconf Hsel Hmode Hbox Hold. split.
  - by rewrite Hheap.
  - intros r. unfold deref. by rewrite Hheap.
  - by rewrite Hconf.
  - intros r Hr. left. destruct Hsel as [Hsel|Hsel]; congruence.
  - rewrite Hmode. auto.
Qed.

Lemma quiet_mild s s' : quiet s s' → mild s s'.
Proof. intros []. apply mild_same; auto. Qed.

Ltac mild_same :=
  apply mild_same; proj_simpl; autorewrite with frame; auto.

Lemma deselect_mild bbox s : mild s (_deselect_bbox bbox s).
Proof.
  split.
  - apply deselect_length.
  - intros r. apply deselect_field, selection_free_label_str.
  - by rewrite deselect_confirmed_bboxes.
  - intros r Hr. left.
    destruct (deselect_selected_cases bbox s) as [H|H]; congruence.
  - rewrite deselect_change_label_mode, deselect_change_bbox,
      deselect_change_old_label. auto.
Qed.

Lemma select_selected_cases bbox s r :
  selected_bbox (_select_bbox bbox s) = Some r →
  r = bbox ∨ selected_bbox s = Some r.
Proof.
  destruct (create_bbox_active s || attribute_add_mode s
            || relationship_mode s) eqn:Hmodes.
  - rewrite select_blocked by done. auto.
  - rewrite select_selected by done. intros [= ->]. auto.
Qed.

Lemma select_mild bbox s :
  bbox ∈ confirmed_bboxes s → mild s (_select_bbox bbox s).
Proof.
  intros Hin. split.
  - apply select_length.
  - intros r. apply select_field, selection_free_label_str.
  - by rewrite select_confirmed_bboxes.
  - intros r [->|?]%select_selected_cases; auto.
  - rewrite select_change_label_mode, select_change_bbox,
      select_change_old_label. auto.
Qed.

(** What the hit test returns is the selected box or a confirmed one. *)
Lemma smallest_fold_elem s x y l acc r :
  (fold_left (smallest_step s x y) l acc).1 = Some r →
  acc.1 = Some r ∨ r ∈ l.
Proof.
  revert acc. induction l as [|bb l IH]; intros acc; simpl; [auto|].
  intros [H|H]%IH; [|set_solver].
  unfold smallest_step in H. repeat case_match; simplify_eq/=; set_solver.
Qed.

Lemma hit_confirmed s x y r :
  _get_confirmed_bbox_at s x y = Some r →
  selected_bbox s = Some r ∨ r ∈ confirmed_bboxes s.
Proof.
  unfold _get_confirmed_bbox_at. destruct (selected_bbox s).
  - case_match; [|done]. intros [= ->]. auto.
  - intros [?|?]%smallest_fold_elem; [done|auto].
Qed.

Lemma on_canvas_click_mild x y confirm s :
  mild s (fst (on_canvas_click x y confirm s)).
Proof.
  unfold on_canvas_click.
  destruct (create_bbox_active s).
  { repeat (case_match; proj_simpl); try apply mild_refl; mild_same. }
  case_match; [apply mild_refl|].
  set (s1 := match _get_confirmed_bbox_at s x y with
             | Some clicked => _ | None => s end).
  assert (mild s s1) as Hs1.
  { subst s1.
    destruct (_get_confirmed_bbox_at s x y) as [clicked|] eqn:Hhit;
      [|apply mild_refl].
    destruct (selected_bbox s) as [sel|] eqn:Hsel.
    - case_match; [apply deselect_mild|apply mild_refl].
    - apply select_mild.
      apply hit_confirmed in Hhit as [?|?]; [congruence|done]. }
  apply (mild_trans _ s1); [done|]. clearbody s1.
  repeat (case_match; proj_simpl); try apply mild_refl; mild_same.
Qed.

Lemma remove_bbox_from_subseteq s x l l' :
  remove_bbox_from s x l = Some l' → l' ⊆ l.
Proof.
  revert l'. induction l as [|y l IH]; intros l'; cbn [remove_bbox_from];
    [done|].
  destruct (py_eq s (Some y) (Some x)).
  - intros [= <-] z Hz. by apply list_elem_of_further.
  - destruct (remove_bbox_from s x l) as [r|]; [|done]. intros [= <-].
    specialize (IH _ eq_refl). intros z [->|Hz]%elem_of_cons.
    + apply list_elem_of_here.
    + by apply list_elem_of_further, IH.
Qed.

Lemma remove_bbox_mild confirm s : mild s (fst (remove_bbox confirm s)).
Proof.
  unfold remove_bbox.
  repeat (case_match; proj_simpl); try apply mild_refl.
  all: try (mild_same; fail).
  all: split; proj_simpl; auto; try done.
  all: rewrite ?length_insert; try done.
  all: try (intros r;
            apply (field_update label_str _ (set_text_bg_id None)
                     (set_canvas_text _ (set_predicates _
                        (set_relationships _ s)))); done).
  all: try (by eapply remove_bbox_from_subseteq).
Qed.

Lemma on_attr_double_click_mild selection result add_more s :
  mild s (fst (on_attr_double_click selection result add_more s)).
Proof.
  unfold on_attr_double_click.
  repeat (case_match; proj_simpl); try apply mild_refl.
  all: try (mild_same; fail).
  all: split; proj_simpl; auto; try done.
  all: rewrite ?length_insert; try done.
  all: intros r; by apply (field_update label_str _ (set_attributes _) s).
Qed.

Lemma remove_attribute_mild selection confirm s :
  mild s (fst (remove_attribute selection confirm s)).
Proof.
  unfold remove_attribute.
  repeat (case_match; proj_simpl); try apply mild_refl.
  all: try (mild_same; fail).
  all: split; proj_simpl; auto; try done.
  all: rewrite ?length_insert; try done.
  all: intros r; by apply (field_update label_str _ (set_attributes _) s).
Qed.

Lemma on_labeled_select_mild selection s :
  mild s (fst (on_labeled_select selection s)).
Proof.
  unfold on_labeled_select.
  repeat (case_match; proj_simpl); try apply mild_refl.
  all: match goal with
       | H : List.find _ _ = Some _ |- _ =>
           apply find_some in H as [Hin%list_elem_of_In _]
       end.
  - apply deselect_mild.
  - eapply mild_trans; [apply deselect_mild|].
    apply select_mild. by rewrite deselect_confirmed_bboxes.
  - by apply select_mild.
Qed.

Lemma open_image_mild file_path outcome s :
  mild s (fst (open_image file_path outcome s)).
Proof.
  unfold open_image.
  repeat (case_match; proj_simpl); try apply mild_refl.
  all: split; proj_simpl; auto; try done; set_solver.
Qed.

Lemma change_label_refs_ok confirm s :
  refs_ok s → refs_ok (fst (change_label confirm s)).
Proof.
  intros Hs. unfold change_label.
  destruct (selected_bbox s) as [sel|] eqn:Hsel; [|done].
  repeat (case_match; proj_simpl); try done.
  destruct Hs as [H1 H2 H3]. split; proj_simpl; try done.
  intros _. exists sel. split_and!; [done|by apply H2|done].
Qed.

Lemma on_label_select_refs_ok selection confirm s :
  refs_ok s → refs_ok (fst (on_label_select selection confirm s)).
Proof.
  intros Hs. pose proof Hs as [H1 H2 H3].
  unfold on_label_select, confirm_label_assignment.
  repeat (case_match; proj_simpl); try done.
  all: split; proj_simpl; rewrite ?length_insert, ?length_app; simpl;
    try done; try congruence;
    try (exfalso; by destruct H3 as (? & ? & _)).
  - apply Forall_app. split.
    + eapply Forall_impl; [done|]. simpl. lia.
    + apply Forall_singleton. lia.
  - intros r Hr%H2. lia.
Qed.

Lemma refs_ok_step s e : refs_ok s → refs_ok (step s e).
Proof.
  intros Hs. destruct (is_quiet e) eqn:He.
  { eapply mild_refs_ok; [|done]. by apply quiet_mild, is_quiet_step. }
  unfold step. destruct e; try discriminate; simpl handle.
  - eapply mild_refs_ok; [apply on_canvas_click_mild|done].
  - unfold show_context_menu.
    destruct (selected_bbox s); [|done]. case_match; [done|].
    destruct command.
    + eapply mild_refs_ok; [|done]. unfold add_attribute.
      repeat (case_match; proj_simpl); try apply mild_refl; mild_same.
    + eapply mild_refs_ok; [|done]. unfold add_relationship.
      repeat (case_match; proj_simpl); try apply mild_refl; mild_same.
    + by apply change_label_refs_ok.
    + eapply mild_refs_ok; [apply remove_bbox_mild|done].
  - by apply on_label_select_refs_ok.
  - eapply mild_refs_ok; [apply on_attr_double_click_mild|done].
  - eapply mild_refs_ok; [apply on_labeled_select_mild|done].
  - unfold show_attribute_context_menu. case_match; [done|].
    eapply mild_refs_ok; [apply remove_attribute_mild|done].
  - eapply mild_refs_ok; [|done].
    unfold show_relationship_context_menu, remove_relationship.
    repeat (case_match; proj_simpl); try apply mild_refl; mild_same.
  - eapply mild_refs_ok; [apply open_image_mild|done].
  - eapply mild_refs_ok; [|done]. unfold toggle_create_bbox.
    repeat (case_match; proj_simpl); try apply mild_refl; mild_same.
Qed.

(** * Every reachable state is consistent *)

Lemma consistent_init labels attrs rels : consistent (init labels attrs rels).
Proof.
  split;
    [apply modes_ok_init|apply refs_ok_init|reflexivity|by constructor].
Qed.

Lemma consistent_step s e : consistent s → consistent (step s e).
Proof.
  intros [H1 H2 H3 H4]. split.
  - by apply modes_ok_step.
  - by apply refs_ok_step.
  - by apply aligned_step.
  - by apply store_ok_step.
Qed.

Lemma reachable_consistent s : reachable s → consistent s.
Proof.
  induction 1; [apply consistent_init|by apply consistent_step].
Qed.

Lemma reachable_run s events : reachable s → reachable (run s events).
Proof.
  revert s. induction events as [|e events IH]; intros s Hs; simpl; [done|].
  by apply IH, reachable_step.
Qed.

Lemma reachable_street : reachable street.
Proof. unfold street. apply reachable_run, reachable_init. Qed.

(** * The claims *)

(** C1 (as stated, fails in the code): with the edges
    car:1 --- on --- truck:1 and car:2 --- near --- truck:2 (predicate ids
    1 and 2), removing car:1 leaves the edge car:2 --- near --- truck:2
    paired with predicate id 1, the id of "on", not with 2, the id it was
    added with. *)
Lemma remove_bbox_misaligns_predicates :
  let s := run street two_edges in
  let s' := step s (CanvasButton3 (RemoveBbox true)) in
  selected_bbox s = Some 0%nat
  ∧ relationships s = [(0, "on", 1); (2, "near", 3)]%nat
  ∧ predicates s = Some [1; 2]
  ∧ relationships s' = [(2, "near", 3)]%nat
  ∧ predicates s' = Some [1]
  ∧ dict_get (relationships_mapping s') "near" 0 = 2.
Proof. vm_compute. by split_and!. Qed.

(** C1 (what the code does): a confirmed removal of the selected box
    removes every edge that has the box as source or target, and keeps the
    leading predicates, as many as edges remain, wherever in the list the
    removed edges were: not the predicates at the positions of the
    remaining edges. *)
Theorem remove_bbox_keeps_leading_predicates s sel old :
  reachable s →
  selected_bbox s = Some sel →
  predicates s = Some old →
  let s' := fst (remove_bbox true s) in
  relationships s'
  = List.filter (λ rel, negb (involves s sel rel)) (relationships s)
  ∧ predicates s' = Some (take (length (relationships s')) old).
Proof.
  intros Hs%reachable_consistent Hsel Hold.
  destruct (remove_bbox_keeps_prefix s sel old Hsel Hold
              (consistent_aligned _ Hs)) as [Hrel Hpred].
  cbv zeta. split; [exact Hrel|]. rewrite Hrel. exact Hpred.
Qed.

Lemma remove_bbox_keeps_leading_predicates_witness :
  let s := run street two_edges in
  predicates (fst (remove_bbox true s))
  = Some (take (length (relationships (fst (remove_bbox true s)))) [1; 2]).
Proof.
  intros s.
  refine (proj2 (remove_bbox_keeps_leading_predicates s 0%nat [1; 2] _ _ _)).
  - apply reachable_run, reachable_street.
  - by vm_compute.
  - by vm_compute.
Defined.




(** C5: in every state the session can reach, hence after every operation
    that adds or removes an edge, [relationships] and [predicates] have the
    same length (no [predicates] attribute counts as the empty list). *)
Theorem relationships_predicates_same_length s :
  reachable s →
  length (relationships s) = length (default [] (predicates s)).
Proof. intros Hs. by apply reachable_consistent. Qed.

Lemma relationships_predicates_same_length_witness :
  length (relationships
            (step (run street two_edges) (CanvasButton3 (RemoveBbox true))))
  = length (default []
              (predicates
                 (step (run street two_edges)
                    (CanvasButton3 (RemoveBbox true))))).
Proof.
  apply (relationships_predicates_same_length
           (step (run street two_edges) (CanvasButton3 (RemoveBbox true)))).
  apply reachable_step, reachable_run, reachable_street.
Defined.

(** C8: every confirmed box of a reachable state has at most ten
    attributes and no attribute twice; one double click in the attribute
    list leaves the attributes of every box as they are or appends one
    name that the box did not have, to a list shorter than ten. *)
Theorem attributes_bounded_and_distinct s :
  reachable s →
  (∀ r, r ∈ confirmed_bboxes s →
        NoDup (attributes (deref s r))
        ∧ (length (attributes (deref s r)) ≤ 10)%nat)
  ∧ ∀ selection result add_more r,
      let s' := step s (AttrDoubleButton1 selection result add_more) in
      attributes (deref s' r) = attributes (deref s r)
      ∨ ∃ attribute,
          attributes (deref s' r) = attributes (deref s r) ++ [attribute]
          ∧ (attribute ∉ attributes (deref s r))
          ∧ (length (attributes (deref s r)) < 10)%nat.
Proof.
  intros Hs%reachable_consistent. split.
  - intros r _. by apply store_ok_deref, consistent_store.
  - intros. apply on_attr_double_click_attributes.
Qed.

Lemma attributes_bounded_and_distinct_witness :
  NoDup (attributes (deref (run street red_car) 0%nat))
  ∧ (length (attributes (deref (run street red_car) 0%nat)) ≤ 10)%nat.
Proof.
  refine (proj1 (attributes_bounded_and_distinct (run street red_car) _)
            0%nat _).
  - apply reachable_run, reachable_street.
  - vm_compute. apply list_elem_of_here.
Defined.

(** * The hit test *)

Lemma smallest_step_invariant s x y seen acc bb :
  smallest_so_far s x y seen acc →
  smallest_so_far s x y (seen ++ [bb]) (smallest_step s x y acc bb).
Proof.
  unfold smallest_step, smallest_so_far, contains, box_area.
  destruct acc as [[best|] [smallest|]]; simpl; try done.
  - intros (Hin & Hbest & -> & Hmin).
    destruct (inside (coords (deref s bb)) x y) eqn:Hbb.
    + destruct (Z.ltb_spec (area (coords (deref s bb)))
                  (area (coords (deref s best)))) as [Hlt|Hge].
      * split_and!; [set_solver | done | done |].
        intros bb' [Hbb'| ->%list_elem_of_singleton]%elem_of_app Hc;
          [specialize (Hmin _ Hbb' Hc); lia | lia].
      * split_and!; [set_solver | done | done |].
        intros bb' [Hbb'| ->%list_elem_of_singleton]%elem_of_app Hc;
          [by apply Hmin | lia].
    + split_and!; [set_solver | done | done |].
      intros bb' [Hbb'| ->%list_elem_of_singleton]%elem_of_app Hc;
        [by apply Hmin | congruence].
  - intros Hnone.
    destruct (inside (coords (deref s bb)) x y) eqn:Hbb.
    + split_and!; [set_solver | done | done |].
      intros bb' [Hbb'| ->%list_elem_of_singleton]%elem_of_app Hc;
        [by destruct (Hnone _ Hbb') | lia].
    + intros bb' [Hbb'| ->%list_elem_of_singleton]%elem_of_app;
        [by apply Hnone | congruence].
Qed.

Lemma smallest_fold_invariant s x y l seen acc :
  smallest_so_far s x y seen acc →
  smallest_so_far s x y (seen ++ l) (fold_left (smallest_step s x y) l acc).
Proof.
  revert seen acc. induction l as [|bb l IH]; intros seen acc Hacc; simpl.
  - by rewrite app_nil_r.
  - rewrite (assoc_L _ seen [bb] l : seen ++ bb :: l = (seen ++ [bb]) ++ l).
    by apply IH, smallest_step_invariant.
Qed.

Lemma smallest_fold_spec s x y :
  smallest_so_far s x y (confirmed_bboxes s)
    (fold_left (smallest_step s x y) (confirmed_bboxes s) (None, None)).
Proof.
  apply (smallest_fold_invariant s x y (confirmed_bboxes s) [] (None, None)).
  simpl. set_solver.
Qed.

Lemma target_contains s x y target :
  _get_confirmed_second_bbox_relationship s x y = Some target →
  contains s x y target.
Proof.
  unfold _get_confirmed_second_bbox_relationship.
  pose proof (smallest_fold_spec s x y) as Hinv.
  destruct (fold_left _ _ _) as [[best|] [smallest|]]; simpl in *;
    try done.
  intros [= ->]. by destruct Hinv as (_ & ? & _).
Qed.


(** * Picking the target of a relationship *)

(** C3 (as stated, refuted): car:1 is the source and "on" is chosen; a
    click at (150,150), inside car:1, resolves to car:1 itself, and the
    handler shows nothing. *)
Lemma click_on_source_shows_nothing :
  let s := run street awaiting_target in
  relationship_mode s = true ∧ pending_relationship s = "on"
  ∧ source_bbox s = Some 0%nat
  ∧ _get_confirmed_second_bbox_relationship s 150 150 = Some 0%nat
  ∧ snd (on_canvas_click 150 150 true s) = [].
Proof. vm_compute. by split_and!. Qed.

(** C3 (amended): in relationship mode, a click whose resolved target box
    is the source box is ignored by the guard at the top of
    [on_canvas_click]: nothing is shown and nothing changes, so the tool
    keeps waiting for a target. *)
Theorem click_on_source_is_ignored s x y confirm source :
  reachable s →
  relationship_mode s = true →
  pending_relationship s ≠ "" →
  source_bbox s = Some source →
  _get_confirmed_second_bbox_relationship s x y = Some source →
  on_canvas_click x y confirm s = (s, []).
Proof.
  intros [[Hrel Hcreate] _ _ _]%reachable_consistent Hmode _ Hsource Htarget.
  destruct (Hrel Hmode) as (r & Hsel & Hr).
  assert (r = source) as -> by congruence.
  apply target_contains in Htarget.
  assert (create_bbox_active s = false) as Hc.
  { destruct (create_bbox_active s); [|done].
    by rewrite Hcreate in Hsel. }
  assert (_get_confirmed_bbox_at s x y = Some source) as Hhit.
  { unfold _get_confirmed_bbox_at. by rewrite Hsel, Htarget. }
  unfold on_canvas_click.
  rewrite Hc, Hhit, Hmode, Hsel, py_eq_refl, orb_true_r. done.
Qed.

Lemma click_on_source_is_ignored_witness :
  let s := run street awaiting_target in
  on_canvas_click 150 150 true s = (s, []).
Proof.
  intros s.
  apply (click_on_source_is_ignored s 150 150 true 0%nat).
  - apply reachable_run, reachable_street.
  - by vm_compute.
  - by vm_compute.
  - by vm_compute.
  - by vm_compute.
Defined.

Lemma py_eq_contains s x y a b :
  contains s x y a → inside (coords (deref s b)) x y = false →
  py_eq s (Some a) (Some b) = false.
Proof.
  unfold contains, py_eq. intros Ha Hb. apply bool_decide_eq_false.
  intros Heq. rewrite Heq in Ha. congruence.
Qed.

Lemma is_duplicate_elem s source target :
  source_bbox s = Some source →
  (source, pending_relationship s, target) ∈ relationships s →
  existsb (is_duplicate s target) (relationships s) = true.
Proof.
  intros Hsource Hin. apply existsb_exists.
  exists (source, pending_relationship s, target).
  split; [by apply list_elem_of_In|].
  unfold is_duplicate. by rewrite Hsource, !py_eq_refl, String.eqb_refl.
Qed.



(** * Switching the selection *)

Lemma deselect_unmarks bbox s :
  selected (deref (_deselect_bbox bbox s) bbox) = false.
Proof.
  assert (∀ s', heap s' = heap (update bbox (set_selected false) s) →
                selected (deref s' bbox) = false) as Hmark.
  { intros s' Hs'. unfold deref. rewrite Hs'.
    destruct (decide (bbox < length (heap s))%nat).
    - cbn [update heap set_heap].
      by rewrite list_lookup_total_insert_eq.
    - cbn [update heap set_heap]. rewrite list_insert_ge by lia.
      rewrite list_lookup_total_alt, lookup_ge_None_2 by lia. done. }
  unfold _deselect_bbox.
  set (s1 := update bbox (set_selected false) s) in *.
  set (s2 := match text_bg_id (deref s1 bbox) with
             | Some _ => _ | None => s1 end).
  assert (selected (deref s2 bbox) = false) as Hs2.
  { subst s2. case_match; [|by apply Hmark].
    rewrite (field_update selected) by done. by apply Hmark. }
  by case_match.
Qed.

Lemma select_other a bbox s :
  a ≠ bbox → selected_bbox s = None →
  deref (_select_bbox bbox s) a = deref s a.
Proof.
  intros Hne Hsel. unfold _select_bbox. rewrite Hsel.
  case_match; [done|].
  set (s2 := set_selected_bbox _ (update bbox (set_selected true) s)).
  assert (deref s2 a = deref s a) as <-
    by by apply (deref_update_ne bbox a (set_selected true) s).
  case_match; [|done]. cbn [canvas_create].
  by apply (deref_update_ne bbox a (set_text_bg_id (Some (canvas_next s2)))
              (set_canvas_next (canvas_next s2 + 1) s2)).
Qed.

Lemma select_marks bbox s :
  create_bbox_active s || attribute_add_mode s || relationship_mode s = false →
  selected_bbox s = None → (bbox < length (heap s))%nat →
  selected (deref (_select_bbox bbox s) bbox) = true.
Proof.
  intros Hmodes Hsel Hlt. unfold _select_bbox. rewrite Hmodes, Hsel.
  set (s2 := set_selected_bbox _ (update bbox (set_selected true) s)).
  assert (selected (deref s2 bbox) = true) as Hs2.
  { change (selected (deref (update bbox (set_selected true) s) bbox) = true).
    by rewrite deref_update_eq. }
  case_match; [|done]. cbn [canvas_create].
  rewrite <- Hs2.
  by apply (field_update selected bbox
              (set_text_bg_id (Some (canvas_next s2)))
              (set_canvas_next (canvas_next s2 + 1) s2)).
Qed.

Lemma on_canvas_click_keeps_selection x y confirm s a :
  selected_bbox s = Some a →
  selected_bbox (fst (on_canvas_click x y confirm s)) = Some a
  ∨ selected_bbox (fst (on_canvas_click x y confirm s)) = None.
Proof.
  intros Hsel. unfold on_canvas_click.
  destruct (create_bbox_active s).
  { repeat (case_match; proj_simpl); auto. }
  case_match; [auto|].
  set (s1 := match _get_confirmed_bbox_at s x y with
             | Some clicked => _ | None => s end).
  assert (selected_bbox s1 = Some a ∨ selected_bbox s1 = None) as Hs1.
  { subst s1. rewrite Hsel. repeat case_match; auto.
    match goal with
    | |- context [_deselect_bbox ?b s] =>
        destruct (deselect_selected_cases b s) as [->| ->]; auto
    end. }
  clearbody s1. repeat (case_match; proj_simpl); auto.
Qed.

(** C10: with no create, attribute or relationship mode active and box
    [a] selected, selecting in the labeled list the entry of another box
    [b] (the box the handler finds for that entry) deselects [a] and
    selects [b] in this one step, and shows nothing. A canvas click in
    the same state never moves the selection to another box: afterwards
    [a] is still selected, or nothing is. *)
Theorem labeled_list_switches_selection s index a b :
  reachable s →
  create_bbox_active s || attribute_add_mode s || relationship_mode s = false →
  selected_bbox s = Some a →
  labeled_listbox s !! index = Some (bbox_tag s b) →
  List.find (λ bb, String.eqb (bbox_tag s bb) (bbox_tag s b))
    (confirmed_bboxes s) = Some b →
  py_eq s (Some a) (Some b) = false →
  let s' := fst (on_labeled_select (Some index) s) in
  snd (on_labeled_select (Some index) s) = []
  ∧ selected_bbox s' = Some b
  ∧ selected (deref s' a) = false
  ∧ selected (deref s' b) = true
  ∧ ∀ x y confirm,
      selected_bbox (fst (on_canvas_click x y confirm s)) = Some a
      ∨ selected_bbox (fst (on_canvas_click x y confirm s)) = None.
Proof.
  intros [_ [Hconf _ _] _ _]%reachable_consistent Hmodes Hsel Hentry Hfind
    Hne.
  assert (a ≠ b) as Hab by (intros ->; by rewrite py_eq_refl in Hne).
  assert (b < length (heap s))%nat as Hb.
  { apply find_some in Hfind as [Hin%list_elem_of_In _].
    rewrite Forall_forall in Hconf. auto. }
  assert (on_labeled_select (Some index) s
          = (_select_bbox b (_deselect_bbox a s), [])) as ->.
  { unfold on_labeled_select. rewrite Hmodes. cbn [mbind option_bind].
    by rewrite Hentry, Hfind, Hsel, Hne. }
  cbn [fst snd].
  assert (selected_bbox (_deselect_bbox a s) = None) as Hnone
    by by apply deselect_self.
  assert (create_bbox_active (_deselect_bbox a s)
          || attribute_add_mode (_deselect_bbox a s)
          || relationship_mode (_deselect_bbox a s) = false) as Hmodes'
    by by autorewrite with frame.
  split_and!.
  - done.
  - by apply select_selected.
  - rewrite select_other by done. apply deselect_unmarks.
  - apply select_marks; [done|done|]. by rewrite deselect_length.
  - intros. by apply on_canvas_click_keeps_selection.
Qed.

Lemma labeled_list_switches_selection_witness :
  let s := run street two_edges in
  selected_bbox s = Some 0%nat
  ∧ selected_bbox (fst (on_labeled_select (Some 2%nat) s)) = Some 1%nat.
Proof.
  intros s. split; [by vm_compute|].
  assert (reachable s) as Hs by apply reachable_run, reachable_street.
  assert (create_bbox_active s || attribute_add_mode s || relationship_mode s
          = false) as H1 by by vm_compute.
  assert (selected_bbox s = Some 0%nat) as H2 by by vm_compute.
  assert (labeled_listbox s !! 2%nat = Some (bbox_tag s 1%nat)) as H3
    by by vm_compute.
  assert (List.find (λ bb, String.eqb (bbox_tag s bb) (bbox_tag s 1%nat))
            (confirmed_bboxes s) = Some 1%nat) as H4 by by vm_compute.
  assert (py_eq s (Some 0%nat) (Some 1%nat) = false) as H5 by by vm_compute.
  pose proof (labeled_list_switches_selection s 2%nat 0%nat 1%nat
                Hs H1 H2 H3 H4 H5) as H.
  cbv zeta in H. exact (proj1 (proj2 H)).
Defined.

(** * Changing the label of a box *)

Lemma deref_ext s s' r : heap s' = heap s → deref s' r = deref s r.
Proof. unfold deref. by intros ->. Qed.

Lemma bbox_tag_ext s s' r : heap s' = heap s → bbox_tag s' r = bbox_tag s r.
Proof. unfold bbox_tag. by intros ->%(deref_ext s s' r). Qed.

Lemma relationship_entry_ext s s' rel :
  heap s' = heap s → relationship_entry s' rel = relationship_entry s rel.
Proof.
  intros Hheap. destruct rel as [[source rel_str] target].
  unfold relationship_entry. by rewrite !(bbox_tag_ext s s').
Qed.

Lemma displayed_ext s s' rel :
  heap s' = heap s → selected_bbox s' = selected_bbox s →
  displayed s' rel = displayed s rel.
Proof.
  intros Hheap Hsel. destruct rel as [[source rel_str] target].
  unfold displayed, py_eq. rewrite Hsel.
  destruct (selected_bbox s); [|done]. by rewrite !(deref_ext s s').
Qed.


(** The three writes of [on_label_select] to the box being changed. *)
Lemma relabel_deref label new_id numeric box s s1 :
  heap s1 = heap s → (box < length (heap s))%nat →
  let s4 :=
    update box (set_label_str label)
      (update box (set_id new_id) (update box (set_label numeric) s1)) in
  deref s4 box
  = set_label_str label (set_id new_id (set_label numeric (deref s box)))
  ∧ (∀ r, r ≠ box → deref s4 r = deref s r)
  ∧ length (heap s4) = length (heap s).
Proof.
  intros Hheap Hbox. cbv zeta.
  set (s2 := update box (set_label numeric) s1).
  set (s3 := update box (set_id new_id) s2).
  assert (length (heap s2) = length (heap s)) as Hlen2
    by (subst s2; by rewrite length_heap_update, Hheap).
  assert (length (heap s3) = length (heap s)) as Hlen3
    by (subst s3; by rewrite length_heap_update).
  split_and!.
  - rewrite deref_update_eq by lia. subst s3.
    rewrite deref_update_eq by lia. subst s2.
    rewrite deref_update_eq by (rewrite Hheap; lia).
    by rewrite (deref_ext s s1).
  - intros r Hr. subst s3 s2. rewrite !deref_update_ne by done.
    by apply deref_ext.
  - by rewrite length_heap_update.
Qed.



(** * Instance ids *)

Ltac counts_cases :=
  repeat first
    [ progress proj_simpl
    | progress autorewrite with frame
    | case_match ];
  try reflexivity.

Lemma label_counts_step s e :
  is_label_double_click e = false → keeps_image e = true →
  label_counts (step s e) = label_counts s.
Proof.
  intros Hl Hk. destruct (is_quiet e) eqn:He.
  { by destruct (is_quiet_step e s He). }
  unfold step. destruct e; try discriminate; simpl handle.
  - unfold on_canvas_click. counts_cases.
  - unfold show_context_menu, add_attribute, add_relationship, change_label,
      remove_bbox.
    counts_cases.
  - unfold on_attr_double_click. counts_cases.
  - unfold on_labeled_select. counts_cases.
  - unfold show_attribute_context_menu, remove_attribute. counts_cases.
  - unfold show_relationship_context_menu, remove_relationship.
    counts_cases.
  - unfold open_image. simpl in Hk. by rewrite Hk.
  - unfold toggle_create_bbox. counts_cases.
Qed.

Ltac silent_cases :=
  repeat (case_match; cbn [snd]); reflexivity.

Lemma silent_step s e l :
  is_label_double_click e = false →
  assigned_ids l (snd (handle e s)) = []
  ∧ confirmed_ids l (snd (handle e s)) = [].
Proof.
  intros Hl. destruct e; try discriminate; simpl handle.
  - unfold on_canvas_click. split; silent_cases.
  - done.
  - unfold on_mouse_up. split; silent_cases.
  - unfold show_context_menu, add_attribute, add_relationship, change_label,
      remove_bbox.
    split; silent_cases.
  - done.
  - unfold on_handle_drag. split; silent_cases.
  - done.
  - unfold on_attr_double_click. split; silent_cases.
  - unfold on_relationship_selected. split; silent_cases.
  - unfold on_labeled_select. split; silent_cases.
  - unfold show_attribute_context_menu, remove_attribute. split; silent_cases.
  - unfold show_relationship_context_menu, remove_relationship.
    split; silent_cases.
  - unfold open_image. split; silent_cases.
  - unfold toggle_create_bbox. split; silent_cases.
  - unfold import_label_list, import_list. split; silent_cases.
  - unfold import_attribute_list, import_list. split; silent_cases.
  - unfold import_relationship_list, import_list. split; silent_cases.
Qed.

(** What one double click in the label list gives out under [l]: nothing,
    or the id after the counter of [l], which then moves on by one. *)
Lemma on_label_select_assigns selection confirm s l :
  refs_ok s →
  let shown := snd (on_label_select selection confirm s) in
  let s' := fst (on_label_select selection confirm s) in
  ((assigned_ids l shown = [] ∧ count s' l = count s l)
   ∨ (assigned_ids l shown = [count s l + 1]
      ∧ count s' l = count s l + 1))
  ∧ confirmed_ids l shown `sublist_of` assigned_ids l shown.
Proof.
  intros [_ _ Hchange]. cbv zeta.
  unfold on_label_select, confirm_label_assignment.
  destruct (selection ≫= _) as [label|]; [|by split; [left|]].
  destruct (change_label_mode s) eqn:Hmode.
  - destruct (Hchange eq_refl) as (box & Hbox & _).
    case_match; [by split; [left|]|].
    destruct confirm; [|by split; [left|]]. cbn [negb].
    lazy beta iota zeta.
    change (change_bbox (set_label_counts _ s)) with (change_bbox s).
    rewrite Hbox. lazy beta iota zeta. cbn [fst snd].
    unfold assigned_ids, confirmed_ids, count.
    cbn [omap list_omap tag_written tag_created].
    set (s' := update_labeled_view _).
    assert (label_counts s'
            = <[label:=count s label + 1]> (label_counts s)) as ->.
    { subst s'. unfold update_labeled_view, update_relationship_view.
      cbn [label_counts set_labeled_listbox set_labeled_listbox_state
             set_change_old_label set_change_bbox set_change_label_mode
             set_relationship_view_listbox set_relationships].
      case_match; reflexivity. }
    destruct (String.eqb_spec label l) as [->|Hne].
    + split; [right|apply sublist_nil_l].
      by rewrite lookup_insert_eq.
    + split; [left|done]. by rewrite lookup_insert_ne.
  - destruct (pending_bbox s) as [pending|]; [|by split; [left|]].
    destruct confirm; [|by split; [left|]].
    lazy beta iota zeta. cbn [fst snd canvas_create alloc].
    unfold assigned_ids, confirmed_ids, count.
    cbn [omap list_omap tag_written tag_created].
    proj_simpl.
    destruct (String.eqb_spec label l) as [->|Hne].
    + split; [right|done]. by rewrite lookup_insert_eq.
    + split; [left|done]. by rewrite lookup_insert_ne.
Qed.

Lemma step_assigns s e l :
  consistent s → keeps_image e = true →
  ((assigned_ids l (snd (handle e s)) = []
    ∧ count (step s e) l = count s l)
   ∨ (assigned_ids l (snd (handle e s)) = [count s l + 1]
      ∧ count (step s e) l = count s l + 1))
  ∧ confirmed_ids l (snd (handle e s))
    `sublist_of` assigned_ids l (snd (handle e s)).
Proof.
  intros Hs Hk. destruct (is_label_double_click e) eqn:Hl.
  - destruct e; try discriminate.
    apply on_label_select_assigns, Hs.
  - destruct (silent_step s e l Hl) as [-> ->].
    split; [left|done]. split; [done|].
    unfold count. by rewrite label_counts_step.
Qed.

Lemma assigned_ids_consecutive s events l :
  consistent s → forallb keeps_image events = true →
  let ids := assigned_ids l (shown s events) in
  ids = seqZ (count s l + 1) (Z.of_nat (length ids))
  ∧ count (run s events) l = count s l + Z.of_nat (length ids)
  ∧ confirmed_ids l (shown s events) `sublist_of` ids.
Proof.
  revert s. induction events as [|e events IH]; intros s Hs Hk.
  { simpl. split_and!; [done|lia|done]. }
  simpl in Hk. apply andb_prop in Hk as [Hke Hk].
  destruct (IH (step s e) (consistent_step _ _ Hs) Hk)
    as (Hids & Hcount & Hsub).
  destruct (step_assigns s e l Hs Hke) as [Hstep Hsub_e].
  cbv zeta. cbn [shown run fold_left].
  unfold assigned_ids, confirmed_ids in *. rewrite !omap_app.
  fold (run (step s e) events).
  split_and!.
  - destruct Hstep as [[-> Hc]|[-> Hc]]; simpl.
    + by rewrite <- Hc.
    + rewrite Hids at 1. rewrite Hc.
      rewrite (seqZ_cons (count s l + 1)) by lia.
      do 2 f_equal; lia.
  - rewrite Hcount. destruct Hstep as [[-> Hc]|[-> Hc]]; simpl; lia.
  - by apply sublist_app.
Qed.

Lemma seqZ_sorted m n : StronglySorted Z.lt (seqZ m (Z.of_nat n)).
Proof.
  revert m. induction n as [|n IH]; intros m.
  - rewrite seqZ_nil by lia. constructor.
  - rewrite seqZ_cons by lia.
    replace (Z.pred (Z.of_nat (S n))) with (Z.of_nat n) by lia.
    constructor; [apply IH|].
    apply Forall_forall. intros x Hx%elem_of_seqZ. lia.
Qed.

Lemma sublist_Forall_down {A} (P : A → Prop) l1 l2 :
  l1 `sublist_of` l2 → Forall P l2 → Forall P l1.
Proof.
  induction 1; intros Hl; [done|..];
    apply Forall_cons in Hl as [? ?]; auto.
Qed.

Lemma sublist_sorted {A} (R : relation A) l1 l2 :
  l1 `sublist_of` l2 → StronglySorted R l2 → StronglySorted R l1.
Proof.
  induction 1; intros Hl; [done|..];
    apply StronglySorted_inv in Hl as [? ?]; auto.
  constructor; [auto|]. by eapply sublist_Forall_down.
Qed.

(** C4 (as stated, refuted): with no image opened in between, two
    successive confirmations under "car" get the ids 1 and 3: the id 2
    went to the truck that was relabelled car between them. *)
Lemma confirmations_skip_relabel_id :
  forallb keeps_image relabel_between = true
  ∧ confirmed_ids "car" (shown street relabel_between) = [1; 3]
  ∧ assigned_ids "car" (shown street relabel_between) = [1; 2; 3]
  ∧ map (bbox_tag (run street relabel_between))
      (confirmed_bboxes (run street relabel_between))
    = ["car:1"; "car:2"; "car:3"].
Proof. vm_compute. by split_and!. Qed.

(** C4 (amended): along any events that open no image, the ids given out
    under a label, to newly confirmed boxes and to boxes relabelled to it,
    are the consecutive numbers after the label's counter, which ends that
    many higher: each is one more than the one before and none is given
    twice, whatever is removed or relabelled in between. The ids of the
    confirmations are some of them, in the same order, hence strictly
    increasing. Opening an image empties the counters. *)
Theorem instance_ids_consecutive s events l :
  reachable s →
  forallb keeps_image events = true →
  let ids := assigned_ids l (shown s events) in
  ids = seqZ (count s l + 1) (Z.of_nat (length ids))
  ∧ count (run s events) l = count s l + Z.of_nat (length ids)
  ∧ confirmed_ids l (shown s events) `sublist_of` ids
  ∧ StronglySorted Z.lt (confirmed_ids l (shown s events))
  ∧ ∀ file_path outcome,
      file_path ≠ "" →
      label_counts (step (run s events) (OpenButton file_path outcome)) = ∅.
Proof.
  intros Hs%reachable_consistent Hk.
  destruct (assigned_ids_consecutive s events l Hs Hk) as (Hids & Hc & Hsub).
  cbv zeta. split_and!; try done.
  - eapply sublist_sorted; [done|]. rewrite Hids. apply seqZ_sorted.
  - intros file_path outcome Hpath. unfold step. simpl handle.
    unfold open_image.
    destruct (String.eqb_spec file_path "") as [?|_]; [done|].
    by destruct outcome.
Qed.

Lemma instance_ids_consecutive_witness :
  assigned_ids "car" (shown street relabel_between)
  = seqZ (count street "car" + 1)
      (Z.of_nat (length (assigned_ids "car" (shown street relabel_between)))).
Proof.
  pose proof reachable_street as Hs.
  assert (forallb keeps_image relabel_between = true) as Hk by by vm_compute.
  pose proof (instance_ids_consecutive street relabel_between "car" Hs Hk)
    as H.
  cbv zeta in H. exact (proj1 H).
Defined.


(** Relabelling, run on two cars joined by an edge: relabelling
    car:1 to car is refused, relabelling it to truck makes it truck:1, and
    its edge is shown as truck:1 --- on --- car:2. *)
Example change_label_scenario :
  let s := run street changing_car in
  let same := on_label_select (Some 0%nat) true s in
  let other := fst (on_label_select (Some 1%nat) true s) in
  relationship_view_listbox s = ["car:1 --- on --- car:2"]
  ∧ same = (s, [showwarning "Change Label"
                  "The new label must be different from the old label."])
  ∧ map (bbox_tag other) (confirmed_bboxes other) = ["truck:1"; "car:2"]
  ∧ relationship_view_listbox other = ["truck:1 --- on --- car:2"]
  ∧ canvas_text other !! text_id (deref other 0%nat) = Some "truck:1".
Proof. vm_compute. by split_and!. Qed.

(** * The vocabularies: import, and reload at the next start *)

Lemma dict_get_set k v m k' d :
  dict_get (dict_set k v m) k' d
  = if String.eqb k k' then v else dict_get m k' d.
Proof.
  induction m as [|[k0 v0] m IH]; simpl.
  { by destruct (String.eqb k k'). }
  destruct (String.eqb_spec k0 k) as [->|Hk0]; simpl.
  - by destruct (String.eqb k k').
  - rewrite IH. destruct (String.eqb_spec k0 k') as [->|?]; [|done].
    destruct (String.eqb_spec k k'); congruence.
Qed.

Lemma dict_get_mapping_from_notin i names m k d :
  k ∉ names → dict_get (mapping_from i names m) k d = dict_get m k d.
Proof.
  revert i m. induction names as [|n names IH]; intros i m Hk; simpl; [done|].
  apply not_elem_of_cons in Hk as [Hn Hk].
  rewrite IH, dict_get_set by done.
  destruct (String.eqb_spec n k); congruence.
Qed.

Lemma dict_get_mapping_from i names m k d j :
  names !! j = Some k →
  (∀ j', (j < j')%nat → names !! j' ≠ Some k) →
  dict_get (mapping_from i names m) k d = i + Z.of_nat j + 1.
Proof.
  revert i m j. induction names as [|n names IH]; intros i m j Hj Hlast;
    [done|].
  simpl. destruct j as [|j]; simpl in Hj.
  - injection Hj as ->. rewrite dict_get_mapping_from_notin.
    + rewrite dict_get_set, String.eqb_refl. lia.
    + intros [j' Hj']%list_elem_of_lookup. apply (Hlast (S j')); [lia|done].
  - rewrite (IH _ _ j); [lia|done|].
    intros j' Hlt. apply (Hlast (S j')). lia.
Qed.

Lemma dict_set_fresh k v m : k ∉ m.*1 → dict_set k v m = m ++ [(k, v)].
Proof.
  induction m as [|[k0 v0] m IH]; simpl; [done|].
  intros [Hk0 Hk]%not_elem_of_cons.
  destruct (String.eqb_spec k0 k); [congruence|]. by rewrite IH.
Qed.

Lemma mapping_from_nodup i names m :
  NoDup names → (∀ n, n ∈ names → n ∉ m.*1) →
  mapping_from i names m
  = m ++ zip names (seqZ (i + 1) (Z.of_nat (length names))).
Proof.
  revert i m. induction names as [|n names IH]; intros i m Hnd Hm; simpl.
  { by rewrite app_nil_r. }
  apply NoDup_cons in Hnd as [Hn Hnd].
  rewrite IH; [|done|].
  - rewrite dict_set_fresh by (apply Hm; left).
    rewrite <- app_assoc. f_equal. simpl.
    rewrite (seqZ_cons (i + 1)) by lia. simpl. do 3 f_equal; lia.
  - intros n' Hn'. rewrite dict_set_fresh by (apply Hm; left).
    rewrite fmap_app. simpl. intros [?|Heq]%elem_of_app.
    + by apply (Hm n'); [right|].
    + apply list_elem_of_singleton in Heq. congruence.
Qed.

Lemma insert_sorted_last {A} (lt : A → A → bool) x l :
  Forall (λ y, lt x y = false) l → insert_sorted lt x l = l ++ [x].
Proof.
  induction 1 as [|y l Hy _ IH]; simpl; [done|]. by rewrite Hy, IH.
Qed.

Lemma sorted_app_fold {A} (lt : A → A → bool) l acc :
  (∀ i j x y, (i < j)%nat → (acc ++ l) !! i = Some x →
              (acc ++ l) !! j = Some y → lt y x = false) →
  fold_left (λ acc x, insert_sorted lt x acc) l acc = acc ++ l.
Proof.
  revert acc. induction l as [|x l IH]; intros acc Hord; simpl.
  { by rewrite app_nil_r. }
  rewrite insert_sorted_last.
  - rewrite IH; rewrite <- app_assoc; [done|]. apply Hord.
  - apply Forall_lookup. intros i y Hi.
    apply (Hord i (length acc)).
    + by apply lookup_lt_Some in Hi.
    + by rewrite lookup_app_l by (by apply lookup_lt_Some in Hi).
    + by rewrite list_lookup_middle.
Qed.

Lemma sorted_increasing {A} (lt : A → A → bool) l :
  (∀ i j x y, (i < j)%nat → l !! i = Some x → l !! j = Some y →
              lt y x = false) →
  sorted lt l = l.
Proof. intros Hord. unfold sorted. by rewrite sorted_app_fold. Qed.

Lemma names_by_id_mapping_of names :
  NoDup names → names_by_id (mapping_of names) = names.
Proof.
  intros Hnd. unfold names_by_id, mapping_of.
  rewrite mapping_from_nodup by (done || set_solver). simpl.
  rewrite sorted_increasing.
  - rewrite fst_zip; [done|]. rewrite length_seqZ. lia.
  - intros i j [x vx] [y vy] Hij [Hx Hvx]%lookup_zip_Some
      [Hy Hvy]%lookup_zip_Some.
    simpl. apply Z.ltb_ge.
    apply lookup_seqZ in Hvx as [-> _]. apply lookup_seqZ in Hvy as [-> _].
    lia.
Qed.

(** After a successful import the list box shows the lines of the file,
    a name is numbered by the position of its last occurrence, counted
    from 1, and every other name has no number. *)
Theorem import_numbers_names_from_one s file_path json_exists proceed names :
  file_path ≠ "" → (json_exists = true → proceed = true) →
  let labels :=
    fst (import_label_list file_path json_exists proceed (imported names) s) in
  let attrs :=
    fst (import_attribute_list file_path json_exists proceed (imported names)
           s) in
  let rels :=
    fst (import_relationship_list file_path json_exists proceed
           (imported names) s) in
  label_listbox labels = names ∧ attr_listbox attrs = names
  ∧ rel_listbox rels = names
  ∧ (∀ i name,
       names !! i = Some name →
       (∀ j, (i < j)%nat → names !! j ≠ Some name) →
       dict_get (labels_mapping labels) name 0 = Z.of_nat i + 1
       ∧ dict_get (attributes_mapping attrs) name 0 = Z.of_nat i + 1
       ∧ dict_get (relationships_mapping rels) name 0 = Z.of_nat i + 1)
  ∧ (∀ name,
       name ∉ names →
       dict_get (labels_mapping labels) name 0 = 0
       ∧ dict_get (attributes_mapping attrs) name 0 = 0
       ∧ dict_get (relationships_mapping rels) name 0 = 0).
Proof.
  intros Hpath Hproceed. cbv zeta.
  unfold import_label_list, import_attribute_list, import_relationship_list,
    import_list.
  destruct (String.eqb_spec file_path ""); [done|].
  assert (json_exists && negb proceed = false) as ->.
  { destruct json_exists; [|done]. by rewrite Hproceed. }
  proj_simpl. split_and!; try reflexivity.
  - intros i name Hi Hlast. unfold mapping_of.
    rewrite !(dict_get_mapping_from 0 names [] name 0 i) by done. lia.
  - intros name Hname. unfold mapping_of.
    by rewrite !dict_get_mapping_from_notin.
Qed.

Lemma import_numbers_names_from_one_witness :
  let names := ["car"; "truck"; "car"] in
  let s := fst (import_label_list "labels.txt" false false (imported names)
                  vocabulary) in
  label_listbox s = names
  ∧ dict_get (labels_mapping s) "car" 0 = 3
  ∧ dict_get (labels_mapping s) "truck" 0 = 2.
Proof.
  intros names s.
  pose proof (import_numbers_names_from_one vocabulary "labels.txt" false
                false names) as H.
  destruct H as (Hl & _ & _ & Hid & _); [done|done|].
  split_and!.
  - exact Hl.
  - refine (proj1 (Hid 2%nat "car" _ _)); [done|].
    intros [|[|[|j]]] Hj; (lia || done).
  - refine (proj1 (Hid 1%nat "truck" _ _)); [done|].
    intros [|[|[|j]]] Hj; (lia || done).
Defined.

(** A list imported without a repeated name is shown again, in the same
    order, when the tool next starts and reloads the JSON file the import
    wrote. *)
Theorem import_survives_restart s file_path json_exists proceed names
    labels attrs rels :
  file_path ≠ "" → (json_exists = true → proceed = true) →
  NoDup names →
  let imported_labels :=
    fst (import_label_list file_path json_exists proceed (imported names) s) in
  let imported_attrs :=
    fst (import_attribute_list file_path json_exists proceed (imported names)
           s) in
  let imported_rels :=
    fst (import_relationship_list file_path json_exists proceed
           (imported names) s) in
  label_listbox (init (labels_mapping imported_labels) attrs rels)
  = label_listbox imported_labels
  ∧ attr_listbox (init labels (attributes_mapping imported_attrs) rels)
    = attr_listbox imported_attrs
  ∧ rel_listbox (init labels attrs (relationships_mapping imported_rels))
    = rel_listbox imported_rels.
Proof.
  intros Hpath Hproceed Hnd. cbv zeta.
  unfold import_label_list, import_attribute_list, import_relationship_list,
    import_list.
  destruct (String.eqb_spec file_path ""); [done|].
  assert (json_exists && negb proceed = false) as ->.
  { destruct json_exists; [|done]. by rewrite Hproceed. }
  proj_simpl. cbn [init label_listbox attr_listbox rel_listbox].
  by rewrite names_by_id_mapping_of.
Qed.

Lemma import_survives_restart_witness :
  label_listbox
    (init
       (labels_mapping
          (fst (import_label_list "labels.txt" true true
                  (imported ["truck"; "car"; "bus"]) vocabulary)))
       [] [])
  = ["truck"; "car"; "bus"].
Proof.
  refine (proj1 (import_survives_restart vocabulary "labels.txt" true true
                   ["truck"; "car"; "bus"] [] [] [] _ _ _)).
  - done.
  - done.
  - apply (bool_decide_unpack _). by vm_compute.
Defined.

(** * What selecting and deselecting leave alone, continued *)

Lemma deselect_canvas_next bbox s :
  canvas_next (_deselect_bbox bbox s) = canvas_next s.
Proof. frame_select. Qed.

Lemma deselect_canvas_text bbox s :
  canvas_text (_deselect_bbox bbox s) = canvas_text s.
Proof. frame_select. Qed.

Lemma deselect_loaded_image bbox s :
  loaded_image (_deselect_bbox bbox s) = loaded_image s.
Proof. frame_select. Qed.

Lemma deselect_image_area bbox s :
  image_area (_deselect_bbox bbox s) = image_area s.
Proof. frame_select. Qed.

Lemma deselect_handling_new_bbox bbox s :
  handling_new_bbox (_deselect_bbox bbox s) = handling_new_bbox s.
Proof. frame_select. Qed.

Lemma deselect_start_x bbox s :
  start_x (_deselect_bbox bbox s) = start_x s.
Proof. frame_select. Qed.

Lemma deselect_start_y bbox s :
  start_y (_deselect_bbox bbox s) = start_y s.
Proof. frame_select. Qed.

Lemma deselect_temp_rect bbox s :
  temp_rect (_deselect_bbox bbox s) = temp_rect s.
Proof. frame_select. Qed.

Lemma deselect_pending_bbox bbox s :
  pending_bbox (_deselect_bbox bbox s) = pending_bbox s.
Proof. frame_select. Qed.

Lemma deselect_labels_mapping bbox s :
  labels_mapping (_deselect_bbox bbox s) = labels_mapping s.
Proof. frame_select. Qed.

Lemma deselect_attributes_mapping bbox s :
  attributes_mapping (_deselect_bbox bbox s) = attributes_mapping s.
Proof. frame_select. Qed.

Lemma deselect_label_listbox bbox s :
  label_listbox (_deselect_bbox bbox s) = label_listbox s.
Proof. frame_select. Qed.

Lemma deselect_attr_listbox bbox s :
  attr_listbox (_deselect_bbox bbox s) = attr_listbox s.
Proof. frame_select. Qed.

Lemma deselect_rel_listbox bbox s :
  rel_listbox (_deselect_bbox bbox s) = rel_listbox s.
Proof. frame_select. Qed.

Lemma deselect_labeled_listbox bbox s :
  labeled_listbox (_deselect_bbox bbox s) = labeled_listbox s.
Proof. frame_select. Qed.

Lemma deselect_labeled_listbox_state bbox s :
  labeled_listbox_state (_deselect_bbox bbox s) = labeled_listbox_state s.
Proof. frame_select. Qed.

#[local] Hint Rewrite deselect_canvas_next deselect_canvas_text
  deselect_loaded_image deselect_image_area deselect_handling_new_bbox
  deselect_start_x deselect_start_y deselect_temp_rect deselect_pending_bbox
  deselect_labels_mapping deselect_attributes_mapping deselect_label_listbox
  deselect_attr_listbox deselect_rel_listbox deselect_labeled_listbox
  deselect_labeled_listbox_state : frame.

Lemma select_canvas_text bbox s :
  canvas_text (_select_bbox bbox s) = canvas_text s.
Proof. frame_select'. Qed.

Lemma select_loaded_image bbox s :
  loaded_image (_select_bbox bbox s) = loaded_image s.
Proof. frame_select'. Qed.

Lemma select_image_area bbox s :
  image_area (_select_bbox bbox s) = image_area s.
Proof. frame_select'. Qed.

Lemma select_handling_new_bbox bbox s :
  handling_new_bbox (_select_bbox bbox s) = handling_new_bbox s.
Proof. frame_select'. Qed.

Lemma select_start_x bbox s : start_x (_select_bbox bbox s) = start_x s.
Proof. frame_select'. Qed.

Lemma select_start_y bbox s : start_y (_select_bbox bbox s) = start_y s.
Proof. frame_select'. Qed.

Lemma select_temp_rect bbox s : temp_rect (_select_bbox bbox s) = temp_rect s.
Proof. frame_select'. Qed.

Lemma select_pending_bbox bbox s :
  pending_bbox (_select_bbox bbox s) = pending_bbox s.
Proof. frame_select'. Qed.

Lemma select_labels_mapping bbox s :
  labels_mapping (_select_bbox bbox s) = labels_mapping s.
Proof. frame_select'. Qed.

Lemma select_attributes_mapping bbox s :
  attributes_mapping (_select_bbox bbox s) = attributes_mapping s.
Proof. frame_select'. Qed.

Lemma select_label_listbox bbox s :
  label_listbox (_select_bbox bbox s) = label_listbox s.
Proof. frame_select'. Qed.

Lemma select_attr_listbox bbox s :
  attr_listbox (_select_bbox bbox s) = attr_listbox s.
Proof. frame_select'. Qed.

Lemma select_rel_listbox bbox s :
  rel_listbox (_select_bbox bbox s) = rel_listbox s.
Proof. frame_select'. Qed.

Lemma select_labeled_listbox bbox s :
  labeled_listbox (_select_bbox bbox s) = labeled_listbox s.
Proof. frame_select'. Qed.

Lemma select_labeled_listbox_state bbox s :
  labeled_listbox_state (_select_bbox bbox s) = labeled_listbox_state s.
Proof. frame_select'. Qed.

#[local] Hint Rewrite select_canvas_text select_loaded_image
  select_image_area select_handling_new_bbox select_start_x select_start_y
  select_temp_rect select_pending_bbox select_labels_mapping
  select_attributes_mapping select_label_listbox select_attr_listbox
  select_rel_listbox select_labeled_listbox select_labeled_listbox_state
  : frame.

Lemma select_canvas_next bbox s :
  canvas_next s ≤ canvas_next (_select_bbox bbox s).
Proof.
  unfold _select_bbox.
  repeat (case_match; proj_simpl; autorewrite with frame); lia.
Qed.

(** * What no handler but the double click on a label changes in a box *)

Lemma selection_free_core : selection_free core.
Proof. by intros []. Qed.

(** [deref] through assignments to other attributes of [self]. *)
Ltac deref_norm :=
  repeat match goal with
    | |- context [deref ?S ?r] =>
        lazymatch S with
        | update _ _ _ => fail
        | _select_bbox _ _ => fail
        | _deselect_bbox _ _ => fail
        | _ =>
            let h := eval cbn [heap set_heap set_canvas_next set_canvas_text
                           set_loaded_image
       set_image_area set_image_path set_create_bbox_active
       set_handling_new_bbox set_start_x set_start_y set_temp_rect
       set_pending_bbox set_confirmed_bboxes set_label_counts
       set_selected_bbox set_change_label_mode set_change_bbox
       set_change_old_label set_attribute_add_mode set_relationship_mode
       set_source_bbox set_pending_relationship set_relationships
       set_predicates set_dragging_handle set_labels_mapping
       set_attributes_mapping set_relationships_mapping set_label_listbox
       set_attr_listbox set_rel_listbox set_labeled_listbox
       set_labeled_listbox_state set_labeled_listbox_bound
       set_attribute_view_listbox set_relationship_view_listbox
       canvas_create update_labeled_view update_attribute_view
       update_relationship_view leave_relationship_mode leave_attribute_mode
       create_handles fst snd] in (heap S) in
            lazymatch h with
            | heap ?S0 =>
                lazymatch S0 with
                | S => fail
                | _ => change (deref S r) with (deref S0 r)
                end
            end
        end
    end.

Ltac kept_tac Hsel Hattr :=
  repeat first
    [ reflexivity
    | progress deref_norm
    | rewrite field_update
        by first [ done | intros; apply Hattr
                 | intros; apply (proj1 (Hsel _))
                 | intros; apply (proj2 (Hsel _)) ]
    | rewrite select_field by exact Hsel
    | rewrite deselect_field by exact Hsel ].

Lemma on_canvas_click_kept {A} (g : bbox → A) x y confirm s r :
  selection_free g →
  g (deref (fst (on_canvas_click x y confirm s)) r) = g (deref s r).
Proof.
  intros Hsel. unfold on_canvas_click.
  repeat (case_match; proj_simpl); kept_tac Hsel Hsel.
Qed.

Lemma remove_bbox_kept {A} (g : bbox → A) confirm s r :
  selection_free g →
  g (deref (fst (remove_bbox confirm s)) r) = g (deref s r).
Proof.
  intros Hsel. unfold remove_bbox.
  repeat (case_match; proj_simpl); kept_tac Hsel Hsel.
Qed.

(** Every handler but [on_label_select] leaves alone the keys of a box
    that selecting and adding or removing an attribute do not write. *)
Lemma kept_step {A} (g : bbox → A) e s r :
  selection_free g → (∀ v b, g (set_attributes v b) = g b) →
  is_label_double_click e = false →
  g (deref (step s e) r) = g (deref s r).
Proof.
  intros Hsel Hattr He. unfold step.
  destruct e; try discriminate; cbn [handle].
  - by apply on_canvas_click_kept.
  - reflexivity.
  - unfold on_mouse_up. repeat (case_match; proj_simpl); kept_tac Hsel Hattr.
  - unfold show_context_menu, add_attribute, add_relationship, change_label.
    repeat (case_match; proj_simpl); try (by apply remove_bbox_kept);
      kept_tac Hsel Hattr.
  - reflexivity.
  - unfold on_handle_drag.
    repeat (case_match; proj_simpl); kept_tac Hsel Hattr.
  - reflexivity.
  - unfold on_attr_double_click.
    repeat (case_match; proj_simpl); kept_tac Hsel Hattr.
  - unfold on_relationship_selected.
    repeat (case_match; proj_simpl); kept_tac Hsel Hattr.
  - unfold on_labeled_select.
    repeat (case_match; proj_simpl); kept_tac Hsel Hattr.
  - unfold show_attribute_context_menu, remove_attribute.
    repeat (case_match; proj_simpl); kept_tac Hsel Hattr.
  - unfold show_relationship_context_menu, remove_relationship.
    repeat (case_match; proj_simpl); kept_tac Hsel Hattr.
  - unfold open_image.
    repeat (case_match; proj_simpl); kept_tac Hsel Hattr.
  - unfold toggle_create_bbox.
    repeat (case_match; proj_simpl); kept_tac Hsel Hattr.
  - unfold import_label_list, import_list.
    repeat (case_match; proj_simpl); kept_tac Hsel Hattr.
  - unfold import_attribute_list, import_list.
    repeat (case_match; proj_simpl); kept_tac Hsel Hattr.
  - unfold import_relationship_list, import_list.
    repeat (case_match; proj_simpl); kept_tac Hsel Hattr.
Qed.

(** The keys of a box that no handler writes once the box is confirmed. *)
Lemma on_label_select_kept {A} (g : bbox → A) selection confirm s r :
  (∀ v b, g (set_label v b) = g b) → (∀ v b, g (set_id v b) = g b) →
  (∀ v b, g (set_label_str v b) = g b) →
  (r < length (heap s))%nat →
  g (deref (fst (on_label_select selection confirm s)) r) = g (deref s r).
Proof.
  intros H1 H2 H3 Hr. unfold on_label_select, confirm_label_assignment.
  repeat (case_match; proj_simpl); try reflexivity.
  - deref_norm. by rewrite !field_update by done.
  - deref_norm. by rewrite !field_update by done.
  - unfold deref. proj_simpl.
    by rewrite !list_lookup_total_alt, lookup_app_l by done.
Qed.

Lemma length_heap_step s e : (length (heap s) ≤ length (heap (step s e)))%nat.
Proof.
  unfold step. destruct e; cbn [handle]; try reflexivity.
  - unfold on_canvas_click.
    repeat (case_match; proj_simpl);
      rewrite ?length_insert, ?select_length, ?deselect_length; done.
  - unfold on_mouse_up. repeat (case_match; proj_simpl); done.
  - unfold show_context_menu, add_attribute, add_relationship, change_label,
      remove_bbox.
    repeat (case_match; proj_simpl); rewrite ?length_insert; done.
  - unfold on_handle_drag. repeat (case_match; proj_simpl); done.
  - unfold on_label_select, confirm_label_assignment.
    repeat (case_match; proj_simpl);
      rewrite ?length_insert, ?length_app; (done || lia).
  - unfold on_attr_double_click.
    repeat (case_match; proj_simpl); rewrite ?length_insert; done.
  - unfold on_relationship_selected. repeat (case_match; proj_simpl); done.
  - unfold on_labeled_select.
    repeat (case_match; proj_simpl);
      rewrite ?length_insert, ?select_length, ?deselect_length; done.
  - unfold show_attribute_context_menu, remove_attribute.
    repeat (case_match; proj_simpl); rewrite ?length_insert; done.
  - unfold show_relationship_context_menu, remove_relationship.
    repeat (case_match; proj_simpl); done.
  - unfold open_image. repeat (case_match; proj_simpl); done.
  - unfold toggle_create_bbox. repeat (case_match; proj_simpl); done.
  - unfold import_label_list, import_list.
    repeat (case_match; proj_simpl); done.
  - unfold import_attribute_list, import_list.
    repeat (case_match; proj_simpl); done.
  - unfold import_relationship_list, import_list.
    repeat (case_match; proj_simpl); done.
Qed.

(** * What a click on the canvas, and a selection in the labeled list, do *)

Lemma on_canvas_click_outcome x y confirm s :
  click_outcome x y s (fst (on_canvas_click x y confirm s)).
Proof.
  unfold on_canvas_click.
  destruct (create_bbox_active s) eqn:Hcreate.
  { destruct (bool_decide (is_Some (image_area s))); cbn [andb];
      [|apply click_nothing].
    destruct (_inside_image_area s x y) eqn:Hinside; cbn [andb];
      [|apply click_nothing].
    destruct (handling_new_bbox s) eqn:Hnew; cbn [andb negb];
      [apply click_nothing|].
    by apply click_draw. }
  destruct (_ && py_eq s _ _) eqn:Hguard; [apply click_nothing|].
  set (s1 := match _get_confirmed_bbox_at s x y with
             | Some clicked => _ | None => s end).
  assert (toggled x y s s1) as Hs1.
  { subst s1.
    destruct (_get_confirmed_bbox_at s x y) as [clicked|] eqn:Hhit;
      [|apply toggled_nothing].
    destruct (selected_bbox s) as [sel|] eqn:Hsel;
      [|by apply toggled_select].
    assert (clicked = sel) as ->.
    { unfold _get_confirmed_bbox_at in Hhit. rewrite Hsel in Hhit.
      by case_match; simplify_eq. }
    rewrite py_eq_refl in Hguard |- *. rewrite andb_true_r in Hguard.
    by apply toggled_deselect. }
  clearbody s1.
  destruct (relationship_mode s1) eqn:Hmode; [|by apply click_toggle].
  destruct (String.eqb _ _); [by apply click_toggle|].
  destruct (_get_confirmed_second_bbox_relationship s1 x y) as [target|]
    eqn:Htarget; [|by apply click_toggle].
  destruct (py_eq s1 (Some target) (source_bbox s1)) eqn:Hself;
    [by apply click_toggle|].
  destruct (existsb _ _) eqn:Hdup; [by apply click_abort|].
  destruct (source_bbox s1) as [source|] eqn:Hsource;
    [|by apply click_toggle].
  cbn [fst]. destruct confirm; [|by apply click_abort].
  by apply (click_edge x y s s1 source target).
Qed.

Lemma on_labeled_select_outcome selection s :
  labeled_outcome s (fst (on_labeled_select selection s)).
Proof.
  unfold on_labeled_select.
  destruct (_ || _ || _) eqn:Hmodes; [apply labeled_nothing|].
  destruct (selection ≫= _) as [entry|]; [|apply labeled_nothing].
  destruct (List.find _ _) as [found|] eqn:Hfind; [|apply labeled_nothing].
  apply find_some in Hfind as [Hin%list_elem_of_In _].
  destruct (py_eq s (selected_bbox s) (Some found)) eqn:Heq.
  - by apply labeled_deselect.
  - by apply labeled_select.
Qed.

(** * Canvas items: every box has a rectangle of its own *)

Ltac field_cases := repeat (case_match; proj_simpl).

Ltac frame_cases :=
  repeat first
    [ progress proj_simpl
    | progress autorewrite with frame
    | case_match ].

Ltac click_cases x y confirm s :=
  let Ht := fresh "Htoggled" in
  destruct (on_canvas_click_outcome x y confirm s)
    as [ | ? ? ? | ? ? Ht | ? ? Ht ? | ? ? ? ? Ht ? ? ? ? ? ];
  try destruct Ht as [ | ? ? ? | ? ? ? ].

Ltac labeled_cases selection s :=
  destruct (on_labeled_select_outcome selection s) as [ | ? ? ? ? | ? ? ? ? ].

Lemma length_heap_same s e :
  is_label_double_click e = false →
  length (heap (step s e)) = length (heap s).
Proof.
  intros He. unfold step. destruct e; try discriminate; cbn [handle];
    try reflexivity.
  - click_cases x y confirm s; proj_simpl;
      rewrite ?select_length, ?deselect_length; done.
  - unfold on_mouse_up. repeat (case_match; proj_simpl); done.
  - unfold show_context_menu, add_attribute, add_relationship, change_label,
      remove_bbox.
    repeat (case_match; proj_simpl); rewrite ?length_insert; done.
  - unfold on_handle_drag. repeat (case_match; proj_simpl); done.
  - unfold on_attr_double_click.
    repeat (case_match; proj_simpl); rewrite ?length_insert; done.
  - unfold on_relationship_selected. repeat (case_match; proj_simpl); done.
  - labeled_cases selection s; try case_match;
      rewrite ?select_length, ?deselect_length; done.
  - unfold show_attribute_context_menu, remove_attribute.
    repeat (case_match; proj_simpl); rewrite ?length_insert; done.
  - unfold show_relationship_context_menu, remove_relationship.
    repeat (case_match; proj_simpl); done.
  - unfold open_image. repeat (case_match; proj_simpl); done.
  - unfold toggle_create_bbox. repeat (case_match; proj_simpl); done.
  - unfold import_label_list, import_list.
    repeat (case_match; proj_simpl); done.
  - unfold import_attribute_list, import_list.
    repeat (case_match; proj_simpl); done.
  - unfold import_relationship_list, import_list.
    repeat (case_match; proj_simpl); done.
Qed.

Lemma canvas_next_step s e : canvas_next s ≤ canvas_next (step s e).
Proof.
  unfold step. destruct e; cbn [handle]; try reflexivity.
  - click_cases x y confirm s; proj_simpl;
      rewrite ?deselect_canvas_next; try lia; apply select_canvas_next.
  - unfold on_mouse_up. field_cases; lia.
  - unfold show_context_menu, add_attribute, add_relationship, change_label,
      remove_bbox.
    field_cases; done.
  - unfold on_handle_drag. field_cases; done.
  - unfold on_label_select, confirm_label_assignment. field_cases; lia.
  - unfold on_attr_double_click. field_cases; done.
  - unfold on_relationship_selected. field_cases; done.
  - labeled_cases selection s; rewrite ?deselect_canvas_next; try done.
    etrans; [|apply select_canvas_next].
    case_match; by rewrite ?deselect_canvas_next.
  - unfold show_attribute_context_menu, remove_attribute. field_cases; done.
  - unfold show_relationship_context_menu, remove_relationship.
    field_cases; done.
  - unfold open_image. field_cases; lia.
  - unfold toggle_create_bbox. field_cases; done.
  - unfold import_label_list, import_list. field_cases; done.
  - unfold import_attribute_list, import_list. field_cases; done.
  - unfold import_relationship_list, import_list. field_cases; done.
Qed.

Ltac pending_done :=
  first
    [ done
    | by eauto
    | intros [= <-]; by eauto
    | let Hp := fresh in
      intros Hp;
      first [ congruence
            | eexists; split; [|reflexivity]; congruence ] ].

Lemma pending_step s e p' :
  is_mouse_up e = false →
  pending_bbox (step s e) = Some p' →
  ∃ p, pending_bbox s = Some p ∧ Pending.rect_id p' = Pending.rect_id p.
Proof.
  intros He. unfold step. destruct e; try discriminate; cbn [handle];
    try (by eauto).
  - click_cases x y confirm s; frame_cases; pending_done.
  - unfold show_context_menu, add_attribute, add_relationship, change_label,
      remove_bbox.
    field_cases; pending_done.
  - unfold on_handle_drag. field_cases; pending_done.
  - unfold on_label_select, confirm_label_assignment.
    field_cases; pending_done.
  - unfold on_attr_double_click. field_cases; pending_done.
  - unfold on_relationship_selected. field_cases; pending_done.
  - labeled_cases selection s; frame_cases; pending_done.
  - unfold show_attribute_context_menu, remove_attribute. field_cases; pending_done.
  - unfold show_relationship_context_menu, remove_relationship.
    field_cases; pending_done.
  - unfold open_image. field_cases; pending_done.
  - unfold toggle_create_bbox. field_cases; pending_done.
  - unfold import_label_list, import_list. field_cases; pending_done.
  - unfold import_attribute_list, import_list. field_cases; pending_done.
  - unfold import_relationship_list, import_list. field_cases; pending_done.
Qed.

Lemma temp_step s e t :
  is_canvas_click e = false →
  temp_rect (step s e) = Some t → temp_rect s = Some t.
Proof.
  intros He. unfold step. destruct e; try discriminate; cbn [handle];
    try done.
  - unfold on_mouse_up. field_cases; first [done|congruence].
  - unfold show_context_menu, add_attribute, add_relationship, change_label,
      remove_bbox.
    field_cases; first [done|congruence].
  - unfold on_handle_drag. field_cases; first [done|congruence].
  - unfold on_label_select, confirm_label_assignment. field_cases; first [done|congruence].
  - unfold on_attr_double_click. field_cases; first [done|congruence].
  - unfold on_relationship_selected. field_cases; first [done|congruence].
  - labeled_cases selection s; frame_cases; first [done|congruence].
  - unfold show_attribute_context_menu, remove_attribute. field_cases; first [done|congruence].
  - unfold show_relationship_context_menu, remove_relationship.
    field_cases; first [done|congruence].
  - unfold open_image. field_cases; first [done|congruence].
  - unfold toggle_create_bbox. field_cases; first [done|congruence].
  - unfold import_label_list, import_list. field_cases; first [done|congruence].
  - unfold import_attribute_list, import_list. field_cases; first [done|congruence].
  - unfold import_relationship_list, import_list. field_cases; first [done|congruence].
Qed.

(** * What a double click in the label list does *)

Lemma on_label_select_outcome selection confirm s :
  label_outcome s (fst (on_label_select selection confirm s)).
Proof.
  unfold on_label_select.
  destruct (selection ≫= _) as [label|] eqn:Hlabel; [|apply label_nothing].
  assert (label ∈ label_listbox s) as Hin.
  { destruct selection as [i|]; [|done]. simpl in Hlabel.
    by eapply list_elem_of_lookup_2. }
  destruct (change_label_mode s) eqn:Hmode.
  - case_bool_decide as Hold; [apply label_nothing|].
    destruct confirm; cbn [negb]; [|apply label_nothing].
    lazy zeta.
    change (change_bbox (set_label_counts _ s)) with (change_bbox s).
    destruct (change_bbox s) as [change|] eqn:Hchange.
    + by apply (label_changed s label change).
    + by apply label_failed.
  - destruct (pending_bbox s) as [pending|] eqn:Hpending;
      [|apply label_nothing].
    destruct confirm; [by apply label_confirmed|].
    apply label_nothing.
Qed.

Lemma confirm_heap label pending s :
  heap (fst (confirm_label_assignment label true pending s))
  = heap s ++ [confirmed_dict label pending s].
Proof. reflexivity. Qed.

Lemma confirm_confirmed_bboxes label pending s :
  confirmed_bboxes (fst (confirm_label_assignment label true pending s))
  = confirmed_bboxes s ++ [length (heap s)].
Proof. reflexivity. Qed.

Lemma confirm_label_counts label pending s :
  label_counts (fst (confirm_label_assignment label true pending s))
  = <[label := count s label + 1]> (label_counts s).
Proof. reflexivity. Qed.

Lemma confirm_canvas_next label pending s :
  canvas_next (fst (confirm_label_assignment label true pending s))
  = canvas_next s + 1.
Proof. reflexivity. Qed.

Lemma confirm_pending_bbox label pending s :
  pending_bbox (fst (confirm_label_assignment label true pending s)) = None.
Proof. reflexivity. Qed.

Lemma confirm_temp_rect label pending s :
  temp_rect (fst (confirm_label_assignment label true pending s))
  = temp_rect s.
Proof. reflexivity. Qed.

Lemma confirm_selected_bbox label pending s :
  selected_bbox (fst (confirm_label_assignment label true pending s))
  = selected_bbox s.
Proof. reflexivity. Qed.

Lemma confirm_relationships label pending s :
  relationships (fst (confirm_label_assignment label true pending s))
  = relationships s.
Proof. reflexivity. Qed.

Lemma confirm_deref_old label pending s r :
  (r < length (heap s))%nat →
  deref (fst (confirm_label_assignment label true pending s)) r = deref s r.
Proof.
  intros Hr. unfold deref. rewrite confirm_heap.
  by rewrite !list_lookup_total_alt, lookup_app_l.
Qed.

Lemma confirm_deref_new label pending s :
  deref (fst (confirm_label_assignment label true pending s))
    (length (heap s))
  = confirmed_dict label pending s.
Proof.
  unfold deref. rewrite confirm_heap.
  by rewrite list_lookup_total_middle.
Qed.

(** The heap after a relabelling. *)
Lemma relabelled_deref label change s :
  (change < length (heap s))%nat →
  deref (relabelled label change s) change
  = set_label_str label
      (set_id (count s label + 1)
         (set_label (dict_get (labels_mapping s) label 0) (deref s change)))
  ∧ (∀ r, r ≠ change → deref (relabelled label change s) r = deref s r)
  ∧ length (heap (relabelled label change s)) = length (heap s).
Proof.
  intros Hchange.
  pose proof (relabel_deref label (count s label + 1)
                (dict_get (labels_mapping s) label 0) change s
                (set_label_counts
                   (<[label := count s label + 1]> (label_counts s)) s)
                eq_refl Hchange) as H.
  cbv zeta in H. destruct H as (H1 & H2 & H3).
  unfold relabelled. lazy zeta.
  set (s4 := update change (set_label_str label) _) in *.
  set (s5 := match canvas_text s4 !! _ with Some _ => _ | None => s4 end).
  assert (heap s5 = heap s4) as Hheap by (subst s5; by case_match).
  clearbody s5 s4.
  split_and!.
  - rewrite <- H1. by apply deref_ext.
  - intros r Hr. rewrite <- (H2 r Hr). by apply deref_ext.
  - rewrite <- H3. unfold update_labeled_view, update_relationship_view.
    proj_simpl. by rewrite Hheap.
Qed.

(** * Every box has a rectangle of its own: the proof *)

Lemma selection_free_rect_id : selection_free rect_id.
Proof. by intros []. Qed.

Lemma rects_ok_init labels attrs rels : rects_ok (init labels attrs rels).
Proof. split; simpl; intros; (lia || done). Qed.

(** A step that keeps the boxes and their rectangles, creates canvas
    items at most, and keeps or drops the pending box and the box being
    drawn, or starts to draw, or turns the drawn box into the pending
    one. *)
Lemma rects_ok_kept s s' :
  rects_ok s →
  length (heap s') = length (heap s) →
  (∀ r, rect_id (deref s' r) = rect_id (deref s r)) →
  canvas_next s ≤ canvas_next s' →
  (∀ p', pending_bbox s' = Some p' →
         (∃ p, pending_bbox s = Some p
               ∧ Pending.rect_id p' = Pending.rect_id p)
         ∨ (temp_rect s = Some (Pending.rect_id p') ∧ temp_rect s' = None)) →
  (∀ t, temp_rect s' = Some t →
        temp_rect s = Some t ∨ canvas_next s ≤ t < canvas_next s') →
  rects_ok s'.
Proof.
  intros [H1 H2 H3 H4 H5 H6 H7] Hlen Hrect Hnext Hpending Htemp.
  split.
  - intros r Hr. rewrite Hrect. rewrite Hlen in Hr.
    specialize (H1 r Hr). lia.
  - intros a b Ha Hb. rewrite !Hrect. rewrite Hlen in Ha, Hb. auto.
  - intros p' [(p & Hp & ->)|[Ht _]]%Hpending.
    + specialize (H3 p Hp). lia.
    + specialize (H5 _ Ht). lia.
  - intros p' r [(p & Hp & ->)|[Ht _]]%Hpending Hr;
      rewrite Hrect; rewrite Hlen in Hr.
    + by apply H4.
    + by apply H6.
  - intros t [Ht|Ht]%Htemp; [|lia]. specialize (H5 _ Ht). lia.
  - intros t r [Ht|Ht]%Htemp Hr; rewrite Hrect; rewrite Hlen in Hr.
    + by apply H6.
    + specialize (H1 r Hr). lia.
  - intros t p' Ht' [(p & Hp & ->)|[Ht Hnone]]%Hpending; [|congruence].
    apply Htemp in Ht' as [Ht|Ht].
    + by apply H7.
    + specialize (H3 p Hp). lia.
Qed.

Lemma on_canvas_click_temp x y confirm s t :
  temp_rect (fst (on_canvas_click x y confirm s)) = Some t →
  temp_rect s = Some t
  ∨ canvas_next s ≤ t < canvas_next (fst (on_canvas_click x y confirm s)).
Proof.
  click_cases x y confirm s; frame_cases; auto.
  intros [= <-]. right. lia.
Qed.

Lemma on_mouse_up_pending x y s p' :
  pending_bbox (fst (on_mouse_up x y s)) = Some p' →
  (∃ p, pending_bbox s = Some p ∧ Pending.rect_id p' = Pending.rect_id p)
  ∨ (temp_rect s = Some (Pending.rect_id p')
     ∧ temp_rect (fst (on_mouse_up x y s)) = None).
Proof.
  unfold on_mouse_up. field_cases; try (intros ?; left; by eauto).
  intros [= <-]. right. done.
Qed.

Lemma rects_ok_confirm label pending s :
  pending_bbox s = Some pending → rects_ok s →
  rects_ok (fst (confirm_label_assignment label true pending s)).
Proof.
  intros Hp [H1 H2 H3 H4 H5 H6 H7].
  set (s' := fst (confirm_label_assignment label true pending s)).
  assert (∀ r, (r < length (heap s'))%nat →
               (r < length (heap s))%nat
               ∧ rect_id (deref s' r) = rect_id (deref s r)
               ∨ r = length (heap s)
                 ∧ rect_id (deref s' r) = Pending.rect_id pending) as Hcase.
  { intros r. subst s'. rewrite confirm_heap, length_app. cbn [length]. intros Hr.
    destruct (decide (r < length (heap s))%nat).
    - left. by rewrite confirm_deref_old.
    - right. assert (r = length (heap s)) as -> by lia.
      by rewrite confirm_deref_new. }
  split.
  - intros r [[Hr ->]|[-> ->]]%Hcase; subst s';
      rewrite confirm_canvas_next.
    + specialize (H1 r Hr). lia.
    + specialize (H3 _ Hp). lia.
  - intros a b [[Ha Ea]|[-> Ea]]%Hcase [[Hb Eb]|[-> Eb]]%Hcase;
      rewrite ?Ea, ?Eb; intros Heq; try done.
    + by apply H2.
    + by destruct (H4 _ a Hp Ha).
    + by destruct (H4 _ b Hp Hb).
  - subst s'. by rewrite confirm_pending_bbox.
  - subst s'. by rewrite confirm_pending_bbox.
  - subst s'. rewrite confirm_temp_rect, confirm_canvas_next.
    intros t Ht. specialize (H5 _ Ht). lia.
  - intros t r Ht. subst s'. rewrite confirm_temp_rect in Ht.
    intros [[Hr ->]|[-> ->]]%Hcase.
    + by apply H6.
    + by apply H7.
  - subst s'. by rewrite confirm_pending_bbox.
Qed.

Lemma rects_ok_relabelled label change s :
  (change < length (heap s))%nat → rects_ok s →
  rects_ok (relabelled label change s).
Proof.
  intros Hchange Hs.
  destruct (relabelled_deref label change s Hchange) as (H1 & H2 & H3).
  apply (rects_ok_kept s); [done|done|..].
  - intros r. destruct (decide (r = change)) as [->|Hr].
    + by rewrite H1.
    + by rewrite H2.
  - unfold relabelled. field_cases; done.
  - unfold relabelled. field_cases; eauto.
  - unfold relabelled. field_cases; eauto.
Qed.

Lemma rects_ok_step s e : refs_ok s → rects_ok s → rects_ok (step s e).
Proof.
  intros Hrefs Hs.
  destruct (is_label_double_click e) eqn:Hlabel.
  { destruct e; try discriminate. unfold step. cbn [handle].
    destruct (on_label_select_outcome selection confirm s)
      as [|label pending Hmode Hp|label change Hmode Hc|label Hmode Hc].
    - done.
    - by apply rects_ok_confirm.
    - apply rects_ok_relabelled; [|done].
      destruct Hrefs as [_ _ Hchange].
      destruct (Hchange Hmode) as (r & Hr & Hlt & _). congruence.
    - apply (rects_ok_kept s); [done|done|done|done|eauto|eauto]. }
  apply (rects_ok_kept s); [done|..].
  - by apply length_heap_same.
  - intros r. apply kept_step; [apply selection_free_rect_id|done|done].
  - apply canvas_next_step.
  - intros p' Hp'. destruct (is_mouse_up e) eqn:Hup.
    + destruct e; try discriminate. by apply on_mouse_up_pending.
    + left. by eapply pending_step.
  - intros t Ht. destruct (is_canvas_click e) eqn:Hclick.
    + destruct e; try discriminate. by apply on_canvas_click_temp.
    + left. by eapply temp_step.
Qed.

(** * Equality of dicts is identity *)

Lemma py_eq_identity s a b :
  rects_ok s → (a < length (heap s))%nat → (b < length (heap s))%nat →
  py_eq s (Some a) (Some b) = bool_decide (a = b).
Proof.
  intros Hs Ha Hb. unfold py_eq. apply bool_decide_ext. split.
  - intros Heq. apply (rects_distinct s Hs); [done|done|]. by rewrite Heq.
  - by intros ->.
Qed.

Lemma py_eq_true s a b :
  rects_ok s → (a < length (heap s))%nat → (b < length (heap s))%nat →
  py_eq s (Some a) (Some b) = true → a = b.
Proof.
  intros Hs Ha Hb. rewrite py_eq_identity by done.
  apply bool_decide_eq_true_1.
Qed.

Lemma py_eq_false s a b : py_eq s (Some a) (Some b) = false → a ≠ b.
Proof. intros H ->. by rewrite py_eq_refl in H. Qed.

(** * The selection and the relationships refer to confirmed boxes *)

Lemma selection_ok_init labels attrs rels :
  selection_ok (init labels attrs rels).
Proof.
  split; simpl; try done; try apply NoDup_nil_2.
  all: intros; exfalso; by eapply elem_of_nil.
Qed.

(** A step that leaves the marks, the confirmed boxes and the selection
    alone, and keeps or drops relationships. *)
Lemma selection_ok_kept s s' :
  selection_ok s →
  (∀ r, selected (deref s' r) = selected (deref s r)) →
  confirmed_bboxes s' = confirmed_bboxes s →
  selected_bbox s' = selected_bbox s →
  (change_label_mode s' = true →
   (change_label_mode s = true ∧ change_bbox s' = change_bbox s)
   ∨ change_bbox s' = selected_bbox s) →
  relationships s' `sublist_of` relationships s →
  selection_ok s'.
Proof.
  intros [H1 H2 H3 H4 H5 H6] Hmark Hconf Hsel Hchange Hrel. split.
  - by rewrite Hconf.
  - rewrite Hconf, Hsel. done.
  - rewrite Hconf. intros [[Hmode ->]| ->]%Hchange; auto.
  - rewrite Hconf, Hsel. intros r Hr. rewrite Hmark. auto.
  - rewrite Hconf. intros a l b Hin. apply H5 with l.
    by eapply elem_of_sublist.
  - by eapply sublist_NoDup.
Qed.

Lemma deselect_other a bbox s :
  a ≠ bbox → deref (_deselect_bbox bbox s) a = deref s a.
Proof.
  intros Hne. unfold _deselect_bbox.
  set (s1 := update bbox (set_selected false) s).
  assert (deref s1 a = deref s a) as <-
    by by apply (deref_update_ne bbox a (set_selected false) s).
  set (s2 := match text_bg_id (deref s1 bbox) with
             | Some _ => _ | None => s1 end).
  assert (deref s2 a = deref s1 a) as <-.
  { subst s2. case_match; [|done].
    by apply (deref_update_ne bbox a (set_text_bg_id None) s1). }
  clearbody s2. by case_match.
Qed.

Lemma selection_ok_deselect bbox s :
  selection_ok s → selected_bbox s = Some bbox →
  selection_ok (_deselect_bbox bbox s).
Proof.
  intros [H1 H2 H3 H4 H5 H6] Hsel. split; autorewrite with frame; try done.
  - rewrite deselect_self by done. done.
  - rewrite deselect_self by done. intros r Hr. split; [|done].
    destruct (decide (r = bbox)) as [->|Hne].
    + by rewrite deselect_unmarks.
    + rewrite deselect_other by done. intros Hm%H4; [|done]. congruence.
Qed.

Lemma selection_ok_select bbox s :
  selection_ok s → selected_bbox s = None →
  bbox ∈ confirmed_bboxes s → (bbox < length (heap s))%nat →
  selection_ok (_select_bbox bbox s).
Proof.
  intros Hs Hsel Hin Hlt.
  destruct (create_bbox_active s || attribute_add_mode s
            || relationship_mode s) eqn:Hmodes.
  { by rewrite select_blocked. }
  destruct Hs as [H1 H2 H3 H4 H5 H6].
  split; autorewrite with frame; try done.
  - rewrite select_selected by done. by intros r [= <-].
  - rewrite select_selected by done. intros r Hr.
    destruct (decide (r = bbox)) as [->|Hne].
    + by rewrite select_marks.
    + rewrite select_other by done. split.
      * intros Hm%H4; [|done]. congruence.
      * intros [= ?]. done.
Qed.

(** * Removing a box *)

Lemma filter_ne_notin (x : ref) (l : list ref) :
  x ∉ l → filter (λ y, y ≠ x) l = l.
Proof.
  induction l as [|y l IH]; [done|]. intros [Hy Hl]%not_elem_of_cons.
  rewrite filter_cons_True by done. by rewrite IH.
Qed.

Lemma remove_bbox_from_spec s x l :
  (∀ y, y ∈ l → py_eq s (Some y) (Some x) = bool_decide (y = x)) →
  NoDup l → x ∈ l →
  remove_bbox_from s x l = Some (filter (λ y, y ≠ x) l).
Proof.
  intros Heq Hnd Hin. induction l as [|y l IH]; [by apply elem_of_nil in Hin|].
  apply NoDup_cons in Hnd as [Hy Hnd]. cbn [remove_bbox_from].
  rewrite Heq by left. case_bool_decide as Hyx.
  - subst y. rewrite filter_cons_False by naive_solver.
    by rewrite filter_ne_notin.
  - rewrite filter_cons_True by done.
    apply elem_of_cons in Hin as [->|Hin]; [done|].
    rewrite IH; [done| |done|done].
    intros z Hz. apply Heq. by right.
Qed.

Lemma py_eq_identity_kept s s1 a b :
  rects_ok s → length (heap s1) = length (heap s) →
  (∀ r, rect_id (deref s1 r) = rect_id (deref s r)) →
  (a < length (heap s))%nat → (b < length (heap s))%nat →
  py_eq s1 (Some a) (Some b) = bool_decide (a = b).
Proof.
  intros Hs Hlen Hrect Ha Hb. unfold py_eq. apply bool_decide_ext. split.
  - intros Heq. apply (rects_distinct s Hs); [done|done|].
    by rewrite <- !Hrect, Heq.
  - by intros ->.
Qed.

Lemma unlinked_length sel s : length (heap (unlinked sel s)) = length (heap s).
Proof.
  unfold unlinked. lazy zeta. case_match; proj_simpl;
    by rewrite ?length_insert.
Qed.

Lemma unlinked_kept {A} (g : bbox → A) sel s r :
  (∀ v b, g (set_text_bg_id v b) = g b) →
  g (deref (unlinked sel s) r) = g (deref s r).
Proof.
  intros Hg. unfold unlinked. lazy zeta. case_match.
  - by rewrite field_update by done.
  - done.
Qed.

Lemma unlinked_relationships sel s :
  relationships (unlinked sel s)
  = List.filter (fun rel => negb (involves s sel rel)) (relationships s).
Proof. unfold unlinked. lazy zeta. by case_match. Qed.

Lemma unlinked_confirmed_bboxes sel s :
  confirmed_bboxes (unlinked sel s) = confirmed_bboxes s.
Proof. unfold unlinked. lazy zeta. by case_match. Qed.

Lemma unlinked_predicates sel s :
  predicates (unlinked sel s)
  = take (length (List.filter (fun rel => negb (involves s sel rel))
                    (relationships s))) <$> predicates s.
Proof. unfold unlinked. lazy zeta. by case_match. Qed.

Lemma new_predicates_aligned s (rels : list (ref * string * ref)) :
  aligned s → (length rels ≤ length (relationships s))%nat →
  match predicates s with
  | Some predicates => Some <$> new_predicates predicates (length rels)
  | None => Some None
  end
  = Some (take (length rels) <$> predicates s).
Proof.
  unfold aligned. intros Haligned Hle.
  destruct (predicates s) as [l|]; [|done]. simpl in *.
  rewrite new_predicates_take by lia. done.
Qed.

(** In a consistent session whose selected box is confirmed,
    [remove_bbox] raises nothing. *)
Lemma remove_bbox_outcome confirm s :
  aligned s → refs_ok s → rects_ok s → NoDup (confirmed_bboxes s) →
  (∀ sel, selected_bbox s = Some sel → sel ∈ confirmed_bboxes s) →
  fst (remove_bbox confirm s) = s
  ∨ ∃ sel,
      selected_bbox s = Some sel ∧ confirm = true
      ∧ fst (remove_bbox confirm s)
        = removed sel (filter (λ y, y ≠ sel) (confirmed_bboxes s)) s
      ∧ ∀ x, raised x ∉ snd (remove_bbox confirm s).
Proof.
  intros Haligned Hrefs Hrects Hnd Hsel. unfold remove_bbox.
  destruct (selected_bbox s) as [sel|] eqn:Hs; [|by left].
  destruct confirm; cbn [negb]; [|by left]. right. exists sel.
  split; [done|]. split; [done|].
  lazy zeta.
  change (predicates (set_relationships ?v s)) with (predicates s).
  change (relationships (set_relationships ?v s)) with v.
  rewrite new_predicates_aligned
    by (done || apply List.filter_length_le).
  match goal with
  | |- context [remove_bbox_from ?S sel _] => change S with (unlinked sel s)
  end.
  rewrite unlinked_confirmed_bboxes.
  rewrite (remove_bbox_from_spec (unlinked sel s) sel (confirmed_bboxes s)).
  - split; [reflexivity|].
    cbn [snd]. intros x [Hx|Hx%elem_of_nil]%elem_of_cons; done.
  - intros y Hy. apply (py_eq_identity_kept s); [done|..].
    + apply unlinked_length.
    + intros r. by apply unlinked_kept.
    + destruct Hrefs as [Hconf _ _]. rewrite Forall_forall in Hconf. auto.
    + by apply (selected_valid s).
  - done.
  - by apply Hsel.
Qed.

(** * The selection and the relationships refer to confirmed boxes: the
    proof *)

Lemma sublist_List_filter {A} (f : A → bool) l :
  List.filter f l `sublist_of` l.
Proof.
  induction l as [|x l IH]; simpl; [done|].
  destruct (f x); by constructor.
Qed.

Lemma toggled_selection_ok x y s s1 :
  refs_ok s → selection_ok s → toggled x y s s1 → selection_ok s1.
Proof.
  intros Hrefs Hs [|clicked Hsel Hhit|clicked Hsel Hmodes]; [done|..].
  - apply hit_confirmed in Hhit as [?|Hin]; [congruence|].
    apply selection_ok_select; [done|done|done|].
    destruct Hrefs as [Hconf _ _]. rewrite Forall_forall in Hconf. auto.
  - by apply selection_ok_deselect.
Qed.

Lemma toggled_relationship x y s s1 :
  modes_ok s → toggled x y s s1 → relationship_mode s1 = true → s1 = s.
Proof.
  intros [Hrel _] [|clicked Hsel Hhit|clicked Hsel Hmodes]; [done|..].
  - rewrite select_relationship_mode. intros (r & ? & _)%Hrel. congruence.
  - rewrite deselect_relationship_mode. intros Hmode.
    rewrite Hmode in Hmodes. by rewrite orb_true_r in Hmodes.
Qed.

Lemma target_confirmed s x y target :
  _get_confirmed_second_bbox_relationship s x y = Some target →
  target ∈ confirmed_bboxes s.
Proof.
  unfold _get_confirmed_second_bbox_relationship.
  by intros [?|?]%smallest_fold_elem.
Qed.

Ltac kept_by s :=
  apply (selection_ok_kept s);
  [ assumption
  | intros ?; deref_norm; try reflexivity
  | proj_simpl; autorewrite with frame; try done;
    try (intros ?; left; by split) .. ].

Lemma on_canvas_click_selection_ok x y confirm s :
  consistent s → selection_ok s →
  selection_ok (fst (on_canvas_click x y confirm s)).
Proof.
  intros [Hmodes Hrefs _ _] Hs.
  destruct (on_canvas_click_outcome x y confirm s)
    as [ | ? ? ? | s1 ? Ht | s1 ? Ht ? | s1 source target ? Ht Hmode Hsource
                                          Htarget Hself Hdup ].
  - done.
  - by kept_by s.
  - by apply (toggled_selection_ok x y s).
  - assert (selection_ok s1) as Hs1 by by apply (toggled_selection_ok x y s).
    by kept_by s1.
  - apply (toggled_relationship x y s s1 Hmodes Ht) in Hmode as Heq.
    subst s1. clear Ht.
    destruct Hs as [H1 H2 H3 H4 H5 H6]. split; proj_simpl; try done.
    + intros a l b [Hin|Hin%list_elem_of_singleton]%elem_of_app; [eauto|].
      injection Hin as -> -> ->.
      destruct (relationship_source s Hmodes Hmode) as (r & Hsel & Hr).
      split_and!.
      * apply H2. congruence.
      * by apply (target_confirmed s x y).
      * intros ->. by rewrite py_eq_refl in Hself.
    + apply NoDup_app. split_and!; [done| |apply NoDup_singleton].
      intros rel Hin ->%list_elem_of_singleton.
      rewrite (is_duplicate_elem s source target) in Hdup; done.
Qed.

Lemma on_labeled_select_selection_ok selection s :
  refs_ok s → rects_ok s → selection_ok s →
  selection_ok (fst (on_labeled_select selection s)).
Proof.
  intros Hrefs Hrects Hs.
  assert (∀ r, r ∈ confirmed_bboxes s → (r < length (heap s))%nat) as Hvalid.
  { destruct Hrefs as [Hconf _ _]. rewrite Forall_forall in Hconf. auto. }
  destruct (on_labeled_select_outcome selection s)
    as [ | found Hmodes Hin Heq | found Hmodes Hin Heq ].
  - done.
  - destruct (selected_bbox s) as [sel|] eqn:Hsel; [|done].
    apply py_eq_true in Heq as ->; [|done|by apply (selected_valid s)|auto].
    by apply selection_ok_deselect.
  - destruct (selected_bbox s) as [sel|] eqn:Hsel.
    + apply selection_ok_select.
      * by apply selection_ok_deselect.
      * by apply deselect_self.
      * by rewrite deselect_confirmed_bboxes.
      * rewrite deselect_length. auto.
    + apply selection_ok_select; auto.
Qed.

Lemma show_context_menu_selection_ok command s :
  consistent s → rects_ok s → selection_ok s →
  selection_ok (fst (show_context_menu command s)).
Proof.
  intros [Hmodes Hrefs Haligned _] Hrects Hs. unfold show_context_menu.
  destruct (selected_bbox s) as [sel|] eqn:Hsel; [|done].
  destruct (_ || _ || _) eqn:Hoff; [done|].
  apply orb_false_elim in Hoff as [[Hattr Hrel]%orb_false_elim Hchange].
  destruct command.
  - unfold add_attribute. field_cases; try done; kept_by s; auto.
  - unfold add_relationship. field_cases; try done; kept_by s; auto.
  - unfold change_label. field_cases; try done; kept_by s; auto.
    all: congruence.
  - destruct (remove_bbox_outcome confirm s) as [->|(sel' & Hsel' & -> & -> & _)];
      [done|done|done|by destruct Hs|by destruct Hs|done|].
    assert (sel' = sel) as -> by congruence.
    destruct Hs as [H1 H2 H3 H4 H5 H6]. unfold removed.
    split; proj_simpl; rewrite ?unlinked_relationships; try done.
    + by apply NoDup_filter.
    + unfold unlinked. lazy zeta. case_match; proj_simpl; congruence.
    + intros r [Hne Hin]%list_elem_of_filter. deref_norm.
      rewrite (unlinked_kept selected) by done. split; [|done].
      intros Hm%H4; [|done]. congruence.
    + intros a l b Hin%list_elem_of_In.
      apply filter_In in Hin as [Hin%list_elem_of_In Hinv].
      destruct (H5 a l b Hin) as (Ha & Hb & Hab).
      apply negb_true_iff, orb_false_elim in Hinv as [Ha'%py_eq_false
                                                        Hb'%py_eq_false].
      split_and!; [| |done]; by apply list_elem_of_filter.
    + eapply sublist_NoDup; [done|]. apply sublist_List_filter.
Qed.

Lemma attributes_kept {A} (g : bbox → A) s r :
  (∀ v b, g (set_attributes v b) = g b) →
  (∀ selection result add_more,
     g (deref (fst (on_attr_double_click selection result add_more s)) r)
     = g (deref s r))
  ∧ (∀ selection confirm,
       g (deref (fst (remove_attribute selection confirm s)) r)
       = g (deref s r)).
Proof.
  intros Hg. split; intros.
  - unfold on_attr_double_click. field_cases; deref_norm;
      rewrite ?field_update by (intros; apply Hg); done.
  - unfold remove_attribute. field_cases; deref_norm;
      rewrite ?field_update by (intros; apply Hg); done.
Qed.

Lemma rebind_identity s change a l b :
  (py_eq s (Some a) (Some change) = true → a = change) →
  (py_eq s (Some b) (Some change) = true → b = change) →
  rebind s change (a, l, b) = (a, l, b).
Proof.
  intros Ha Hb. unfold rebind.
  destruct (py_eq s (Some a) (Some change)) eqn:Ea,
    (py_eq s (Some b) (Some change)) eqn:Eb.
  all: rewrite ?Ha, ?Hb by done; try done.
  all: by rewrite ?Ha, ?Hb in * by done.
Qed.

Lemma relabelled_relationships label change s :
  rects_ok s → (change < length (heap s))%nat →
  (∀ a l b, (a, l, b) ∈ relationships s →
            (a < length (heap s))%nat ∧ (b < length (heap s))%nat) →
  relationships (relabelled label change s) = relationships s.
Proof.
  intros Hrects Hchange Hvalid.
  destruct (relabelled_deref label change s Hchange) as (H1 & H2 & H3).
  unfold relabelled in *. lazy zeta in *.
  set (s4 := update change (set_label_str label) _) in *.
  set (s5 := match canvas_text s4 !! _ with Some _ => _ | None => s4 end)
    in *.
  assert (heap s5 = heap s4) as Hheap by (subst s5; by case_match).
  assert (relationships s5 = relationships s) as Hrels
    by (subst s5 s4; by case_match).
  assert (length (heap s5) = length (heap s)) as Hlen.
  { rewrite <- H3. unfold update_labeled_view, update_relationship_view.
    by proj_simpl. }
  assert (∀ r, rect_id (deref s5 r) = rect_id (deref s r)) as Hrect.
  { intros r.
    match type of H1 with
    | deref ?F _ = _ =>
        assert (deref s5 r = deref F r) as -> by reflexivity
    end.
    destruct (decide (r = change)) as [->|Hne].
    - by rewrite H1.
    - by rewrite H2. }
  clearbody s5 s4. unfold update_labeled_view, update_relationship_view.
  proj_simpl. rewrite Hrels.
  rewrite <- (map_id (relationships s)) at 2.
  apply map_ext_in. intros [[a l] b] Hin%list_elem_of_In.
  destruct (Hvalid a l b Hin) as [Ha Hb].
  apply rebind_identity.
  - rewrite (py_eq_identity_kept s s5) by done. apply bool_decide_eq_true_1.
  - rewrite (py_eq_identity_kept s s5) by done. apply bool_decide_eq_true_1.
Qed.

Lemma relabelled_confirmed_bboxes label change s :
  confirmed_bboxes (relabelled label change s) = confirmed_bboxes s.
Proof. unfold relabelled. field_cases; done. Qed.

Lemma relabelled_selected_bbox label change s :
  selected_bbox (relabelled label change s) = selected_bbox s.
Proof. unfold relabelled. field_cases; done. Qed.

Lemma relabelled_change_label_mode label change s :
  change_label_mode (relabelled label change s) = false.
Proof. unfold relabelled. field_cases; done. Qed.

Lemma confirmed_valid_elem s r :
  refs_ok s → r ∈ confirmed_bboxes s → (r < length (heap s))%nat.
Proof. intros [H _ _]. rewrite Forall_forall in H. auto. Qed.

Lemma on_label_select_selection_ok selection confirm s :
  refs_ok s → rects_ok s → selection_ok s →
  selection_ok (fst (on_label_select selection confirm s)).
Proof.
  intros Hrefs Hrects Hs.
  destruct (on_label_select_outcome selection confirm s)
    as [|label pending Hmode Hp|label change Hmode Hc|label Hmode Hc].
  - done.
  - destruct Hs as [H1 H2 H3 H4 H5 H6]. split.
    + rewrite confirm_confirmed_bboxes. apply NoDup_app.
      split_and!; [done| |apply NoDup_singleton].
      intros r Hr%(confirmed_valid_elem s) ->%list_elem_of_singleton;
        [lia|done].
    + rewrite confirm_confirmed_bboxes, confirm_selected_bbox.
      intros r Hr. apply elem_of_app. auto.
    + change (change_label_mode (fst (confirm_label_assignment _ _ _ s)))
        with (change_label_mode s).
      congruence.
    + rewrite confirm_confirmed_bboxes, confirm_selected_bbox.
      intros r [Hr| ->%list_elem_of_singleton]%elem_of_app.
      * rewrite confirm_deref_old by by apply confirmed_valid_elem.
        auto.
      * rewrite confirm_deref_new. simpl. split; [done|].
        intros Hsel%(selected_valid s Hrefs). lia.
    + rewrite confirm_confirmed_bboxes, confirm_relationships.
      intros a l b (Ha & Hb & Hab)%H5. rewrite !elem_of_app. auto.
    + by rewrite confirm_relationships.
  - assert (change < length (heap s))%nat as Hchange.
    { destruct Hrefs as [_ _ Hch].
      destruct (Hch Hmode) as (r & Hr & Hlt & _). congruence. }
    destruct (relabelled_deref label change s Hchange) as (Hd1 & Hd2 & _).
    apply (selection_ok_kept s); [done|..].
    + intros r. destruct (decide (r = change)) as [->|Hne].
      * by rewrite Hd1.
      * by rewrite Hd2.
    + apply relabelled_confirmed_bboxes.
    + apply relabelled_selected_bbox.
    + by rewrite relabelled_change_label_mode.
    + rewrite relabelled_relationships; [done|done|done|].
      intros a l b (Ha & Hb & _)%(edges_confirmed s Hs).
      split; by apply confirmed_valid_elem.
  - by kept_by s.
Qed.

Lemma open_image_selection_ok file_path outcome s :
  selection_ok s → selection_ok (fst (open_image file_path outcome s)).
Proof.
  intros Hs. unfold open_image.
  field_cases; try done.
  all: split; proj_simpl; try done; try apply NoDup_nil_2.
  all: intros; exfalso; by eapply elem_of_nil.
Qed.

Lemma selection_ok_step s e :
  consistent s → rects_ok s → selection_ok s → selection_ok (step s e).
Proof.
  intros Hcons Hrects Hs. pose proof Hcons as [Hmodes Hrefs Haligned _].
  destruct (is_quiet e) eqn:He.
  { pose proof (quiet_relationships _ _ (is_quiet_step e s He)) as Hrel.
    destruct (is_quiet_step e s He). apply (selection_ok_kept s); try done.
    - intros r. by rewrite (deref_ext s).
    - intros ?; left; split; congruence.
    - by rewrite Hrel. }
  unfold step. destruct e; try discriminate; cbn [handle].
  - by apply on_canvas_click_selection_ok.
  - by apply show_context_menu_selection_ok.
  - by apply on_label_select_selection_ok.
  - apply (selection_ok_kept s); [done|..].
    + intros r. by apply (attributes_kept selected s r).
    + unfold on_attr_double_click. field_cases; done.
    + unfold on_attr_double_click. field_cases; done.
    + unfold on_attr_double_click. field_cases; auto.
    + unfold on_attr_double_click. field_cases; done.
  - by apply on_labeled_select_selection_ok.
  - unfold show_attribute_context_menu. case_match; [done|].
    apply (selection_ok_kept s); [done|..].
    + intros r. by apply (attributes_kept selected s r).
    + unfold remove_attribute. field_cases; done.
    + unfold remove_attribute. field_cases; done.
    + unfold remove_attribute. field_cases; auto.
    + unfold remove_attribute. field_cases; done.
  - unfold show_relationship_context_menu, remove_relationship.
    field_cases; try done; kept_by s; apply sublist_delete.
  - by apply open_image_selection_ok.
  - unfold toggle_create_bbox. field_cases; try done; by kept_by s.
Qed.

(** * Instance ids in use: no tag twice *)

Lemma tags_ok_init labels attrs rels : tags_ok (init labels attrs rels).
Proof.
  split; simpl.
  - intros l. unfold count. simpl. by rewrite lookup_empty.
  - intros; exfalso; by eapply elem_of_nil.
  - intros; exfalso; by eapply elem_of_nil.
Qed.

Lemma tags_ok_kept s s' :
  tags_ok s →
  (∀ r, label_str (deref s' r) = label_str (deref s r)) →
  (∀ r, id (deref s' r) = id (deref s r)) →
  confirmed_bboxes s' ⊆ confirmed_bboxes s →
  label_counts s' = label_counts s →
  tags_ok s'.
Proof.
  intros [H1 H2 H3] Hlabel Hid Hconf Hcounts.
  assert (∀ l, count s' l = count s l) as Hcount
    by (intros l; unfold count; by rewrite Hcounts).
  split.
  - intros l. by rewrite Hcount.
  - intros r Hr%Hconf. rewrite Hlabel, Hid, Hcount. auto.
  - intros a b Ha%Hconf Hb%Hconf. rewrite !Hlabel, !Hid. auto.
Qed.

Lemma confirmed_bboxes_step s e :
  is_label_double_click e = false →
  confirmed_bboxes (step s e) ⊆ confirmed_bboxes s.
Proof.
  intros He. destruct (is_quiet e) eqn:Hq.
  { by rewrite (quiet_confirmed_bboxes _ _ (is_quiet_step e s Hq)). }
  unfold step. destruct e; try discriminate; cbn [handle].
  - apply on_canvas_click_mild.
  - unfold show_context_menu.
    destruct (selected_bbox s); [|done]. case_match; [done|].
    destruct command.
    + unfold add_attribute. field_cases; done.
    + unfold add_relationship. field_cases; done.
    + unfold change_label. field_cases; done.
    + apply remove_bbox_mild.
  - apply on_attr_double_click_mild.
  - apply on_labeled_select_mild.
  - unfold show_attribute_context_menu. case_match; [done|].
    apply remove_attribute_mild.
  - unfold show_relationship_context_menu, remove_relationship.
    field_cases; done.
  - apply open_image_mild.
  - unfold toggle_create_bbox. field_cases; done.
Qed.

Lemma count_insert s l v l' (s' : state) :
  label_counts s' = <[l := v]> (label_counts s) →
  count s' l' = if decide (l = l') then v else count s l'.
Proof.
  intros Hcounts. unfold count. rewrite Hcounts.
  destruct (decide (l = l')) as [->|Hne].
  - by rewrite lookup_insert_eq.
  - by rewrite lookup_insert_ne.
Qed.

Lemma count_insert_le s l l' (s' : state) :
  label_counts s' = <[l := count s l + 1]> (label_counts s) →
  count s l' ≤ count s' l'.
Proof.
  intros Hcounts. rewrite (count_insert s l (count s l + 1) l' s' Hcounts).
  destruct (decide (l = l')) as [->|]; lia.
Qed.

Lemma relabelled_label_counts label change s :
  label_counts (relabelled label change s)
  = <[label := count s label + 1]> (label_counts s).
Proof. unfold relabelled. field_cases; done. Qed.

Lemma tags_ok_confirm label pending s :
  refs_ok s → tags_ok s →
  tags_ok (fst (confirm_label_assignment label true pending s)).
Proof.
  intros Hrefs [H1 H2 H3].
  set (s' := fst (confirm_label_assignment label true pending s)).
  pose proof (confirm_label_counts label pending s) as Hcounts.
  fold s' in Hcounts.
  assert (∀ r, r ∈ confirmed_bboxes s' →
               r ∈ confirmed_bboxes s ∧ deref s' r = deref s r
               ∨ r = length (heap s)
                 ∧ label_str (deref s' r) = label
                 ∧ id (deref s' r) = count s label + 1) as Hcase.
  { intros r. subst s'. rewrite confirm_confirmed_bboxes.
    intros [Hr| ->%list_elem_of_singleton]%elem_of_app.
    - left. split; [done|].
      apply confirm_deref_old. by apply confirmed_valid_elem.
    - right. by rewrite confirm_deref_new. }
  split.
  - intros l. pose proof (count_insert_le s label l s' Hcounts).
    specialize (H1 l). lia.
  - intros r [[Hr ->]|(-> & -> & ->)]%Hcase.
    + pose proof (count_insert_le s label (label_str (deref s r)) s' Hcounts).
      specialize (H2 r Hr). lia.
    + rewrite (count_insert s label _ label s' Hcounts).
      rewrite decide_True by done. specialize (H1 label). lia.
  - intros a b [[Ha ->]|(-> & La & Ia)]%Hcase [[Hb ->]|(-> & Lb & Ib)]%Hcase;
      rewrite ?La, ?Ia, ?Lb, ?Ib; try done.
    + by apply H3.
    + intros Hl Hi. specialize (H2 a Ha). rewrite Hl in H2. lia.
    + intros Hl Hi. specialize (H2 b Hb). rewrite <- Hl in H2. lia.
Qed.

Lemma tags_ok_relabelled label change s :
  (change < length (heap s))%nat → tags_ok s →
  tags_ok (relabelled label change s).
Proof.
  intros Hchange [H1 H2 H3].
  set (s' := relabelled label change s).
  pose proof (relabelled_label_counts label change s) as Hcounts.
  fold s' in Hcounts.
  destruct (relabelled_deref label change s Hchange) as (Hd1 & Hd2 & _).
  fold s' in Hd1, Hd2.
  assert (∀ r, deref s' r = deref s r ∧ r ≠ change
               ∨ r = change
                 ∧ label_str (deref s' r) = label
                 ∧ id (deref s' r) = count s label + 1) as Hcase.
  { intros r. destruct (decide (r = change)) as [->|Hne].
    - right. by rewrite Hd1.
    - left. by rewrite Hd2. }
  assert (confirmed_bboxes s' = confirmed_bboxes s) as Hconf
    by apply relabelled_confirmed_bboxes.
  split.
  - intros l. pose proof (count_insert_le s label l s' Hcounts).
    specialize (H1 l). lia.
  - rewrite Hconf. intros r Hr.
    destruct (Hcase r) as [[-> _]|(-> & -> & ->)].
    + pose proof (count_insert_le s label (label_str (deref s r)) s' Hcounts).
      specialize (H2 r Hr). lia.
    + rewrite (count_insert s label _ label s' Hcounts).
      rewrite decide_True by done. specialize (H1 label). lia.
  - rewrite Hconf. intros a b Ha Hb.
    destruct (Hcase a) as [[-> ?]|(-> & La & Ia)],
      (Hcase b) as [[-> ?]|(-> & Lb & Ib)];
      rewrite ?La, ?Ia, ?Lb, ?Ib; try done.
    + by apply H3.
    + intros Hl Hi. specialize (H2 a Ha). rewrite Hl in H2. lia.
    + intros Hl Hi. specialize (H2 b Hb). rewrite <- Hl in H2. lia.
Qed.

Lemma selection_free_name : selection_free (λ b, (label_str b, id b)).
Proof. by intros []. Qed.

Lemma tags_ok_step s e : refs_ok s → tags_ok s → tags_ok (step s e).
Proof.
  intros Hrefs Hs.
  destruct (is_label_double_click e) eqn:Hlabel.
  { destruct e; try discriminate. unfold step. cbn [handle].
    destruct (on_label_select_outcome selection confirm s)
      as [|label pending Hmode Hp|label change Hmode Hc|label Hmode Hc].
    - done.
    - by apply tags_ok_confirm.
    - apply tags_ok_relabelled; [|done].
      destruct Hrefs as [_ _ Hchange].
      destruct (Hchange Hmode) as (r & Hr & Hlt & _). congruence.
    - destruct Hs as [H1 H2 H3].
      set (s' := set_label_counts _ s).
      assert (label_counts s'
              = <[label := count s label + 1]> (label_counts s)) as Hcounts
        by done.
      split.
      + intros l. pose proof (count_insert_le s label l s' Hcounts).
        specialize (H1 l). lia.
      + intros r Hr. change (deref s' r) with (deref s r).
        pose proof (count_insert_le s label (label_str (deref s r)) s'
                      Hcounts).
        specialize (H2 r Hr). lia.
      + exact H3. }
  destruct (keeps_image e) eqn:Hkeep.
  - apply (tags_ok_kept s); [done|..].
    + intros r. apply (kept_step label_str); [by intros []|done|done].
    + intros r. apply (kept_step id); [by intros []|done|done].
    + by apply confirmed_bboxes_step.
    + by apply label_counts_step.
  - destruct e; try discriminate. unfold step. cbn [handle].
    simpl in Hkeep. unfold open_image. rewrite Hkeep.
    assert (∀ s', confirmed_bboxes s' = [] → label_counts s' = ∅ →
                  tags_ok s') as Hempty.
    { intros s' Hconf Hcounts. split.
      - intros l. unfold count. by rewrite Hcounts, lookup_empty.
      - rewrite Hconf. intros; exfalso; by eapply elem_of_nil.
      - rewrite Hconf. intros; exfalso; by eapply elem_of_nil. }
    destruct outcome; apply Hempty; reflexivity.
Qed.

(** * Tags: [label:id] determines the label and the id *)

Lemma append_nil s : "" +:+ s = s.
Proof. reflexivity. Qed.

Lemma append_cons c s t : String c s +:+ t = String c (s +:+ t).
Proof. reflexivity. Qed.

Lemma pretty_N_go_colon_free x s :
  colon_free s → colon_free (pretty_N_go x s).
Proof.
  revert s. induction (N.lt_wf_0 x) as [x _ IH]; intros s Hs.
  assert (x = 0 ∨ 0 < x)%N as [->|Hx] by lia.
  - by rewrite pretty_N_go_0.
  - rewrite pretty_N_go_step by done. apply IH.
    + by apply N.div_lt.
    + split; [|done]. unfold pretty_N_char, colon. by repeat case_match.
Qed.

Lemma pretty_N_colon_free (x : N) : colon_free (pretty x).
Proof.
  unfold pretty, pretty_N. case_decide; [by split|].
  by apply pretty_N_go_colon_free.
Qed.

Lemma pretty_Z_colon_free (x : Z) : colon_free (pretty x).
Proof.
  destruct x as [|p|p]; unfold pretty, pretty_Z.
  - by split.
  - apply pretty_N_colon_free.
  - rewrite append_cons, append_nil. split; [done|].
    apply pretty_N_colon_free.
Qed.

Lemma colon_free_app l p : colon_free (l +:+ ":" +:+ p) → False.
Proof.
  induction l as [|c l IH]; rewrite ?append_cons, ?append_nil.
  - by intros [? _].
  - intros [_ ?]. auto.
Qed.

Lemma tag_split l1 p1 l2 p2 :
  colon_free p1 → colon_free p2 →
  l1 +:+ ":" +:+ p1 = l2 +:+ ":" +:+ p2 → l1 = l2 ∧ p1 = p2.
Proof.
  intros H1 H2. revert l2.
  induction l1 as [|c1 l1 IH]; intros [|c2 l2] Heq;
    rewrite ?append_cons, ?append_nil in Heq.
  - by injection Heq as ->.
  - injection Heq as <- ->. by apply colon_free_app in H1.
  - injection Heq as -> <-. by apply colon_free_app in H2.
  - injection Heq as -> Heq. by destruct (IH l2 Heq) as [-> ->].
Qed.

Lemma tag_inj l1 i1 l2 i2 : tag l1 i1 = tag l2 i2 → l1 = l2 ∧ i1 = i2.
Proof.
  unfold tag. intros [-> Hp]%tag_split; try apply pretty_Z_colon_free.
  split; [done|]. by apply (inj pretty).
Qed.

(** * The invariants together *)

Lemma sound_init labels attrs rels : sound (init labels attrs rels).
Proof.
  split; [apply consistent_init|apply rects_ok_init|apply selection_ok_init
         |apply tags_ok_init].
Qed.

Lemma sound_step s e : sound s → sound (step s e).
Proof.
  intros [H1 H2 H3 H4]. split.
  - by apply consistent_step.
  - apply rects_ok_step; [apply H1|done].
  - by apply selection_ok_step.
  - apply tags_ok_step; [apply H1|done].
Qed.

Lemma reachable_sound s : reachable s → sound s.
Proof. induction 1; [apply sound_init|by apply sound_step]. Qed.

Lemma sound_valid s r :
  sound s → r ∈ confirmed_bboxes s → (r < length (heap s))%nat.
Proof. intros [[_ Hrefs _ _] _ _ _]. by apply confirmed_valid_elem. Qed.

(** On confirmed boxes, the equality of dicts that [==], [list.remove]
    and [list.index] use is identity: two different confirmed boxes are
    never equal, since each has a canvas rectangle of its own. *)
Theorem dict_equality_is_identity s a b :
  reachable s →
  a ∈ confirmed_bboxes s → b ∈ confirmed_bboxes s →
  (py_eq s (Some a) (Some b) = true ↔ a = b)
  ∧ (a ≠ b → rect_id (deref s a) ≠ rect_id (deref s b)).
Proof.
  intros Hs%reachable_sound Ha%(sound_valid s) Hb%(sound_valid s);
    [|done|done].
  split.
  - rewrite py_eq_identity by (done || apply Hs).
    by rewrite bool_decide_eq_true.
  - intros Hne Heq. apply Hne.
    by apply (rects_distinct s (sound_rects s Hs)).
Qed.

Lemma dict_equality_is_identity_witness :
  let s := run street four_boxes in
  py_eq s (Some 0%nat) (Some 2%nat) = true ↔ 0%nat = 2%nat.
Proof.
  intros s.
  refine (proj1 (dict_equality_is_identity s 0%nat 2%nat _ _ _)).
  - apply reachable_run, reachable_street.
  - apply (bool_decide_unpack _). by vm_compute.
  - apply (bool_decide_unpack _). by vm_compute.
Defined.

(** No two confirmed boxes show the same tag [label:id], and the
    instance id of a confirmed box lies between 1 and the counter of its
    label. *)
Theorem tags_are_unique s :
  reachable s →
  NoDup (map (bbox_tag s) (confirmed_bboxes s))
  ∧ ∀ r, r ∈ confirmed_bboxes s →
         1 ≤ id (deref s r) ≤ count s (label_str (deref s r)).
Proof.
  intros [_ _ Hsel Htags]%reachable_sound. split.
  - apply (NoDup_fmap_2_strong (bbox_tag s)); [|apply Hsel].
    intros a b Ha Hb [Hl Hi]%tag_inj. by apply (tags_distinct s Htags).
  - apply Htags.
Qed.

Lemma tags_are_unique_witness :
  NoDup (map (bbox_tag (run street two_edges))
           (confirmed_bboxes (run street two_edges))).
Proof.
  refine (proj1 (tags_are_unique (run street two_edges) _)).
  apply reachable_run, reachable_street.
Defined.

(** The selected box is a confirmed box, it is the only confirmed box
    marked [selected], no box is confirmed twice, and the box whose
    label is being changed is confirmed. *)
Theorem selected_box_is_confirmed_and_marked s :
  reachable s →
  NoDup (confirmed_bboxes s)
  ∧ (∀ r, selected_bbox s = Some r → r ∈ confirmed_bboxes s)
  ∧ (∀ r, r ∈ confirmed_bboxes s →
          selected (deref s r) = true ↔ selected_bbox s = Some r)
  ∧ (change_label_mode s = true →
     ∃ r, change_bbox s = Some r ∧ r ∈ confirmed_bboxes s).
Proof.
  intros [[_ Hrefs _ _] _ [H1 H2 H3 H4 _ _] _]%reachable_sound.
  split_and!; try done.
  intros Hmode. destruct (change_valid s Hrefs Hmode) as (r & Hr & _).
  exists r. split; [done|]. by apply H3.
Qed.

Lemma selected_box_is_confirmed_and_marked_witness :
  let s := run street two_edges in
  selected (deref s 0%nat) = true ↔ selected_bbox s = Some 0%nat.
Proof.
  intros s.
  refine (proj1 (proj2 (proj2 (selected_box_is_confirmed_and_marked s _)))
            0%nat _).
  - apply reachable_run, reachable_street.
  - apply (bool_decide_unpack _). by vm_compute.
Defined.

(** Every relationship joins two different confirmed boxes, and no triple
    (source, predicate, target) is stored twice. *)
Theorem relationships_join_confirmed_boxes s :
  reachable s →
  NoDup (relationships s)
  ∧ ∀ source rel_str target,
      (source, rel_str, target) ∈ relationships s →
      source ∈ confirmed_bboxes s ∧ target ∈ confirmed_bboxes s
      ∧ source ≠ target.
Proof.
  intros [_ _ [_ _ _ _ H5 H6] _]%reachable_sound. by split.
Qed.

Lemma relationships_join_confirmed_boxes_witness :
  NoDup (relationships (run street two_edges)).
Proof.
  refine (proj1 (relationships_join_confirmed_boxes (run street two_edges) _)).
  apply reachable_run, reachable_street.
Defined.

(** * One gesture at a time *)

Lemma gestures_ok_init labels attrs rels :
  gestures_ok (init labels attrs rels).
Proof. by split. Qed.

Lemma gestures_ok_kept s s' :
  gestures_ok s →
  attribute_add_mode s' = attribute_add_mode s →
  relationship_mode s' = relationship_mode s →
  change_label_mode s' = change_label_mode s →
  labeled_listbox_state s' = labeled_listbox_state s →
  (attribute_add_mode s || relationship_mode s = true →
   is_Some (selected_bbox s) → is_Some (selected_bbox s')) →
  gestures_ok s'.
Proof.
  intros [H1 H2 H3 H4 H5] Ha Hr Hc Hl Hsel.
  split; rewrite ?Ha, ?Hr, ?Hc, ?Hl; auto.
Qed.

Lemma gestures_ok_off s' :
  attribute_add_mode s' = false → relationship_mode s' = false →
  change_label_mode s' = false → gestures_ok s'.
Proof. intros Ha Hr Hc. split; rewrite ?Ha, ?Hr, ?Hc; done. Qed.

Lemma quiet_gestures s e :
  is_quiet e = true →
  attribute_add_mode (step s e) = attribute_add_mode s
  ∧ labeled_listbox_state (step s e) = labeled_listbox_state s.
Proof.
  intros He. unfold step. destruct e; try discriminate; cbn [handle];
    try done.
  - unfold on_mouse_up. field_cases; done.
  - unfold on_handle_drag. field_cases; done.
  - unfold on_relationship_selected. field_cases; done.
  - unfold import_label_list, import_list. field_cases; done.
  - unfold import_attribute_list, import_list. field_cases; done.
  - unfold import_relationship_list, import_list. field_cases; done.
Qed.

Lemma select_gestures_ok bbox s :
  gestures_ok s → gestures_ok (_select_bbox bbox s).
Proof.
  intros Hs.
  destruct (create_bbox_active s || attribute_add_mode s
            || relationship_mode s) eqn:Hmodes.
  { by rewrite select_blocked. }
  apply (gestures_ok_kept s); autorewrite with frame; try done.
  intros _ _. by rewrite select_selected.
Qed.

Lemma deselect_gestures_ok bbox s :
  attribute_add_mode s || relationship_mode s = false →
  gestures_ok s → gestures_ok (_deselect_bbox bbox s).
Proof.
  intros Hoff Hs.
  apply (gestures_ok_kept s); autorewrite with frame; try done.
  by rewrite Hoff.
Qed.

Lemma leave_relationship_gestures_ok s :
  gestures_ok s → relationship_mode s = true →
  ∀ s', attribute_add_mode s' = attribute_add_mode s →
        change_label_mode s' = change_label_mode s →
        relationship_mode s' = false →
        gestures_ok s'.
Proof.
  intros [H1 _ H3 _ _] Hmode s' Ha Hc Hr.
  rewrite Hmode in H1, H3. rewrite andb_true_r in H1. simpl in H3.
  apply gestures_ok_off; congruence.
Qed.

Lemma on_canvas_click_gestures_ok x y confirm s :
  gestures_ok s → gestures_ok (fst (on_canvas_click x y confirm s)).
Proof.
  intros Hs.
  assert (∀ s1, toggled x y s s1 → gestures_ok s1) as Htoggled.
  { intros s1 [|clicked Hsel Hhit|clicked Hsel Hmodes]; [done|..].
    - by apply select_gestures_ok.
    - apply deselect_gestures_ok; [|done].
      by apply orb_false_elim in Hmodes as [-> _]. }
  destruct (on_canvas_click_outcome x y confirm s)
    as [ | ? ? ? | s1 ? Ht | s1 ? Ht Hmode | s1 source target ? Ht Hmode ? ? ? ? ].
  - done.
  - by apply (gestures_ok_kept s).
  - by apply Htoggled.
  - by apply (leave_relationship_gestures_ok s1); [apply Htoggled|..].
  - by apply (leave_relationship_gestures_ok s1); [apply Htoggled|..].
Qed.

Lemma gestures_ok_step s e :
  modes_ok s → gestures_ok s → gestures_ok (step s e).
Proof.
  intros Hmodes Hs. destruct (is_quiet e) eqn:He.
  { destruct (is_quiet_step e s He), (quiet_gestures s e He).
    apply (gestures_ok_kept s); try done. congruence. }
  unfold step. destruct e; try discriminate; cbn [handle].
  - by apply on_canvas_click_gestures_ok.
  - unfold show_context_menu.
    destruct (selected_bbox s) as [sel|] eqn:Hsel; [|done].
    destruct (_ || _ || _) eqn:Hoff; [done|].
    apply orb_false_elim in Hoff as [[Hattr Hrel]%orb_false_elim Hchange].
    destruct command.
    + unfold add_attribute. field_cases; try done.
      split; proj_simpl; rewrite ?Hrel, ?Hchange, ?Hsel; done.
    + unfold add_relationship. field_cases; try done.
      split; proj_simpl; rewrite ?Hattr, ?Hchange, ?Hsel; done.
    + unfold change_label. field_cases; try done.
      split; proj_simpl; rewrite ?Hattr, ?Hrel, ?Hsel; done.
    + apply gestures_ok_off;
        [rewrite <- Hattr|rewrite <- Hrel|rewrite <- Hchange];
        unfold remove_bbox; field_cases; done.
  - destruct (on_label_select_outcome selection confirm s)
      as [|label pending Hmode Hp|label change Hmode Hc|label Hmode Hc].
    + done.
    + by apply (gestures_ok_kept s).
    + destruct Hs as [_ H2 H3 _ _]. rewrite Hmode in H2, H3.
      rewrite andb_true_r in H2, H3.
      apply gestures_ok_off; [rewrite <- H2|rewrite <- H3|];
        unfold relabelled; field_cases; done.
    + by apply (gestures_ok_kept s).
  - unfold on_attr_double_click.
    destruct (attribute_add_mode s) eqn:Hattr; cbn [negb]; [|done].
    assert (gestures_ok (leave_attribute_mode s)) as Hleave.
    { destruct Hs as [H1 H2 _ _ _]. rewrite Hattr in H1, H2.
      simpl in H1, H2. by apply gestures_ok_off. }
    assert (∀ s', attribute_add_mode s' = attribute_add_mode s →
                  relationship_mode s' = relationship_mode s →
                  change_label_mode s' = change_label_mode s →
                  labeled_listbox_state s' = labeled_listbox_state s →
                  selected_bbox s' = selected_bbox s →
                  gestures_ok s') as Hkept.
    { intros s' ? ? ? ? Hsel. apply (gestures_ok_kept s); try done.
      by rewrite Hsel. }
    assert (∀ s', attribute_add_mode s' = false →
                  relationship_mode s' = relationship_mode s →
                  change_label_mode s' = change_label_mode s →
                  gestures_ok s') as Hoff.
    { intros s' ? Hr Hc. destruct Hs as [H1 H2 _ _ _].
      rewrite Hattr in H1, H2. simpl in H1, H2.
      apply gestures_ok_off; congruence. }
    field_cases; try done; first [by apply Hkept|by apply Hoff].
  - destruct (on_labeled_select_outcome selection s)
      as [ | found Hoff Hin Heq | found Hoff Hin Heq ].
    + done.
    + apply deselect_gestures_ok; [|done].
      apply orb_false_elim in Hoff as [[_ ->]%orb_false_elim ->]. done.
    + apply select_gestures_ok.
      destruct (selected_bbox s); [|done].
      apply deselect_gestures_ok; [|done].
      apply orb_false_elim in Hoff as [[_ ->]%orb_false_elim ->]. done.
  - unfold show_attribute_context_menu.
    destruct (_ || _ || _ || _) eqn:Hoff; [done|].
    apply orb_false_elim in Hoff as [[[Ha Hr]%orb_false_elim Hc]%orb_false_elim _].
    apply gestures_ok_off; [rewrite <- Ha|rewrite <- Hr|rewrite <- Hc];
      unfold remove_attribute; field_cases; done.
  - unfold show_relationship_context_menu.
    destruct (_ || _ || _ || _) eqn:Hoff; [done|].
    apply orb_false_elim in Hoff as [[[Ha Hr]%orb_false_elim Hc]%orb_false_elim _].
    apply gestures_ok_off; [rewrite <- Ha|rewrite <- Hr|rewrite <- Hc];
      unfold remove_relationship; field_cases; done.
  - unfold open_image. field_cases; try done; by apply gestures_ok_off.
  - unfold toggle_create_bbox. field_cases; try done;
      by apply (gestures_ok_kept s).
Qed.

(** * The three views show the session *)

Lemma views_ok_init labels attrs rels : views_ok (init labels attrs rels).
Proof. by split. Qed.

Lemma insert_sorted_ext {A} (lt lt' : A → A → bool) x l :
  (∀ a b, lt a b = lt' a b) → insert_sorted lt x l = insert_sorted lt' x l.
Proof.
  intros Hlt. induction l as [|y l IH]; simpl; [done|].
  by rewrite Hlt, IH.
Qed.

Lemma sorted_ext {A} (lt lt' : A → A → bool) l :
  (∀ a b, lt a b = lt' a b) → sorted lt l = sorted lt' l.
Proof.
  intros Hlt. unfold sorted. generalize (@nil A).
  induction l as [|x l IH]; intros acc; simpl; [done|].
  by rewrite (insert_sorted_ext lt lt'), IH.
Qed.

Lemma bbox_tag_kept s s' r :
  label_str (deref s' r) = label_str (deref s r) →
  id (deref s' r) = id (deref s r) →
  bbox_tag s' r = bbox_tag s r.
Proof. unfold bbox_tag. by intros -> ->. Qed.

Lemma labeled_entries_kept s s' :
  confirmed_bboxes s' = confirmed_bboxes s →
  (∀ r, core (deref s' r) = core (deref s r)) →
  labeled_listbox (update_labeled_view s')
  = labeled_listbox (update_labeled_view s).
Proof.
  intros Hconf Hcore. unfold update_labeled_view. proj_simpl.
  rewrite Hconf.
  assert (∀ r, label (deref s' r) = label (deref s r)
               ∧ id (deref s' r) = id (deref s r)
               ∧ label_str (deref s' r) = label_str (deref s r)) as Hname.
  { intros r. specialize (Hcore r). unfold core in Hcore.
    by simplify_eq. }
  erewrite sorted_ext.
  - apply map_ext. intros r. destruct (Hname r) as (_ & ? & ?).
    by apply bbox_tag_kept.
  - intros a b. simpl.
    destruct (Hname a) as (-> & -> & _), (Hname b) as (-> & -> & _). done.
Qed.

Lemma entries_ext s s' rels :
  (∀ rel, rel ∈ rels →
          displayed s' rel = displayed s rel
          ∧ relationship_entry s' rel = relationship_entry s rel) →
  map (relationship_entry s') (List.filter (displayed s') rels)
  = map (relationship_entry s) (List.filter (displayed s) rels).
Proof.
  induction rels as [|rel rels IH]; intros Hext; [done|].
  cbn [List.filter].
  destruct (Hext rel) as [-> Hentry]; [left|].
  specialize (IH (λ rel' Hin, Hext rel' (list_elem_of_further _ _ _ Hin))).
  destruct (displayed s rel); [|done]. cbn [map]. by rewrite Hentry, IH.
Qed.

Lemma relationship_entries_kept s s' :
  rects_ok s →
  (∀ a l b, (a, l, b) ∈ relationships s →
            (a < length (heap s))%nat ∧ (b < length (heap s))%nat) →
  (∀ r, selected_bbox s = Some r → (r < length (heap s))%nat) →
  (∀ r, (r < length (heap s))%nat → core (deref s' r) = core (deref s r)) →
  relationships s' = relationships s →
  selected_bbox s' = selected_bbox s →
  relationship_view_listbox (update_relationship_view s')
  = relationship_view_listbox (update_relationship_view s).
Proof.
  intros Hrects Hvalid Hsel Hcore Hrels Hselected.
  unfold update_relationship_view. proj_simpl. rewrite Hrels.
  assert (∀ r, (r < length (heap s))%nat →
               rect_id (deref s' r) = rect_id (deref s r)
               ∧ id (deref s' r) = id (deref s r)
               ∧ label_str (deref s' r) = label_str (deref s r)) as Hname.
  { intros r Hr. specialize (Hcore r Hr). unfold core in Hcore.
    by simplify_eq. }
  apply entries_ext. intros [[a l] b] Hin.
  destruct (Hvalid a l b Hin) as [Ha Hb]. split.
  - unfold displayed. rewrite Hselected.
    destruct (selected_bbox s) as [sel|] eqn:Hs; [|done].
    specialize (Hsel sel eq_refl).
    rewrite (py_eq_identity s) by done.
    unfold py_eq. apply bool_decide_ext. split.
    + intros Heq. apply (rects_distinct s Hrects); [done|done|].
      destruct (Hname a Ha) as (<- & _), (Hname sel Hsel) as (<- & _).
      by rewrite Heq.
    + by intros ->.
  - unfold relationship_entry.
    destruct (Hname a Ha) as (_ & ? & ?), (Hname b Hb) as (_ & ? & ?).
    by rewrite !(bbox_tag_kept s s').
Qed.

(** * The three views show the session: the proof *)

(** A view is up to date right after its update, and stays so while the
    attributes of [self] it is computed from are not assigned. *)
Lemma labeled_refreshed s : labeled_shown (update_labeled_view s).
Proof. reflexivity. Qed.

Lemma attributes_refreshed s : attributes_shown (update_attribute_view s).
Proof. reflexivity. Qed.

Lemma relationships_refreshed s :
  relationships_shown (update_relationship_view s).
Proof. reflexivity. Qed.

Lemma labeled_shown_ext s s' :
  labeled_shown s → heap s' = heap s →
  confirmed_bboxes s' = confirmed_bboxes s →
  labeled_listbox s' = labeled_listbox s → labeled_shown s'.
Proof.
  unfold labeled_shown, update_labeled_view, bbox_tag, deref. proj_simpl.
  by intros -> -> -> ->.
Qed.

Lemma attributes_shown_ext s s' :
  attributes_shown s → heap s' = heap s →
  selected_bbox s' = selected_bbox s →
  attribute_view_listbox s' = attribute_view_listbox s → attributes_shown s'.
Proof.
  unfold attributes_shown, update_attribute_view, deref. proj_simpl.
  by intros -> -> -> ->.
Qed.

Lemma relationships_shown_ext s s' :
  relationships_shown s → heap s' = heap s →
  selected_bbox s' = selected_bbox s →
  relationships s' = relationships s →
  relationship_view_listbox s' = relationship_view_listbox s →
  relationships_shown s'.
Proof.
  unfold relationships_shown, update_relationship_view. proj_simpl.
  intros -> Hheap Hsel -> ->. apply entries_ext. intros rel _. split.
  - by apply displayed_ext.
  - by apply relationship_entry_ext.
Qed.

Lemma labeled_kept s s' :
  labeled_shown s →
  confirmed_bboxes s' = confirmed_bboxes s →
  (∀ r, core (deref s' r) = core (deref s r)) →
  labeled_listbox s' = labeled_listbox s →
  labeled_shown s'.
Proof.
  unfold labeled_shown. intros H Hconf Hcore ->.
  by rewrite (labeled_entries_kept s s').
Qed.

Lemma attributes_kept_shown s s' :
  attributes_shown s →
  selected_bbox s' = selected_bbox s →
  (∀ r, selected_bbox s = Some r →
        attributes (deref s' r) = attributes (deref s r)) →
  attribute_view_listbox s' = attribute_view_listbox s →
  attributes_shown s'.
Proof.
  unfold attributes_shown. intros H Hsel Hattr ->. rewrite H.
  unfold update_attribute_view. proj_simpl. rewrite Hsel.
  destruct (selected_bbox s) as [sel|]; [|done]. by rewrite Hattr.
Qed.

Lemma sound_edges_valid s a l b :
  sound s → (a, l, b) ∈ relationships s →
  (a < length (heap s))%nat ∧ (b < length (heap s))%nat.
Proof.
  intros Hs Hin.
  destruct (edges_confirmed s (sound_selection s Hs) a l b Hin)
    as (Ha & Hb & _).
  split; by apply sound_valid.
Qed.

Lemma sound_selected_valid s r :
  sound s → selected_bbox s = Some r → (r < length (heap s))%nat.
Proof. intros [[_ Hrefs _ _] _ _ _]. apply Hrefs. Qed.

Lemma relationships_kept_shown s s' :
  sound s → relationships_shown s →
  (∀ r, (r < length (heap s))%nat → core (deref s' r) = core (deref s r)) →
  relationships s' = relationships s →
  selected_bbox s' = selected_bbox s →
  relationship_view_listbox s' = relationship_view_listbox s →
  relationships_shown s'.
Proof.
  unfold relationships_shown. intros Hs H Hcore Hrels Hsel ->. rewrite H.
  symmetry. apply relationship_entries_kept; try done.
  - apply Hs.
  - intros a l b. by apply sound_edges_valid.
  - intros r. by apply sound_selected_valid.
Qed.

Lemma views_ok_kept s s' :
  sound s → views_ok s →
  (∀ r, core (deref s' r) = core (deref s r)) →
  (∀ r, selected_bbox s = Some r →
        attributes (deref s' r) = attributes (deref s r)) →
  confirmed_bboxes s' = confirmed_bboxes s →
  selected_bbox s' = selected_bbox s →
  relationships s' = relationships s →
  labeled_listbox s' = labeled_listbox s →
  attribute_view_listbox s' = attribute_view_listbox s →
  relationship_view_listbox s' = relationship_view_listbox s →
  views_ok s'.
Proof.
  intros Hs [H1 H2 H3] Hcore Hattr Hconf Hsel Hrels Hl Ha Hr. split.
  - by apply (labeled_kept s).
  - by apply (attributes_kept_shown s).
  - apply (relationships_kept_shown s); auto.
Qed.

(** Selecting and deselecting refresh the attribute view and the
    relationship view, and leave the labeled view and the tags alone. *)
Lemma deselect_views_ok bbox s :
  views_ok s → views_ok (_deselect_bbox bbox s).
Proof.
  intros [H1 H2 H3]. split.
  - apply (labeled_kept s); [done|..]; autorewrite with frame; try done.
    intros r. apply deselect_field, selection_free_core.
  - unfold _deselect_bbox. apply attributes_refreshed.
  - unfold _deselect_bbox.
    match goal with
    | |- relationships_shown (update_attribute_view ?X) =>
        apply (relationships_shown_ext X);
        [apply relationships_refreshed|reflexivity..]
    end.
Qed.

Lemma select_views_ok bbox s :
  views_ok s → views_ok (_select_bbox bbox s).
Proof.
  intros [H1 H2 H3].
  destruct (create_bbox_active s || attribute_add_mode s
            || relationship_mode s) eqn:Hmodes.
  { by rewrite select_blocked. }
  split.
  - apply (labeled_kept s); [done|..]; autorewrite with frame; try done.
    intros r. apply select_field, selection_free_core.
  - unfold _select_bbox. rewrite Hmodes. apply attributes_refreshed.
  - unfold _select_bbox. rewrite Hmodes.
    match goal with
    | |- relationships_shown (update_attribute_view ?X) =>
        apply (relationships_shown_ext X);
        [apply relationships_refreshed|reflexivity..]
    end.
Qed.

(** * The three views show the session: every handler *)

Lemma quiet_views s e :
  is_quiet e = true →
  labeled_listbox (step s e) = labeled_listbox s
  ∧ attribute_view_listbox (step s e) = attribute_view_listbox s
  ∧ relationship_view_listbox (step s e) = relationship_view_listbox s.
Proof.
  intros He. unfold step. destruct e; try discriminate; cbn [handle];
    try done.
  - unfold on_mouse_up. field_cases; done.
  - unfold on_handle_drag. field_cases; done.
  - unfold on_relationship_selected. field_cases; done.
  - unfold import_label_list, import_list. field_cases; done.
  - unfold import_attribute_list, import_list. field_cases; done.
  - unfold import_relationship_list, import_list. field_cases; done.
Qed.

(** A state that differs from [s] in attributes of [self] that no view
    is computed from. *)
Ltac same_views s :=
  match goal with
  | H : views_ok s |- views_ok _ =>
      let H1 := fresh in
      let H2 := fresh in
      let H3 := fresh in
      pose proof H as [H1 H2 H3];
      split;
      [ apply (labeled_shown_ext s); [exact H1|proj_simpl; reflexivity..]
      | apply (attributes_shown_ext s); [exact H2|proj_simpl; reflexivity..]
      | apply (relationships_shown_ext s);
        [exact H3|proj_simpl; reflexivity..] ]
  end.

(** A view that was refreshed and whose sources were not assigned
    since. *)
Ltac refreshed :=
  match goal with
  | |- labeled_shown ?F =>
      match F with
      | context [update_labeled_view ?X] =>
          let Y := fresh "Y" in
          set (Y := X); clearbody Y;
          apply (labeled_shown_ext (update_labeled_view Y));
          [apply labeled_refreshed|reflexivity..]
      end
  | |- attributes_shown ?F =>
      match F with
      | context [update_attribute_view ?X] =>
          let Y := fresh "Y" in
          set (Y := X); clearbody Y;
          apply (attributes_shown_ext (update_attribute_view Y));
          [apply attributes_refreshed|reflexivity..]
      end
  | |- relationships_shown ?F =>
      match F with
      | context [update_relationship_view ?X] =>
          let Y := fresh "Y" in
          set (Y := X); clearbody Y;
          apply (relationships_shown_ext (update_relationship_view Y));
          [apply relationships_refreshed|reflexivity..]
      end
  end.

Lemma toggled_views_ok x y s s1 :
  views_ok s → toggled x y s s1 → views_ok s1.
Proof.
  intros Hv [|clicked Hsel Hhit|clicked Hsel Hmodes]; [done|..].
  - by apply select_views_ok.
  - by apply deselect_views_ok.
Qed.

Lemma on_canvas_click_views_ok x y confirm s :
  sound s → views_ok s → views_ok (fst (on_canvas_click x y confirm s)).
Proof.
  intros Hs Hv.
  destruct (on_canvas_click_outcome x y confirm s)
    as [ | ? ? ? | s1 ? Ht | s1 ? Ht Hmode
       | s1 source target ? Ht Hmode ? ? ? ? ].
  - done.
  - same_views s.
  - by apply (toggled_views_ok x y s).
  - assert (views_ok s1) as Hv1 by by apply (toggled_views_ok x y s).
    same_views s1.
  - assert (views_ok s1) as [Hl1 Ha1 Hr1]
      by by apply (toggled_views_ok x y s).
    split.
    + apply (labeled_shown_ext s1); [exact Hl1|proj_simpl; reflexivity..].
    + apply (attributes_shown_ext s1); [exact Ha1|proj_simpl; reflexivity..].
    + refreshed.
Qed.

Lemma on_labeled_select_views_ok selection s :
  views_ok s → views_ok (fst (on_labeled_select selection s)).
Proof.
  intros Hv.
  destruct (on_labeled_select_outcome selection s)
    as [ | found Hoff Hin Heq | found Hoff Hin Heq ].
  - done.
  - by apply deselect_views_ok.
  - apply select_views_ok. destruct (selected_bbox s); [|done].
    by apply deselect_views_ok.
Qed.

Lemma removed_views_ok sel confirmed s : views_ok (removed sel confirmed s).
Proof.
  unfold removed. lazy zeta. split; refreshed.
Qed.

Lemma show_context_menu_views_ok command s :
  sound s → views_ok s → views_ok (fst (show_context_menu command s)).
Proof.
  intros Hs Hv. unfold show_context_menu.
  destruct (selected_bbox s) as [sel|] eqn:Hsel; [|done].
  destruct (_ || _ || _) eqn:Hoff; [done|].
  destruct command.
  - unfold add_attribute. field_cases; try done; same_views s.
  - unfold add_relationship. field_cases; try done; same_views s.
  - unfold change_label. field_cases; try done; same_views s.
  - destruct Hs as [[_ Hrefs Haligned _] Hrects Hselection _].
    destruct (remove_bbox_outcome confirm s Haligned Hrefs Hrects
                (confirmed_nodup s Hselection)
                (selected_confirmed s Hselection))
      as [->|(sel' & Hsel' & -> & -> & _)]; [exact Hv|].
    apply removed_views_ok.
Qed.

Lemma on_label_select_views_ok selection confirm s :
  sound s → views_ok s →
  views_ok (fst (on_label_select selection confirm s)).
Proof.
  intros Hs Hv. pose proof Hv as [H1 H2 H3].
  destruct (on_label_select_outcome selection confirm s)
    as [|label pending Hmode Hp|label change Hmode Hc|label Hmode Hc].
  - done.
  - split.
    + unfold confirm_label_assignment. lazy zeta. cbn [fst alloc canvas_create].
      refreshed.
    + apply (attributes_kept_shown s); [done|reflexivity| |reflexivity].
      intros r Hr. rewrite confirm_deref_old; [done|].
      by apply sound_selected_valid.
    + apply (relationships_kept_shown s); [done|done| |reflexivity..].
      intros r Hr. by rewrite confirm_deref_old.
  - assert (change < length (heap s))%nat as Hchange.
    { destruct Hs as [[_ [_ _ Hch] _ _] _ _ _].
      destruct (Hch Hmode) as (r & Hr & Hlt & _). congruence. }
    destruct (relabelled_deref label change s Hchange) as (Hd1 & Hd2 & _).
    split.
    + unfold relabelled. lazy zeta. refreshed.
    + apply (attributes_kept_shown s); [done|..].
      * apply relabelled_selected_bbox.
      * intros r _. destruct (decide (r = change)) as [->|Hne].
        -- by rewrite Hd1.
        -- by rewrite Hd2.
      * unfold relabelled. field_cases; done.
    + unfold relabelled. lazy zeta. refreshed.
  - same_views s.
Qed.

(** * The three views show the session: the remaining handlers *)

(** The attributes of the selected box were assigned, then the attribute
    view was refreshed. *)
Lemma attributes_written_views_ok s sel attributes' s' :
  sound s → views_ok s → selected_bbox s = Some sel →
  heap s' = heap (update sel (set_attributes attributes') s) →
  confirmed_bboxes s' = confirmed_bboxes s →
  selected_bbox s' = selected_bbox s →
  relationships s' = relationships s →
  labeled_listbox s' = labeled_listbox s →
  relationship_view_listbox s' = relationship_view_listbox s →
  attributes_shown s' →
  views_ok s'.
Proof.
  intros Hs [H1 H2 H3] Hsel Hheap Hconf Hselected Hrels Hl Hr Ha.
  assert (∀ r, core (deref s' r) = core (deref s r)) as Hcore.
  { intros r.
    rewrite (deref_ext (update sel (set_attributes attributes') s) s' r Hheap).
    by apply field_update. }
  split; [|done|].
  - by apply (labeled_kept s).
  - apply (relationships_kept_shown s); auto.
Qed.

Lemma on_attr_double_click_views_ok selection result add_more s :
  sound s → views_ok s →
  views_ok (fst (on_attr_double_click selection result add_more s)).
Proof.
  intros Hs Hv. unfold on_attr_double_click.
  destruct (attribute_add_mode s); cbn [negb]; [|done].
  destruct (selection ≫= _) as [attribute|]; [|done].
  destruct (selected_bbox s) as [sel|] eqn:Hsel; [|done].
  case_bool_decide; [done|]. case_bool_decide; [same_views s|].
  destruct result as [[]|]; [|done|same_views s].
  lazy zeta.
  assert (views_ok
            (update_attribute_view
               (update sel
                  (set_attributes (attributes (deref s sel) ++ [attribute]))
                  s))) as Hv'.
  { eapply (attributes_written_views_ok s sel); try done;
      apply attributes_refreshed. }
  destruct add_more; [done|].
  cbn [fst]. set (s1 := update_attribute_view _) in *. clearbody s1.
  same_views s1.
Qed.

Lemma remove_attribute_views_ok selection confirm s :
  sound s → views_ok s →
  views_ok (fst (remove_attribute selection confirm s)).
Proof.
  intros Hs Hv. unfold remove_attribute.
  destruct (selection ≫= _) as [attribute|]; [|done].
  destruct confirm; cbn [negb]; [|done].
  lazy zeta. cbn [fst].
  destruct (selected_bbox s) as [sel|] eqn:Hsel.
  - destruct (list_remove attribute (attributes (deref s sel)))
      as [attributes'|].
    + eapply (attributes_written_views_ok s sel); try done;
        apply attributes_refreshed.
    + destruct Hv as [H1 H2 H3]. split.
      * by apply (labeled_shown_ext s).
      * apply attributes_refreshed.
      * by apply (relationships_shown_ext s).
  - destruct Hv as [H1 H2 H3]. split.
    + by apply (labeled_shown_ext s).
    + apply attributes_refreshed.
    + by apply (relationships_shown_ext s).
Qed.

Lemma remove_relationship_views_ok selection confirm s :
  aligned s → views_ok s →
  views_ok (fst (remove_relationship selection confirm s)).
Proof.
  intros Haligned Hv. pose proof Hv as [H1 H2 H3]. unfold remove_relationship.
  destruct selection as [index|]; [|done].
  destruct confirm; cbn [negb]; [|done].
  destruct (displayed_indices s !! index) as [actual|] eqn:Hactual; [|done].
  apply displayed_indices_lt in Hactual.
  lazy zeta.
  change (predicates (set_relationships ?v s)) with (predicates s).
  set (s1 := set_relationships _ s).
  assert (∀ s2, heap s2 = heap s1 → confirmed_bboxes s2 = confirmed_bboxes s →
                selected_bbox s2 = selected_bbox s →
                relationships s2 = relationships s1 →
                labeled_listbox s2 = labeled_listbox s →
                attribute_view_listbox s2 = attribute_view_listbox s →
                views_ok (update_relationship_view s2)) as Hrefresh.
  { intros s2 Hheap Hconf Hsel Hrels Hl Ha. split.
    - by apply (labeled_shown_ext s).
    - by apply (attributes_shown_ext s).
    - apply relationships_refreshed. }
  unfold aligned in Haligned.
  destruct (predicates s) as [[|p predicates']|].
  - by apply Hrefresh.
  - rewrite bool_decide_eq_true_2 by (simpl in *; lia). by apply Hrefresh.
  - by apply Hrefresh.
Qed.

Lemma open_image_views_ok file_path outcome s :
  views_ok s → views_ok (fst (open_image file_path outcome s)).
Proof.
  intros Hv. unfold open_image.
  destruct (String.eqb file_path ""); [done|].
  lazy zeta. destruct outcome; cbn [fst canvas_create].
  all: split.
  all: try (unfold labeled_shown, update_labeled_view; proj_simpl;
            reflexivity).
  all: try (unfold attributes_shown, update_attribute_view; proj_simpl;
            reflexivity).
  all: try (unfold relationships_shown, update_relationship_view; proj_simpl;
            reflexivity).
Qed.

Lemma views_ok_step s e : sound s → views_ok s → views_ok (step s e).
Proof.
  intros Hs Hv. destruct (is_quiet e) eqn:He.
  { destruct (is_quiet_step e s He), (quiet_views s e He) as (? & ? & ?).
    apply (views_ok_kept s); try done.
    - intros r. by rewrite (deref_ext s).
    - intros r _. by rewrite (deref_ext s). }
  unfold step. destruct e; try discriminate; cbn [handle].
  - by apply on_canvas_click_views_ok.
  - by apply show_context_menu_views_ok.
  - by apply on_label_select_views_ok.
  - by apply on_attr_double_click_views_ok.
  - by apply on_labeled_select_views_ok.
  - unfold show_attribute_context_menu. case_match; [done|].
    by apply remove_attribute_views_ok.
  - unfold show_relationship_context_menu. case_match; [done|].
    apply remove_relationship_views_ok; [apply Hs|done].
  - by apply open_image_views_ok.
  - unfold toggle_create_bbox. field_cases; try done; same_views s.
Qed.

(** * Boxes lie inside the image and are at least 10 by 10 *)

Lemma geometry_ok_init labels attrs rels :
  geometry_ok (init labels attrs rels).
Proof.
  split; simpl; try done. intros; exfalso; by eapply elem_of_nil.
Qed.

Lemma resized_within handle_key dx dy area coords :
  within area coords →
  within area (resized handle_key dx dy (Some area) coords).
Proof.
  destruct area as [[[area_x area_y] area_w] area_h].
  destruct coords as [[[x1 y1] x2] y2]. unfold within, resized.
  intros (? & ? & ? & ? & ? & ?).
  destruct (String.eqb_spec handle_key "tl") as [->|];
    [|destruct (String.eqb_spec handle_key "tr") as [->|];
      [|destruct (String.eqb_spec handle_key "bl") as [->|];
        [|destruct (String.eqb_spec handle_key "br") as [->|];
          [|destruct (String.eqb_spec handle_key "tm") as [->|];
            [|destruct (String.eqb_spec handle_key "bm") as [->|];
              [|destruct (String.eqb_spec handle_key "ml") as [->|];
                [|destruct (String.eqb_spec handle_key "mr") as [->|]]]]]]]].
  all: cbn [String.eqb Ascii.eqb Bool.eqb orb andb].
  all: repeat match goal with
         | |- context [?a <? ?b] => destruct (Z.ltb_spec a b)
         end.
  all: cbn [orb]; lia.
Qed.

Lemma image_area_step s e :
  keeps_image e = true → image_area (step s e) = image_area s.
Proof.
  intros He. unfold step. destruct e; cbn [handle]; try done.
  - click_cases x y confirm s; frame_cases; done.
  - unfold on_mouse_up. field_cases; done.
  - unfold show_context_menu, add_attribute, add_relationship, change_label,
      remove_bbox.
    field_cases; done.
  - unfold on_handle_drag. field_cases; done.
  - unfold on_label_select, confirm_label_assignment. field_cases; done.
  - unfold on_attr_double_click. field_cases; done.
  - unfold on_relationship_selected. field_cases; done.
  - labeled_cases selection s; frame_cases; done.
  - unfold show_attribute_context_menu, remove_attribute. field_cases; done.
  - unfold show_relationship_context_menu, remove_relationship.
    field_cases; done.
  - simpl in He. unfold open_image. by rewrite He.
  - unfold toggle_create_bbox. field_cases; done.
  - unfold import_label_list, import_list. field_cases; done.
  - unfold import_attribute_list, import_list. field_cases; done.
  - unfold import_relationship_list, import_list. field_cases; done.
Qed.

Lemma pending_same_step s e p :
  is_mouse_up e = false → is_handle_drag e = false →
  pending_bbox (step s e) = Some p → pending_bbox s = Some p.
Proof.
  intros Hup Hdrag. unfold step. destruct e; try discriminate;
    cbn [handle]; try done.
  - click_cases x y confirm s; frame_cases; first [done|congruence].
  - unfold show_context_menu, add_attribute, add_relationship, change_label,
      remove_bbox.
    field_cases; first [done|congruence].
  - unfold on_label_select, confirm_label_assignment.
    field_cases; first [done|congruence].
  - unfold on_attr_double_click. field_cases; first [done|congruence].
  - unfold on_relationship_selected. field_cases; first [done|congruence].
  - labeled_cases selection s; frame_cases; first [done|congruence].
  - unfold show_attribute_context_menu, remove_attribute.
    field_cases; first [done|congruence].
  - unfold show_relationship_context_menu, remove_relationship.
    field_cases; first [done|congruence].
  - unfold open_image. field_cases; first [done|congruence].
  - unfold toggle_create_bbox. field_cases; first [done|congruence].
  - unfold import_label_list, import_list.
    field_cases; first [done|congruence].
  - unfold import_attribute_list, import_list.
    field_cases; first [done|congruence].
  - unfold import_relationship_list, import_list.
    field_cases; first [done|congruence].
Qed.

Lemma start_step s e t :
  is_canvas_click e = false →
  temp_rect (step s e) = Some t →
  start_x (step s e) = start_x s ∧ start_y (step s e) = start_y s.
Proof.
  intros He. unfold step. destruct e; try discriminate; cbn [handle];
    try done.
  - unfold on_mouse_up. field_cases; done.
  - unfold show_context_menu, add_attribute, add_relationship, change_label,
      remove_bbox.
    field_cases; done.
  - unfold on_handle_drag. field_cases; done.
  - unfold on_label_select, confirm_label_assignment. field_cases; done.
  - unfold on_attr_double_click. field_cases; done.
  - unfold on_relationship_selected. field_cases; done.
  - labeled_cases selection s; frame_cases; done.
  - unfold show_attribute_context_menu, remove_attribute. field_cases; done.
  - unfold show_relationship_context_menu, remove_relationship.
    field_cases; done.
  - unfold open_image. field_cases; done.
  - unfold toggle_create_bbox. field_cases; done.
  - unfold import_label_list, import_list. field_cases; done.
  - unfold import_attribute_list, import_list. field_cases; done.
  - unfold import_relationship_list, import_list. field_cases; done.
Qed.

Lemma inside_image_area_ext s s' x y :
  image_area s' = image_area s →
  _inside_image_area s' x y = _inside_image_area s x y.
Proof. unfold _inside_image_area. by intros ->. Qed.

Lemma geometry_ok_kept s s' :
  geometry_ok s →
  image_area s' = image_area s →
  (∀ r, r ∈ confirmed_bboxes s' →
        r ∈ confirmed_bboxes s ∧ coords (deref s' r) = coords (deref s r)) →
  (∀ p, pending_bbox s' = Some p → pending_bbox s = Some p) →
  (∀ t, temp_rect s' = Some t →
        temp_rect s = Some t ∧ start_x s' = start_x s
        ∧ start_y s' = start_y s) →
  geometry_ok s'.
Proof.
  intros [H1 H2 H3] Harea Hconf Hpending Htemp. split.
  - intros r [Hr ->]%Hconf. rewrite Harea. auto.
  - intros p Hp%Hpending. rewrite Harea. auto.
  - intros t (Ht & -> & ->)%Htemp.
    destruct (H3 t Ht) as (x & y & ? & ? & ?). exists x, y.
    by rewrite (inside_image_area_ext s s').
Qed.

Lemma on_mouse_up_geometry_ok x y s :
  geometry_ok s → geometry_ok (fst (on_mouse_up x y s)).
Proof.
  intros Hs. pose proof Hs as [H1 H2 H3]. unfold on_mouse_up.
  destruct (temp_rect s) as [temp|] eqn:Htemp; [|done].
  destruct (create_bbox_active s); cbn [negb]; [|done].
  destruct (H3 temp eq_refl) as (x1 & y1 & -> & -> & Hinside).
  unfold _inside_image_area in Hinside. unfold clamp.
  destruct (image_area s) as [[[[area_x area_y] area_w] area_h]|] eqn:Harea;
    [|done].
  apply andb_prop in Hinside as [[[?%Z.leb_le ?%Z.leb_le]%andb_prop
                                    ?%Z.leb_le]%andb_prop ?%Z.leb_le].
  destruct (_ || _) eqn:Hsmall.
  - apply (geometry_ok_kept s); try done; by intros r Hr.
  - apply orb_false_elim in Hsmall as [?%Z.ltb_ge ?%Z.ltb_ge].
    lazy zeta. cbn [create_handles canvas_create fst snd].
    split; proj_simpl.
    + intros r Hr. rewrite ?Harea. deref_norm. exact (H1 r Hr).
    + intros p [= <-]. eexists. split; [done|].
      cbn [Pending.coords Pending.set_handles]. unfold within. lia.
    + done.
Qed.

Lemma on_handle_drag_geometry_ok x y s :
  geometry_ok s → geometry_ok (fst (on_handle_drag x y s)).
Proof.
  intros Hs. pose proof Hs as [H1 H2 H3]. unfold on_handle_drag.
  destruct (dragging_handle s) as [[[handle last_x] last_y]|]; [|done].
  lazy zeta.
  destruct (handle_key_of _ handle) as [handle_key|].
  - change (pending_bbox (set_dragging_handle ?v s)) with (pending_bbox s).
    destruct (pending_bbox s) as [pending|] eqn:Hp.
    + destruct (H2 pending eq_refl) as (area & Harea & Hw).
      split; proj_simpl; try done.
      intros p [= <-]. exists area. split; [done|].
      cbn [Pending.coords Pending.set_coords]. rewrite Harea.
      by apply resized_within.
    + apply (geometry_ok_kept s); try done; by intros r Hr.
  - apply (geometry_ok_kept s); try done; by intros r Hr.
Qed.

Lemma on_canvas_click_start x y confirm s :
  let s' := fst (on_canvas_click x y confirm s) in
  (∀ t, temp_rect s' = Some t →
        temp_rect s = Some t ∧ start_x s' = start_x s
        ∧ start_y s' = start_y s)
  ∨ (start_x s' = Some x ∧ start_y s' = Some y
     ∧ _inside_image_area s x y = true).
Proof.
  cbv zeta. click_cases x y confirm s; frame_cases; auto.
Qed.

Lemma on_canvas_click_geometry_ok x y confirm s :
  geometry_ok s → geometry_ok (fst (on_canvas_click x y confirm s)).
Proof.
  intros Hs.
  pose proof (image_area_step s (CanvasButton1 x y confirm) eq_refl)
    as Harea.
  assert (∀ r, r ∈ confirmed_bboxes (fst (on_canvas_click x y confirm s)) →
               r ∈ confirmed_bboxes s
               ∧ coords (deref (fst (on_canvas_click x y confirm s)) r)
                 = coords (deref s r)) as Hconf.
  { intros r Hr. split.
    - by apply (confirmed_bboxes_step s (CanvasButton1 x y confirm)).
    - apply (kept_step coords (CanvasButton1 x y confirm));
        [apply selection_free_coords|done|done]. }
  pose proof (λ p, pending_same_step s (CanvasButton1 x y confirm) p
                     eq_refl eq_refl) as Hpending.
  unfold step in Harea, Hpending. cbn [handle] in Harea, Hpending.
  destruct (on_canvas_click_start x y confirm s)
    as [Htemp|(Hx & Hy & Hinside)].
  - by apply (geometry_ok_kept s).
  - destruct Hs as [H1 H2 H3]. split.
    + intros r [Hr ->]%Hconf. rewrite Harea. auto.
    + intros p Hp%Hpending. rewrite Harea. auto.
    + intros t _. exists x, y. split_and!; [done|done|].
      by rewrite (inside_image_area_ext s).
Qed.

(** * Boxes lie inside the image: every handler *)

Lemma on_label_select_geometry_ok selection confirm s :
  refs_ok s → geometry_ok s →
  geometry_ok (fst (on_label_select selection confirm s)).
Proof.
  intros Hrefs Hs.
  destruct (on_label_select_outcome selection confirm s)
    as [|label pending Hmode Hp|label change Hmode Hc|label Hmode Hc].
  - done.
  - destruct Hs as [H1 H2 H3]. split.
    + rewrite confirm_confirmed_bboxes.
      change (image_area (fst (confirm_label_assignment _ _ _ s)))
        with (image_area s).
      intros r [Hr| ->%list_elem_of_singleton]%elem_of_app.
      * rewrite confirm_deref_old by by apply confirmed_valid_elem.
        auto.
      * rewrite confirm_deref_new. by apply H2.
    + by rewrite confirm_pending_bbox.
    + exact H3.
  - assert (change < length (heap s))%nat as Hchange.
    { destruct Hrefs as [_ _ Hch].
      destruct (Hch Hmode) as (r & Hr & Hlt & _). congruence. }
    destruct (relabelled_deref label change s Hchange) as (Hd1 & Hd2 & _).
    apply (geometry_ok_kept s); [done|..].
    + unfold relabelled. field_cases; done.
    + rewrite relabelled_confirmed_bboxes. intros r Hr. split; [done|].
      destruct (decide (r = change)) as [->|Hne].
      * by rewrite Hd1.
      * by rewrite Hd2.
    + unfold relabelled. field_cases; done.
    + unfold relabelled. field_cases; done.
  - apply (geometry_ok_kept s); try done; by intros r Hr.
Qed.

Lemma geometry_ok_step s e :
  refs_ok s → geometry_ok s → geometry_ok (step s e).
Proof.
  intros Hrefs Hs.
  destruct (keeps_image e) eqn:Hkeep.
  2:{ destruct e; try discriminate. unfold step. cbn [handle].
      simpl in Hkeep. unfold open_image. rewrite Hkeep.
      destruct outcome; split; proj_simpl; try done;
        intros; exfalso; by eapply elem_of_nil. }
  destruct (is_label_double_click e) eqn:Hlabel.
  { destruct e; try discriminate. by apply on_label_select_geometry_ok. }
  destruct (is_canvas_click e) eqn:Hclick.
  { destruct e; try discriminate. by apply on_canvas_click_geometry_ok. }
  destruct (is_mouse_up e) eqn:Hup.
  { destruct e; try discriminate. by apply on_mouse_up_geometry_ok. }
  destruct (is_handle_drag e) eqn:Hdrag.
  { destruct e; try discriminate. by apply on_handle_drag_geometry_ok. }
  apply (geometry_ok_kept s); [done|..].
  - by apply image_area_step.
  - intros r Hr. split.
    + by apply (confirmed_bboxes_step s e).
    + apply (kept_step coords e); [apply selection_free_coords|done|done].
  - intros p. by apply pending_same_step.
  - intros t Ht. split; [by eapply temp_step|by eapply start_step].
Qed.

(** * All invariants *)

Lemma settled_init labels attrs rels : settled (init labels attrs rels).
Proof.
  split; [apply sound_init|apply gestures_ok_init|apply views_ok_init
         |apply geometry_ok_init].
Qed.

Lemma settled_step s e : settled s → settled (step s e).
Proof.
  intros [H1 H2 H3 H4]. split.
  - by apply sound_step.
  - apply gestures_ok_step; [apply H1|done].
  - by apply views_ok_step.
  - apply geometry_ok_step; [apply H1|done].
Qed.

Lemma reachable_settled s : reachable s → settled s.
Proof. induction 1; [apply settled_init|by apply settled_step]. Qed.





(** At most one of the three gestures the context menu starts is in
    progress; while an attribute or a relationship is being added a box
    is selected and the tool is not drawing; in relationship mode the
    source is the selected box; while a gesture is in progress the
    labeled list is disabled. *)
Theorem one_gesture_at_a_time s :
  reachable s →
  attribute_add_mode s && relationship_mode s = false
  ∧ attribute_add_mode s && change_label_mode s = false
  ∧ relationship_mode s && change_label_mode s = false
  ∧ (attribute_add_mode s || relationship_mode s = true →
     is_Some (selected_bbox s) ∧ create_bbox_active s = false)
  ∧ (relationship_mode s = true → source_bbox s = selected_bbox s)
  ∧ (attribute_add_mode s || relationship_mode s || change_label_mode s
     = true →
     labeled_listbox_state s = false).
Proof.
  intros [[[[Hrel Hcreate] _ _ _] _ _ _] [H1 H2 H3 H4 H5] _ _]%reachable_settled.
  split_and!; try done.
  - intros Hmode. destruct (H4 Hmode) as [sel Hsel]. split; [by exists sel|].
    destruct (create_bbox_active s); [|done].
    rewrite Hcreate in Hsel; done.
  - intros (r & -> & ->)%Hrel. done.
Qed.

Lemma one_gesture_at_a_time_witness :
  let s := run street awaiting_target in
  source_bbox s = selected_bbox s.
Proof.
  intros s.
  refine (proj1 (proj2 (proj2 (proj2 (proj2 (one_gesture_at_a_time s _)))))
            _).
  - apply reachable_run, reachable_street.
  - by vm_compute.
Defined.



(** Every confirmed box and the pending box lie inside the image area
    and are at least 10 wide and 10 high. *)
Theorem boxes_lie_in_the_image s :
  reachable s →
  (∀ r, r ∈ confirmed_bboxes s →
        ∃ area, image_area s = Some area ∧ within area (coords (deref s r)))
  ∧ (∀ pending, pending_bbox s = Some pending →
        ∃ area, image_area s = Some area
                ∧ within area (Pending.coords pending)).
Proof. intros [_ _ _ [H1 H2 _]]%reachable_settled. by split. Qed.

Lemma boxes_lie_in_the_image_witness :
  let s := run street two_edges in
  ∃ area, image_area s = Some area ∧ within area (coords (deref s 0%nat)).
Proof.
  intros s. refine (proj1 (boxes_lie_in_the_image s _) 0%nat _).
  - apply reachable_run, reachable_street.
  - apply (bool_decide_unpack _). by vm_compute.
Defined.

(** * No handler runs into an exception *)

Ltac no_raise :=
  cbn [snd]; let Hin := fresh "Hin" in
  intros Hin;
  repeat (apply elem_of_cons in Hin as [Hin|Hin]; [discriminate Hin|]);
  by apply elem_of_nil in Hin.

Lemma on_canvas_click_raises_nothing x y confirm s exception :
  modes_ok s → raised exception ∉ snd (on_canvas_click x y confirm s).
Proof.
  intros [Hsource _]. unfold on_canvas_click.
  destruct (create_bbox_active s). { field_cases; no_raise. }
  destruct (_ && py_eq s _ _); [no_raise|].
  set (s1 := match _get_confirmed_bbox_at s x y with
             | Some clicked => _ | None => s end).
  assert (relationship_mode s1 = relationship_mode s
          ∧ source_bbox s1 = source_bbox s) as [Hmode Hsrc].
  { subst s1. repeat case_match; by autorewrite with frame. }
  clearbody s1.
  destruct (relationship_mode s1) eqn:Hrel; [|no_raise].
  destruct Hsource as (r & _ & Hr); [congruence|].
  rewrite Hsrc, Hr.
  repeat case_match; no_raise.
Qed.

Lemma on_mouse_up_raises_nothing x y s exception :
  geometry_ok s → raised exception ∉ snd (on_mouse_up x y s).
Proof.
  intros [_ _ Hstart]. unfold on_mouse_up.
  destruct (temp_rect s) as [t|] eqn:Ht; [|no_raise].
  destruct (Hstart t eq_refl) as (x1 & y1 & -> & -> & _).
  field_cases; no_raise.
Qed.

Lemma on_label_select_raises_nothing selection confirm s exception :
  refs_ok s → raised exception ∉ snd (on_label_select selection confirm s).
Proof.
  intros [_ _ Hchange]. unfold on_label_select, confirm_label_assignment.
  destruct (change_label_mode s) eqn:Hmode.
  - destruct Hchange as (r & Hr & _); [done|].
    field_cases; try no_raise; congruence.
  - field_cases; no_raise.
Qed.

Lemma on_attr_double_click_raises_nothing selection result add_more s
    exception :
  gestures_ok s →
  raised exception ∉ snd (on_attr_double_click selection result add_more s).
Proof.
  intros [_ _ _ Hsel _]. unfold on_attr_double_click.
  destruct (attribute_add_mode s) eqn:Hmode; cbn [negb]; [|no_raise].
  destruct Hsel as [sel Hsel]; [done|]. rewrite Hsel.
  field_cases; no_raise.
Qed.

Lemma remove_bbox_raises_nothing confirm s exception :
  aligned s → refs_ok s → rects_ok s → NoDup (confirmed_bboxes s) →
  (∀ sel, selected_bbox s = Some sel → sel ∈ confirmed_bboxes s) →
  raised exception ∉ snd (remove_bbox confirm s).
Proof.
  intros Haligned Hrefs Hrects Hnd Hsel. unfold remove_bbox.
  destruct (selected_bbox s) as [sel|] eqn:Hs; [|no_raise].
  destruct confirm; cbn [negb]; [|no_raise].
  lazy zeta.
  change (predicates (set_relationships ?v s)) with (predicates s).
  change (relationships (set_relationships ?v s)) with v.
  rewrite new_predicates_aligned
    by (done || apply List.filter_length_le).
  match goal with
  | |- context [remove_bbox_from ?S sel _] => change S with (unlinked sel s)
  end.
  rewrite unlinked_confirmed_bboxes.
  rewrite (remove_bbox_from_spec (unlinked sel s) sel (confirmed_bboxes s)).
  - no_raise.
  - intros y Hy. apply (py_eq_identity_kept s); [done|..].
    + apply unlinked_length.
    + intros r. by apply unlinked_kept.
    + destruct Hrefs as [Hconf _ _]. rewrite Forall_forall in Hconf. auto.
    + by apply (selected_valid s).
  - done.
  - by apply Hsel.
Qed.

Lemma remove_relationship_raises_nothing selection confirm s exception :
  aligned s → raised exception ∉ snd (remove_relationship selection confirm s).
Proof.
  unfold aligned. intros Haligned. unfold remove_relationship.
  destruct selection as [index|]; [|no_raise].
  destruct confirm; cbn [negb]; [|no_raise].
  destruct (displayed_indices s !! index) as [actual|] eqn:Hactual;
    [|no_raise].
  apply displayed_indices_lt in Hactual.
  proj_simpl. destruct (predicates s) as [[|p l]|]; try no_raise.
  rewrite bool_decide_true; [no_raise|]. simpl in Haligned |- *. lia.
Qed.

(** From a settled state no event makes its handler raise. *)
Lemma settled_raises_nothing s e exception :
  settled s → raised exception ∉ snd (handle e s).
Proof.
  intros [[[Hmodes Hrefs Haligned _] Hrects [Hnd Hsel _ _ _ _] _] Hg _ Hgeo].
  destruct e; cbn [handle].
  - by apply on_canvas_click_raises_nothing.
  - no_raise.
  - by apply on_mouse_up_raises_nothing.
  - unfold show_context_menu.
    destruct (selected_bbox s) as [sel|] eqn:Hs; [|no_raise].
    case_match; [no_raise|]. destruct command.
    + unfold add_attribute. field_cases; no_raise.
    + unfold add_relationship. field_cases; no_raise.
    + unfold change_label. field_cases; no_raise.
    + apply remove_bbox_raises_nothing; try done. by rewrite Hs.
  - unfold on_handle_press. field_cases; no_raise.
  - unfold on_handle_drag. field_cases; no_raise.
  - unfold on_handle_release. field_cases; no_raise.
  - by apply on_label_select_raises_nothing.
  - by apply on_attr_double_click_raises_nothing.
  - unfold on_relationship_selected. field_cases; no_raise.
  - unfold on_labeled_select. field_cases; no_raise.
  - unfold show_attribute_context_menu. case_match; [no_raise|].
    unfold remove_attribute. field_cases; no_raise.
  - unfold show_relationship_context_menu. case_match; [no_raise|].
    by apply remove_relationship_raises_nothing.
  - unfold open_image. field_cases; no_raise.
  - unfold toggle_create_bbox. field_cases; no_raise.
  - unfold import_label_list, import_list. field_cases; no_raise.
  - unfold import_attribute_list, import_list. field_cases; no_raise.
  - unfold import_relationship_list, import_list. field_cases; no_raise.
Qed.

(** In a session reached from the start, no handler meets a [None] where
    it needs a box or a start point, deletes a predicate out of range or
    removes a box that is not in the list: whatever the event, the
    handler raises nothing. *)
Theorem handlers_raise_nothing s e exception :
  reachable s → raised exception ∉ snd (handle e s).
Proof. intros Hs%reachable_settled. by apply settled_raises_nothing. Qed.

Lemma handlers_raise_nothing_witness :
  raised "TypeError"
  ∉ snd (handle (CanvasButton1 300 300 true) (run street awaiting_target)).
Proof. apply handlers_raise_nothing, reachable_run, reachable_street. Defined.

(** * Removing a relationship from the view *)

(** The positions [remove_relationship] collects are those of the entries
    the view keeps: the [i]-th position is where the [i]-th kept element
    sits, and deleting there deletes the [i]-th kept element. *)
Lemma filter_indices_lookup {A} (P : A → bool) (l : list A) k i a :
  (fst <$> List.filter (λ ix : nat * A, P (snd ix))
             (imap (λ j x, ((k + j)%nat, x)) l)) !! i = Some a →
  ∃ x, (k ≤ a)%nat ∧ l !! (a - k)%nat = Some x
       ∧ List.filter P l !! i = Some x
       ∧ List.filter P (delete (a - k)%nat l) = delete i (List.filter P l).
Proof.
  revert k i. induction l as [|y l IH]; intros k i; [done|].
  rewrite imap_cons. cbn [List.filter snd].
  assert (imap ((λ j x, ((k + j)%nat, x)) ∘ S) l
          = imap (λ j x, ((S k + j)%nat, x)) l) as ->.
  { apply imap_ext. intros j x _. simpl. f_equal. lia. }
  destruct (P y) eqn:Hy.
  - destruct i as [|i]; simpl.
    + intros [= <-]. exists y. replace (k + 0 - k)%nat with 0%nat by lia.
      split_and!; [lia|done|done|done].
    + intros (x & Hk & Hx & Hi & Hdel)%(IH (S k) i). exists x.
      replace (a - k)%nat with (S (a - S k)) by lia.
      split_and!; [lia|done|done|]. simpl. rewrite Hy. by rewrite Hdel.
  - intros (x & Hk & Hx & Hi & Hdel)%(IH (S k) i). exists x.
    replace (a - k)%nat with (S (a - S k)) by lia.
    split_and!; [lia|done|done|]. simpl. by rewrite Hy.
Qed.

Lemma filter_indices_length {A} (P : A → bool) (l : list A) k :
  length (fst <$> List.filter (λ ix : nat * A, P (snd ix))
                    (imap (λ j x, ((k + j)%nat, x)) l))
  = length (List.filter P l).
Proof.
  revert k. induction l as [|y l IH]; intros k; [done|].
  rewrite imap_cons. cbn [List.filter snd].
  assert (imap ((λ j x, ((k + j)%nat, x)) ∘ S) l
          = imap (λ j x, ((S k + j)%nat, x)) l) as ->.
  { apply imap_ext. intros j x _. simpl. f_equal. lia. }
  specialize (IH (S k)). rewrite length_fmap in IH |- *.
  destruct (P y); cbn [length]; by rewrite ?length_fmap, IH.
Qed.

Lemma displayed_indices_lookup s index actual :
  displayed_indices s !! index = Some actual →
  ∃ rel, relationships s !! actual = Some rel
         ∧ List.filter (displayed s) (relationships s) !! index = Some rel
         ∧ List.filter (displayed s) (delete actual (relationships s))
           = delete index (List.filter (displayed s) (relationships s)).
Proof.
  intros H.
  destruct (filter_indices_lookup (displayed s) (relationships s) 0 index
              actual H) as (rel & _ & Hrel & Hi & Hdel).
  rewrite Nat.sub_0_r in Hrel, Hdel. by exists rel.
Qed.

Lemma displayed_indices_length s :
  length (displayed_indices s)
  = length (List.filter (displayed s) (relationships s)).
Proof. apply (filter_indices_length (displayed s) (relationships s) 0). Qed.

(** With a confirmed removal, [remove_relationship] deletes the
    relationship whose entry is shown at the selected row, the predicate
    at the same position, and that row of the view. *)
Theorem remove_relationship_removes_shown_entry s index entry :
  reachable s →
  relationship_view_listbox s !! index = Some entry →
  let s' := fst (remove_relationship (Some index) true s) in
  ∃ actual rel,
    relationships s !! actual = Some rel
    ∧ relationship_entry s rel = entry
    ∧ relationships s' = delete actual (relationships s)
    ∧ default [] (predicates s') = delete actual (default [] (predicates s))
    ∧ relationship_view_listbox s' = delete index (relationship_view_listbox s).
Proof.
  intros [[[_ _ Haligned _] _ _ _] _ [_ _ Hview] _]%reachable_settled Hentry.
  unfold relationships_shown, update_relationship_view in Hview.
  revert Hview. proj_simpl. intros Hview. unfold aligned in Haligned.
  rewrite Hview, list_lookup_fmap in Hentry.
  destruct (List.filter _ _ !! index) as [rel|] eqn:Hrel; simplify_eq/=.
  destruct (displayed_indices s !! index) as [actual|] eqn:Hactual.
  2:{ apply lookup_ge_None in Hactual. apply lookup_lt_Some in Hrel.
      rewrite displayed_indices_length in Hactual. lia. }
  destruct (displayed_indices_lookup s index actual Hactual)
    as (rel' & Hlookup & Hi & Hdel).
  assert (rel' = rel) as -> by congruence.
  exists actual, rel. split; [done|]. split; [done|].
  pose proof (lookup_lt_Some _ _ _ Hlookup) as Hlt.
  unfold remove_relationship. cbn [negb]. rewrite ?Hactual. proj_simpl.
  destruct (predicates s) as [[|p l]|] eqn:Hp; simpl in Haligned;
    [lia| |lia].
  rewrite bool_decide_true by (simpl; lia).
  unfold update_relationship_view. proj_simpl.
  split; [done|]. split; [done|].
  rewrite Hview, <- list_fmap_delete, <- Hdel.
  apply entries_ext. intros r _. split.
  - by apply displayed_ext.
  - by apply relationship_entry_ext.
Qed.

Lemma remove_relationship_removes_shown_entry_witness :
  let s := run street two_edges in
  let s' := fst (remove_relationship (Some 0%nat) true s) in
  ∃ actual rel,
    relationships s !! actual = Some rel
    ∧ relationship_entry s rel = "car:1 --- on --- truck:1"
    ∧ relationships s' = delete actual (relationships s)
    ∧ default [] (predicates s') = delete actual (default [] (predicates s))
    ∧ relationship_view_listbox s' = delete 0%nat (relationship_view_listbox s).
Proof.
  intros s.
  apply (remove_relationship_removes_shown_entry s 0%nat).
  - apply reachable_run, reachable_street.
  - by vm_compute.
Defined.

(** * Removing the selected box *)












(** * Saving *)

Lemma list_index_spec s x l :
  (∀ y, y ∈ l → py_eq s (Some y) (Some x) = bool_decide (y = x)) →
  x ∈ l → ∃ i, list_index s x l = Some i ∧ l !! i = Some x.
Proof.
  induction l as [|y l IH]; intros Heq Hin; [by apply elem_of_nil in Hin|].
  cbn [list_index]. rewrite Heq by left. case_bool_decide as Hyx.
  - subst y. by exists 0%nat.
  - apply elem_of_cons in Hin as [->|Hin]; [done|].
    destruct IH as (i & -> & Hi); [|done|].
    + intros z Hz. apply Heq. by right.
    + by exists (S i).
Qed.

Lemma omap_lookup_total {A B} (f : A → option B) (l : list A) :
  (∀ x, x ∈ l → is_Some (f x)) →
  length (omap f l) = length l
  ∧ ∀ i x, l !! i = Some x → Some <$> omap f l !! i = Some (f x).
Proof.
  induction l as [|y l IH]; intros Hf; [done|].
  destruct (Hf y) as [b Hb]; [left|].
  destruct IH as [Hlen Hlookup].
  { intros z Hz. apply Hf. by right. }
  cbn [omap list_omap]. rewrite Hb. split; [simpl; by rewrite Hlen|].
  intros [|i] x; simpl.
  - intros [= <-]. by rewrite Hb.
  - apply Hlookup.
Qed.

(** In a session reached from the start, every row of the attribute
    array [save_data] writes has exactly 10 entries, there is a label
    for every row, no relationship is skipped, the pair written for a relationship holds the positions of
    its source and of its target among the confirmed boxes, which
    differ, and there are as many predicates as pairs. *)
Theorem saved_arrays_fit_together s :
  reachable s →
  Forall (λ row, length row = 10%nat) (attributes_list s)
  ∧ length (labels_list s) = length (attributes_list s)
  ∧ length (relationships_list s) = length (relationships s)
  ∧ length (predicates_array s) = length (relationships_list s)
  ∧ ∀ i source rel_str target,
      relationships s !! i = Some (source, rel_str, target) →
      ∃ src_index tgt_index,
        relationships_list s !! i = Some (src_index, tgt_index)
        ∧ confirmed_bboxes s !! src_index = Some source
        ∧ confirmed_bboxes s !! tgt_index = Some target
        ∧ src_index ≠ tgt_index.
Proof.
  intros Hs%reachable_sound.
  pose proof Hs as [[_ _ Haligned Hstore] Hrects Hsel _].
  assert (∀ x y, x ∈ confirmed_bboxes s → y ∈ confirmed_bboxes s →
                 py_eq s (Some y) (Some x) = bool_decide (y = x)) as Heq.
  { intros x y Hx Hy. apply py_eq_identity; [done|by apply sound_valid..]. }
  assert (∀ x, x ∈ confirmed_bboxes s →
               ∃ i, list_index s x (confirmed_bboxes s) = Some i
                    ∧ confirmed_bboxes s !! i = Some x) as Hindex.
  { intros x Hx. apply list_index_spec; [|done]. intros y Hy. by apply Heq. }
  destruct (omap_lookup_total
              (λ '(source_bbox, _, target_bbox),
                 src_index ← list_index s source_bbox (confirmed_bboxes s);
                 tgt_index ← list_index s target_bbox (confirmed_bboxes s);
                 Some (src_index, tgt_index))
              (relationships s)) as [Hlen Hlookup].
  { intros [[a l] b] Hin.
    destruct (edges_confirmed s Hsel a l b Hin) as (Ha & Hb & _).
    destruct (Hindex a Ha) as (i & -> & _), (Hindex b Hb) as (j & -> & _).
    by eexists. }
  fold (relationships_list s) in Hlen, Hlookup.
  split_and!.
  - unfold attributes_list. apply Forall_fmap, Forall_forall. intros r _.
    simpl. unfold attr_ids.
    destruct (store_ok_deref s r Hstore) as [_ Hle].
    rewrite length_app, length_replicate, length_fmap. lia.
  - unfold labels_list, attributes_list. by rewrite !length_fmap.
  - done.
  - unfold predicates_array. rewrite Hlen. by symmetry.
  - intros i a l b Hi. pose proof (Hlookup i _ Hi) as Hpair.
    apply list_elem_of_lookup_2 in Hi.
    destruct (edges_confirmed s Hsel a l b Hi) as (Ha & Hb & Hne).
    destruct (Hindex a Ha) as (src & Hsrc & Hsrc').
    destruct (Hindex b Hb) as (tgt & Htgt & Htgt').
    cbn beta iota in Hpair. rewrite Hsrc, Htgt in Hpair. simpl in Hpair.
    exists src, tgt. split_and!; try done.
    + by destruct (relationships_list s !! i); simplify_eq/=.
    + intros ->. congruence.
Qed.

Lemma saved_arrays_fit_together_witness :
  let s := run street two_edges in
  length (relationships_list s) = length (relationships s).
Proof.
  intros s. refine (proj1 (proj2 (proj2 (saved_arrays_fit_together s _)))).
  apply reachable_run, reachable_street.
Defined.

(** * Removing an attribute from the view *)

Lemma list_remove_lookup (x : string) (l : list string) i :
  NoDup l → l !! i = Some x → list_remove x l = Some (delete i l).
Proof.
  revert i. induction l as [|y l IH]; intros i Hnd Hi; [done|].
  apply NoDup_cons in Hnd as [Hy Hnd]. cbn [list_remove].
  destruct i as [|i]; simpl in Hi.
  - simplify_eq. by rewrite String.eqb_refl.
  - destruct (String.eqb y x) eqn:Hyx.
    + apply String.eqb_eq in Hyx as ->.
      by apply list_elem_of_lookup_2 in Hi.
    + by rewrite (IH i).
Qed.

Lemma NoDup_delete_notin (x : string) (l : list string) i :
  NoDup l → l !! i = Some x → x ∉ delete i l.
Proof.
  revert i. induction l as [|y l IH]; intros i Hnd Hi; [done|].
  apply NoDup_cons in Hnd as [Hy Hnd].
  destruct i as [|i]; simpl in Hi |- *.
  - by simplify_eq.
  - apply not_elem_of_cons. split; [|by apply IH].
    intros ->. by apply list_elem_of_lookup_2 in Hi.
Qed.

(** With a confirmed removal, [remove_attribute] deletes from the
    selected box the attribute shown at the selected row, and that row of
    the view; the attribute is then no longer on the box, and no other
    box changes. *)
Theorem remove_attribute_removes_shown_entry s index attribute :
  reachable s →
  attribute_view_listbox s !! index = Some attribute →
  let s' := fst (remove_attribute (Some index) true s) in
  ∃ sel,
    selected_bbox s = Some sel
    ∧ attributes (deref s sel) !! index = Some attribute
    ∧ attributes (deref s' sel) = delete index (attributes (deref s sel))
    ∧ (attribute ∉ attributes (deref s' sel))
    ∧ attribute_view_listbox s' = delete index (attribute_view_listbox s)
    ∧ ∀ r, r ≠ sel → deref s' r = deref s r.
Proof.
  intros [Hs _ [_ Hview _] _]%reachable_settled Hentry.
  pose proof Hs as [[_ _ _ Hstore] _ _ _].
  unfold attributes_shown, update_attribute_view in Hview.
  revert Hview. proj_simpl. intros Hview. rewrite Hview in Hentry |- *.
  destruct (selected_bbox s) as [sel|] eqn:Hsel; [|done].
  pose proof (sound_selected_valid s sel Hs Hsel) as Hvalid.
  destruct (store_ok_deref s sel Hstore) as [Hnd _].
  exists sel. split; [done|]. split; [done|].
  cbv zeta. unfold remove_attribute. simpl.
  rewrite Hview, Hentry. simpl. rewrite Hsel.
  rewrite (list_remove_lookup _ _ index) by done.
  unfold update_attribute_view. proj_simpl. rewrite Hsel.
  deref_norm. rewrite !deref_update_eq by done. proj_simpl.
  split_and!; try done.
  - by apply NoDup_delete_notin.
  - intros r Hr. deref_norm. by rewrite deref_update_ne.
Qed.

Lemma remove_attribute_removes_shown_entry_witness :
  let s := run street red_car in
  let s' := fst (remove_attribute (Some 0%nat) true s) in
  ∃ sel,
    selected_bbox s = Some sel
    ∧ attributes (deref s sel) !! 0%nat = Some "red"
    ∧ attributes (deref s' sel) = delete 0%nat (attributes (deref s sel))
    ∧ ("red" ∉ attributes (deref s' sel))
    ∧ attribute_view_listbox s' = delete 0%nat (attribute_view_listbox s)
    ∧ ∀ r, r ≠ sel → deref s' r = deref s r.
Proof.
  intros s.
  apply (remove_attribute_removes_shown_entry s 0%nat "red").
  - apply reachable_run, reachable_street.
  - by vm_compute.
Defined.

(** * Drawing a box and labelling it *)








(** * Completing a relationship *)

Lemma is_duplicate_notin s source target :
  sound s → source_bbox s = Some source →
  (source < length (heap s))%nat → (target < length (heap s))%nat →
  (source, pending_relationship s, target) ∉ relationships s →
  existsb (is_duplicate s target) (relationships s) = false.
Proof.
  intros Hs Hsource Hvs Hvt Hnotin. apply not_true_iff_false.
  intros ([[a l] b] & Hin%list_elem_of_In & Hdup)%existsb_exists.
  destruct (sound_edges_valid s a l b Hs Hin) as [Ha Hb].
  unfold is_duplicate in Hdup. rewrite Hsource in Hdup.
  rewrite !py_eq_identity in Hdup by (done || apply Hs).
  apply andb_prop in Hdup as [[Ha'%bool_decide_eq_true Hl%String.eqb_eq]
                                %andb_prop Hb'%bool_decide_eq_true].
  by subst.
Qed.

Lemma on_canvas_click_links s x y confirm source target :
  sound s →
  relationship_mode s = true → pending_relationship s ≠ "" →
  source_bbox s = Some source →
  inside (coords (deref s source)) x y = false →
  _get_confirmed_second_bbox_relationship s x y = Some target →
  (source, pending_relationship s, target) ∉ relationships s →
  fst (on_canvas_click x y confirm s)
  = leave_relationship_mode
      (if confirm then
         update_relationship_view
           (set_predicates
              (Some (default [] (predicates s)
                     ++ [dict_get (relationships_mapping s)
                           (pending_relationship s) 0]))
              (set_relationships
                 (relationships s
                  ++ [(source, pending_relationship s, target)]) s))
       else s).
Proof.
  intros Hs Hmode Hpending Hsource Hout Htarget Hnew.
  pose proof Hs as [[[Hrel Hcreate] _ _ _] _ _ _].
  destruct (Hrel Hmode) as (r & Hsel & Hr).
  assert (r = source) as -> by congruence.
  assert (create_bbox_active s = false) as Hc.
  { destruct (create_bbox_active s); [|done].
    by rewrite Hcreate in Hsel. }
  assert (_get_confirmed_bbox_at s x y = None) as Hhit.
  { unfold _get_confirmed_bbox_at. by rewrite Hsel, Hout. }
  unfold on_canvas_click. rewrite Hc, Hhit, Hsel.
  change (py_eq s None (Some source)) with false.
  rewrite andb_false_r. lazy beta iota zeta.
  rewrite Hmode.
  destruct (String.eqb_spec (pending_relationship s) "") as [?|_];
    [done|].
  rewrite Htarget. lazy beta iota zeta.
  rewrite (is_duplicate_notin s source target); try done.
  - rewrite Hsource.
    rewrite (py_eq_contains s x y) by eauto using target_contains.
    by destruct confirm.
  - by apply sound_selected_valid.
  - by apply sound_valid, (target_confirmed s x y).
Qed.

(** In relationship mode with a predicate chosen, a click outside the
    source box that resolves to a target with which the relationship
    does not exist yet ends the gesture and, when the user confirms,
    appends the relationship, the number of its predicate and its entry
    in the view; the target is not the source, which stays selected.
    When the user declines nothing is added. *)
Theorem new_relationship_is_appended s x y confirm source target :
  reachable s →
  relationship_mode s = true →
  pending_relationship s ≠ "" →
  source_bbox s = Some source →
  inside (coords (deref s source)) x y = false →
  _get_confirmed_second_bbox_relationship s x y = Some target →
  (source, pending_relationship s, target) ∉ relationships s →
  let s' := fst (on_canvas_click x y confirm s) in
  let rel := (source, pending_relationship s, target) in
  source ≠ target
  ∧ relationships s'
    = (if confirm then relationships s ++ [rel] else relationships s)
  ∧ default [] (predicates s')
    = (if confirm
       then default [] (predicates s)
            ++ [dict_get (relationships_mapping s) (pending_relationship s) 0]
       else default [] (predicates s))
  ∧ relationship_view_listbox s'
    = (if confirm
       then relationship_view_listbox s ++ [relationship_entry s rel]
       else relationship_view_listbox s)
  ∧ relationship_mode s' = false
  ∧ source_bbox s' = None
  ∧ pending_relationship s' = ""
  ∧ labeled_listbox_state s' = true
  ∧ selected_bbox s' = Some source.
Proof.
  intros [Hs _ [_ _ Hview] _]%reachable_settled Hmode Hpending Hsource Hout
    Htarget Hnew.
  pose proof Hs as [[[Hrel _] _ _ _] _ _ _].
  destruct (Hrel Hmode) as (r & Hsel & Hr).
  assert (r = source) as -> by congruence.
  cbv zeta. rewrite (on_canvas_click_links s x y confirm source target)
    by done.
  unfold relationships_shown, update_relationship_view in Hview.
  revert Hview. proj_simpl. intros Hview.
  split.
  { intros ->. apply target_contains in Htarget. unfold contains in Htarget.
    congruence. }
  destruct confirm; [|by split_and!].
  unfold update_relationship_view. proj_simpl.
  split_and!; try done.
  rewrite Hview, List.filter_app, map_app.
  change (displayed (set_predicates ?p (set_relationships ?r s)))
    with (displayed s).
  change (relationship_entry (set_predicates ?p (set_relationships ?r s)))
    with (relationship_entry s).
  f_equal. cbn [List.filter displayed]. rewrite Hsel, py_eq_refl. done.
Qed.

Lemma new_relationship_is_appended_witness :
  let s := run street awaiting_target in
  let s' := fst (on_canvas_click 350 350 true s) in
  relationships s' = relationships s ++ [(0, "on", 1)%nat].
Proof.
  intros s.
  assert (reachable s) as Hs by apply reachable_run, reachable_street.
  assert (relationship_mode s = true) as H1 by by vm_compute.
  assert (pending_relationship s ≠ "") as H2 by by vm_compute.
  assert (source_bbox s = Some 0%nat) as H3 by by vm_compute.
  assert (inside (coords (deref s 0%nat)) 350 350 = false) as H4
    by by vm_compute.
  assert (_get_confirmed_second_bbox_relationship s 350 350 = Some 1%nat)
    as H5 by by vm_compute.
  assert ((0%nat, pending_relationship s, 1%nat) ∉ relationships s) as H6.
  { vm_compute. apply not_elem_of_nil. }
  pose proof (new_relationship_is_appended s 350 350 true 0%nat 1%nat
                Hs H1 H2 H3 H4 H5 H6) as H.
  cbv zeta in H. exact (proj1 (proj2 H)).
Defined.

(** * Opening an image in the middle of a gesture *)

Lemma deselect_labeled_listbox_bound bbox s :
  labeled_listbox_bound (_deselect_bbox bbox s) = labeled_listbox_bound s.
Proof. frame_select. Qed.

#[local] Hint Rewrite deselect_labeled_listbox_bound : frame.

Lemma select_labeled_listbox_bound bbox s :
  labeled_listbox_bound (_select_bbox bbox s) = labeled_listbox_bound s.
Proof. frame_select'. Qed.

(** Every handler but [toggle_create_bbox] and [open_image] leaves the
    create mode and the binding of the labeled list as they are. *)
Lemma bound_step s e :
  match e with
  | CreateBboxButton | OpenButton _ _ => True
  | _ =>
      create_bbox_active (step s e) = create_bbox_active s
      ∧ labeled_listbox_bound (step s e) = labeled_listbox_bound s
  end.
Proof.
  unfold step. destruct e; cbn [handle]; try done.
  - click_cases x y confirm s; proj_simpl;
      rewrite ?select_create_bbox_active, ?deselect_create_bbox_active,
        ?select_labeled_listbox_bound, ?deselect_labeled_listbox_bound; done.
  - unfold on_mouse_up. field_cases; done.
  - unfold show_context_menu, add_attribute, add_relationship, change_label,
      remove_bbox.
    field_cases; done.
  - unfold on_handle_drag. field_cases; done.
  - unfold on_label_select, confirm_label_assignment. field_cases; done.
  - unfold on_attr_double_click. field_cases; done.
  - unfold on_relationship_selected. field_cases; done.
  - labeled_cases selection s; try case_match;
      rewrite ?select_create_bbox_active, ?deselect_create_bbox_active,
        ?select_labeled_listbox_bound, ?deselect_labeled_listbox_bound; done.
  - unfold show_attribute_context_menu, remove_attribute. field_cases; done.
  - unfold show_relationship_context_menu, remove_relationship.
    field_cases; done.
  - unfold import_label_list, import_list. field_cases; done.
  - unfold import_attribute_list, import_list. field_cases; done.
  - unfold import_relationship_list, import_list. field_cases; done.
Qed.

Lemma reachable_unbound s :
  reachable s → create_bbox_active s = true → labeled_listbox_bound s = false.
Proof.
  induction 1 as [labels attrs rels|s e Hs IH]; [done|].
  pose proof (bound_step s e) as Hstep.
  destruct e; cbn beta iota in Hstep;
    try lazymatch type of Hstep with
        | _ ∧ _ => destruct Hstep as [-> ->]; exact IH
        end.
  - unfold step. cbn [handle]. unfold open_image. field_cases; done.
  - unfold step. cbn [handle]. unfold toggle_create_bbox.
    field_cases; try done. all: by destruct (create_bbox_active s).
Qed.

(** [open_image] ends whatever was going on but does not put the labeled
    list back: opened in the middle of adding an attribute or a
    relationship or of changing a label, it leaves the list disabled;
    opened in create mode, it leaves the list without its selection
    handler. *)
Theorem open_image_leaves_the_labeled_list_off s file_path outcome :
  reachable s → file_path ≠ "" →
  let s' := fst (open_image file_path outcome s) in
  attribute_add_mode s' || relationship_mode s' || change_label_mode s'
  || create_bbox_active s' = false
  ∧ (attribute_add_mode s || relationship_mode s || change_label_mode s
     = true →
     labeled_listbox_state s' = false)
  ∧ (create_bbox_active s = true → labeled_listbox_bound s' = false).
Proof.
  intros Hs Hpath.
  pose proof (reachable_unbound s Hs) as Hbound.
  apply reachable_settled in Hs as [_ [_ _ _ _ Hoff] _ _].
  cbv zeta. unfold open_image.
  destruct (String.eqb_spec file_path "") as [?|_]; [done|].
  destruct outcome; proj_simpl; by split_and!.
Qed.

Lemma open_image_leaves_the_labeled_list_off_witness :
  let s := run street awaiting_target in
  let s' := fst (open_image "next.png" (decode_raises "cannot identify") s) in
  labeled_listbox_state s' = false.
Proof.
  intros s.
  refine (proj1 (proj2 (open_image_leaves_the_labeled_list_off s "next.png"
                          (decode_raises "cannot identify") _ _)) _).
  - apply reachable_run, reachable_street.
  - done.
  - by vm_compute.
Defined.

(** * The handles of the pending box *)

Lemma handles_ok_step s e : handles_ok s → handles_ok (step s e).
Proof.
  intros Hs pending'. destruct (is_mouse_up e) eqn:Hup.
  { destruct e; try discriminate. unfold step. cbn [handle].
    unfold on_mouse_up. field_cases; try apply Hs.
    intros [= <-]. exists (canvas_next s).
    cbn [Pending.handles Pending.set_handles].
    by rewrite <- !Z.add_assoc. }
  destruct (is_handle_drag e) eqn:Hdrag.
  { destruct e; try discriminate. unfold step. cbn [handle].
    unfold on_handle_drag. field_cases; try apply Hs.
    intros [= <-]. cbn [Pending.handles Pending.set_coords]. by apply Hs. }
  intros Hp. apply Hs. by apply (pending_same_step s e).
Qed.

Lemma reachable_handles_ok s : reachable s → handles_ok s.
Proof.
  induction 1 as [labels attrs rels|s e Hs IH]; [done|].
  by apply handles_ok_step.
Qed.

Lemma find_handle (n item : Z) key :
  (key, item)
  ∈ [("tl", n); ("tr", n + 1); ("bl", n + 2); ("br", n + 3);
     ("tm", n + 4); ("bm", n + 5); ("ml", n + 6); ("mr", n + 7)] →
  List.find (λ kv : string * Z, snd kv =? item)
    [("tl", n); ("tr", n + 1); ("bl", n + 2); ("br", n + 3);
     ("tm", n + 4); ("bm", n + 5); ("ml", n + 6); ("mr", n + 7)]
  = Some (key, item).
Proof.
  intros Hin.
  repeat (apply elem_of_cons in Hin as [Hin|Hin];
          [injection Hin as -> ->;
           cbn [List.find snd];
           repeat (first [ rewrite Z.eqb_refl
                         | rewrite (proj2 (Z.eqb_neq _ _)) by lia ];
                   cbn [List.find snd]);
           reflexivity|]).
  by apply elem_of_nil in Hin.
Qed.

Lemma handle_key_of_found s pending n key item :
  pending_bbox s = Some pending →
  Pending.handles pending
  = Some [("tl", n); ("tr", n + 1); ("bl", n + 2); ("br", n + 3);
          ("tm", n + 4); ("bm", n + 5); ("ml", n + 6); ("mr", n + 7)] →
  (key, item) ∈ default [] (Pending.handles pending) →
  handle_key_of s item = Some key.
Proof.
  intros Hpending Hhandles Hin. unfold handle_key_of.
  rewrite Hpending. cbn [mbind option_bind].
  rewrite Hhandles in Hin |- *. cbn [mbind option_bind default] in Hin |- *.
  by rewrite (find_handle n item key Hin).
Qed.

(** Pressing a handle of the pending box and dragging it resizes the box
    by the displacement of the pointer, moving the sides the handle is
    named after; the box stays at least 10 wide and high inside the
    image, keeps its rectangle and its handles, and nothing confirmed
    changes. *)
Theorem handle_drag_resizes_the_pending_box s pending key item x0 y0 x y :
  reachable s →
  pending_bbox s = Some pending →
  (key, item) ∈ default [] (Pending.handles pending) →
  let s' := run s [HandleButton1 item x0 y0; HandleB1Motion x y] in
  ∃ area,
    image_area s = Some area
    ∧ pending_bbox s'
      = Some (Pending.set_coords
                (resized key (x - x0) (y - y0) (Some area)
                   (Pending.coords pending)) pending)
    ∧ within area
        (resized key (x - x0) (y - y0) (Some area) (Pending.coords pending))
    ∧ heap s' = heap s ∧ confirmed_bboxes s' = confirmed_bboxes s.
Proof.
  intros Hs Hpending Hin.
  destruct (reachable_handles_ok s Hs pending Hpending) as [n Hhandles].
  apply reachable_settled in Hs as [_ _ _ [_ Hwithin _]].
  destruct (Hwithin pending Hpending) as (area & Harea & Hbox).
  exists area. split; [done|].
  cbv zeta. unfold run. cbn [fold_left]. unfold step. cbn [handle].
  unfold on_handle_press, on_handle_drag. proj_simpl.
  rewrite (handle_key_of_found _ pending n key item) by done.
  rewrite Hpending, Harea. proj_simpl. split_and!; try done.
  by apply resized_within.
Qed.

Lemma handle_drag_resizes_the_pending_box_witness :
  let s :=
    run street
      [CreateBboxButton; CanvasButton1 100 100 false;
       CanvasButtonRelease1 200 200] in
  let pending :=
    Pending.Build 2 (100, 100, 200, 200)
      (Some [("tl", 3); ("tr", 4); ("bl", 5); ("br", 6);
             ("tm", 7); ("bm", 8); ("ml", 9); ("mr", 10)]) in
  ∃ area,
    image_area s = Some area
    ∧ pending_bbox (run s [HandleButton1 6 200 200; HandleB1Motion 230 240])
      = Some (Pending.set_coords
                (resized "br" (230 - 200) (240 - 200) (Some area)
                   (Pending.coords pending)) pending).
Proof.
  intros s pending.
  destruct (handle_drag_resizes_the_pending_box s pending "br" 6 200 200
              230 240) as (area & Harea & H & _).
  - apply reachable_run, reachable_street.
  - by vm_compute.
  - simpl. do 3 apply list_elem_of_further. apply list_elem_of_here.
  - by exists area.
Defined.

(** * Clicking a box twice *)

Lemma hit_contains s x y hit :
  selected_bbox s = None →
  _get_confirmed_bbox_at s x y = Some hit →
  hit ∈ confirmed_bboxes s ∧ contains s x y hit.
Proof.
  intros Hsel. unfold _get_confirmed_bbox_at. rewrite Hsel. intros Hhit.
  split; [by apply (target_confirmed s x y)|by apply target_contains].
Qed.

Lemma deselect_removes_background bbox s :
  (bbox < length (heap s))%nat →
  text_bg_id (deref (_deselect_bbox bbox s) bbox) = None.
Proof.
  intros Hlt. unfold _deselect_bbox.
  set (s1 := update bbox (set_selected false) s).
  assert (bbox < length (heap s1))%nat as Hlt1
    by (subst s1; by rewrite length_heap_update).
  set (s2 := match text_bg_id (deref s1 bbox) with
             | Some _ => _ | None => s1 end).
  assert (text_bg_id (deref s2 bbox) = None) as Hs2.
  { subst s2. destruct (text_bg_id (deref s1 bbox)) eqn:Hbg; [|done].
    by rewrite deref_update_eq. }
  clearbody s2. clear s1 Hlt1.
  case_match; by deref_norm.
Qed.

(** With nothing selected and no mode on, a click on a confirmed box
    selects it and shows its attributes, and a second click at the same
    place deselects it again: no box is marked selected, the box has no
    label background left, and labels, ids, coordinates, attributes,
    confirmed boxes and relationships are as before the two clicks.
    Neither click shows a dialog. *)
Theorem second_click_deselects s x y answer1 answer2 hit :
  reachable s →
  selected_bbox s = None → create_bbox_active s = false →
  change_label_mode s = false →
  _get_confirmed_bbox_at s x y = Some hit →
  let s1 := step s (CanvasButton1 x y answer1) in
  let s2 := step s1 (CanvasButton1 x y answer2) in
  shown s [CanvasButton1 x y answer1; CanvasButton1 x y answer2] = []
  ∧ selected_bbox s1 = Some hit
  ∧ selected (deref s1 hit) = true
  ∧ attribute_view_listbox s1 = attributes (deref s hit)
  ∧ selected_bbox s2 = None
  ∧ (∀ r, r ∈ confirmed_bboxes s2 → selected (deref s2 r) = false)
  ∧ text_bg_id (deref s2 hit) = None
  ∧ (∀ r, core (deref s2 r) = core (deref s r)
          ∧ attributes (deref s2 r) = attributes (deref s r))
  ∧ confirmed_bboxes s2 = confirmed_bboxes s
  ∧ relationships s2 = relationships s.
Proof.
  intros Hreach Hsel Hcreate Hchange Hhit.
  pose proof (reachable_settled s Hreach) as [Hs Hg _ _].
  destruct (hit_contains s x y hit Hsel Hhit) as [Hconf Hinside].
  pose proof (sound_valid s hit Hs Hconf) as Hvalid.
  assert (attribute_add_mode s || relationship_mode s = false) as Hmodes.
  { destruct (_ || _) eqn:Hm; [|done].
    destruct (gesture_selected s Hg Hm) as [? ?]. congruence. }
  apply orb_false_elim in Hmodes as [Hattr Hrel].
  assert (create_bbox_active s || attribute_add_mode s || relationship_mode s
          = false) as Hfree by by rewrite Hcreate, Hattr, Hrel.
  assert (on_canvas_click x y answer1 s = (_select_bbox hit s, [])) as H1.
  { unfold on_canvas_click. rewrite Hcreate, Hhit, Hsel.
    change (py_eq s (Some hit) None) with false. rewrite andb_false_r.
    by rewrite select_relationship_mode, Hrel. }
  intros s1 s2.
  assert (s1 = _select_bbox hit s) as Hs1
    by (subst s1; unfold step; cbn [handle]; by rewrite H1).
  assert (selected_bbox s1 = Some hit) as Hsel1
    by (rewrite Hs1; by apply select_selected).
  assert (coords (deref s1 hit) = coords (deref s hit)) as Hcoords
    by (rewrite Hs1; apply select_field, selection_free_coords).
  assert (create_bbox_active s1 = false) as Hcreate1
    by (by rewrite Hs1, select_create_bbox_active).
  assert (attribute_add_mode s1 = false) as Hattr1
    by (by rewrite Hs1, select_attribute_add_mode).
  assert (relationship_mode s1 = false) as Hrel1
    by (by rewrite Hs1, select_relationship_mode).
  assert (change_label_mode s1 = false) as Hchange1
    by (by rewrite Hs1, select_change_label_mode).
  assert (on_canvas_click x y answer2 s1 = (_deselect_bbox hit s1, [])) as H2.
  { unfold on_canvas_click, _get_confirmed_bbox_at.
    unfold contains in Hinside.
    rewrite Hcreate1, Hsel1, Hcoords, !Hinside, Hattr1, Hrel1, Hchange1.
    cbn [orb andb]. rewrite py_eq_refl.
    by rewrite deselect_relationship_mode, Hrel1. }
  assert (s2 = _deselect_bbox hit s1) as Hs2
    by (subst s2; unfold step; cbn [handle]; by rewrite H2).
  assert (reachable s2) as Hreach2 by (subst s2 s1; by do 2 apply reachable_step).
  pose proof (reachable_settled s2 Hreach2) as [[_ _ Hsok2 _] _ _ _].
  assert (selected_bbox s2 = None) as Hsel2
    by (rewrite Hs2; by apply deselect_self).
  assert (length (heap s1) = length (heap s)) as Hlen1
    by (rewrite Hs1; apply select_length).
  split_and!.
  - cbn [shown]. fold s1. cbn [handle]. by rewrite H1, H2.
  - done.
  - rewrite Hs1. by apply select_marks.
  - pose proof (reachable_settled s1) as [Hs' _ [_ Hview _] _].
    { subst s1. by apply reachable_step. }
    unfold attributes_shown, update_attribute_view in Hview.
    revert Hview. proj_simpl. rewrite Hsel1. intros ->.
    rewrite Hs1. apply select_field, selection_free_attributes.
  - done.
  - intros r Hr. destruct (selected (deref s2 r)) eqn:Hmark; [|done].
    apply (selected_marked s2 Hsok2 r Hr) in Hmark. congruence.
  - rewrite Hs2. apply deselect_removes_background. by rewrite Hlen1.
  - intros r. rewrite Hs2, Hs1. split.
    + rewrite (deselect_field core) by apply selection_free_core.
      by rewrite (select_field core) by apply selection_free_core.
    + rewrite (deselect_field attributes) by apply selection_free_attributes.
      by rewrite (select_field attributes) by apply selection_free_attributes.
  - by rewrite Hs2, deselect_confirmed_bboxes, Hs1, select_confirmed_bboxes.
  - by rewrite Hs2, deselect_relationships, Hs1, select_relationships.
Qed.

Lemma second_click_deselects_witness :
  let s := run street four_boxes in
  let s1 := step s (CanvasButton1 150 150 false) in
  let s2 := step s1 (CanvasButton1 150 150 false) in
  selected_bbox s1 = Some 0%nat ∧ selected_bbox s2 = None.
Proof.
  intros s.
  destruct (second_click_deselects s 150 150 false false 0%nat)
    as (_ & H1 & _ & _ & H2 & _).
  - apply reachable_run, reachable_street.
  - by vm_compute.
  - by vm_compute.
  - by vm_compute.
  - by vm_compute.
  - by split.
Defined.
